(** * finances_projeto: the ledger and valuation core of [modulo/arquivo.py]

    A shallow embedding of the four classes of [src/modulo/arquivo.py]
    ([Transaction], [Account], [Investment], [Client]) and the properties
    of their methods.

    Modelling conventions.
    - Python objects are mutable and shared by reference, so every object
      lives in a store ([World]) and is named by its location; a method is a
      computation in the monad [M], which threads the store, the clock and
      the exception that may be raised.
    - [datetime.now()] reads the next value of the clock of the world: the
      clock is the sequence of all readings, [ticks] counts those consumed.
    - Method arguments have their annotated types: [float] is a binary64
      float ([PrimFloat.float], with the rounding, the infinities and the
      nan of the machine), [int] is [Z], [str] is [string], an argument
      defaulting to [None] is an [option].  The fields of a transaction are
      dynamically typed ([value]), because [Transaction.update] stores
      whatever it is given.
    - What the interpreter fixes and the source does not is a parameter
      ([interpreter]): the attributes every object has, the algorithm of the
      builtin [sum], the [pow] of the C library.
    - A program using the classes is a [session]: a list of method calls,
      each run in the world the previous one has left. *)

From Stdlib Require Import Floats.
From Stdlib Require Import ZArith QArith Qpower String List Lia.
From stdpp Require Import base option list gmap strings.

Local Open Scope Z_scope.
Local Open Scope string_scope.
Local Set Warnings "-inexact-float".

(** ** Values *)

(** [datetime]: the seven components of a naive [datetime.datetime]. *)
Record datetime := mk_datetime {
  year : Z; month : Z; day : Z;
  hour : Z; minute : Z; second : Z; microsecond : Z
}.

(** Naive datetimes are ordered componentwise, most significant first. *)
Fixpoint lex_compare (a b : list Z) : comparison :=
  match a, b with
  | [], [] => Eq
  | [], _ :: _ => Lt
  | _ :: _, [] => Gt
  | x :: a', y :: b' =>
      match Z.compare x y with
      | Eq => lex_compare a' b'
      | c => c
      end
  end.

Definition dt_key (d : datetime) : list Z :=
  [year d; month d; day d; hour d; minute d; second d; microsecond d].

Definition dt_compare (a b : datetime) : comparison :=
  lex_compare (dt_key a) (dt_key b).

(** [a <= b] on datetimes. *)
Definition dt_leb (a b : datetime) : bool :=
  match dt_compare a b with Gt => false | _ => true end.

(** [a >= b] on datetimes. *)
Definition dt_geb (a b : datetime) : bool := dt_leb b a.

Definition dt_le (a b : datetime) : Prop := dt_leb a b = true.

(** The Python values a transaction field can hold in this program. *)
Inductive value :=
| VNone
| VInt (n : Z)
| VFloat (x : float)
| VStr (s : string)
| VDate (d : datetime).

(** Python exceptions the modelled code can raise.  [DanglingRef] has no
    Python counterpart: it marks the use of a location that holds no object,
    which a Python reference never does. *)
Inductive exn :=
| TypeError | AttributeError | ZeroDivisionError | OverflowError
| DanglingRef.

Inductive outcome (A : Type) :=
| Ok (a : A)
| Raise (e : exn).
Arguments Ok {A} a.
Arguments Raise {A} e.

(** ** Numbers *)

(** A number is an [int] or a [float].  The methods take and keep floats;
    the one int they make is the 0 the builtin [sum] starts from. *)
Inductive number :=
| Int (n : Z)
| Float (x : float).

(** [float(n)] for an int [n]: the float nearest to [n], ties to even.
    (An int of 1024 bits or more does not convert; the ints converted here
    are the 0 of [sum] and counts of months, which are within 120000.) *)
Definition float_of_int (n : Z) : float :=
  SF2Prim (binary_normalize prec emax n 0 false).

(** [a + b] on numbers: ints add exactly, and an int added to a float is
    converted first. *)
Definition py_add (a b : number) : number :=
  match a, b with
  | Int m, Int n => Int (m + n)
  | Int m, Float y => Float (float_of_int m + y)
  | Float x, Int n => Float (x + float_of_int n)
  | Float x, Float y => Float (x + y)
  end.

(** [x == c] for a float [x] and an int [c]: Python compares the two
    exactly, without rounding [c] to a float. *)
Definition float_eq_int (x : float) (c : Z) : bool :=
  match Prim2SF x with
  | S754_zero _ => Z.eqb c 0
  | S754_finite s m e =>
      if Z.leb 0 e then Z.eqb (cond_Zopp s (Z.pos m) * 2 ^ e) c
      else Z.eqb (cond_Zopp s (Z.pos m)) (c * 2 ^ (- e))
  | _ => false
  end.

(** ** Objects *)

(** References are locations in the store. *)
Abbreviation tx_ref := nat (only parsing).
Abbreviation account_ref := nat (only parsing).
Abbreviation investment_ref := nat (only parsing).
Abbreviation client_ref := nat (only parsing).

Module Transaction.
(** The four attributes set by [__init__], and [extra]: the other entries
    of the instance dictionary (empty after [__init__]). *)
Record t := mk {
  amount : value;
  date : value;
  category : value;
  description : value;
  extra : gmap string value
}.
End Transaction.

Module Account.
Record t := mk {
  name : string;
  balance : float;
  transactions : list tx_ref
}.
End Account.

Module Investment.
Record t := mk {
  type : string;
  initial_amount : float;
  date_purchased : datetime;
  rate_of_return : float;
  client : client_ref
}.
End Investment.

Module Client.
Record t := mk {
  name : string;
  accounts : list account_ref;
  investments : list investment_ref
}.
End Client.

(** ** The world: clock and store *)

Record World := mk_World {
  clock : nat -> datetime;
  ticks : nat;
  transaction_heap : list Transaction.t;
  account_heap : list Account.t;
  investment_heap : list Investment.t;
  client_heap : list Client.t
}.

Definition set_ticks (n : nat) (w : World) : World :=
  mk_World (clock w) n (transaction_heap w) (account_heap w)
           (investment_heap w) (client_heap w).

Definition set_transaction_heap (h : list Transaction.t) (w : World) : World :=
  mk_World (clock w) (ticks w) h (account_heap w)
           (investment_heap w) (client_heap w).

Definition set_account_heap (h : list Account.t) (w : World) : World :=
  mk_World (clock w) (ticks w) (transaction_heap w) h
           (investment_heap w) (client_heap w).

Definition set_investment_heap (h : list Investment.t) (w : World) : World :=
  mk_World (clock w) (ticks w) (transaction_heap w) (account_heap w)
           h (client_heap w).

Definition set_client_heap (h : list Client.t) (w : World) : World :=
  mk_World (clock w) (ticks w) (transaction_heap w) (account_heap w)
           (investment_heap w) h.

(** ** The monad of methods

    A computation returns a value or raises, and in both cases leaves a
    world behind (what was mutated before an exception stays mutated). *)
Definition M (A : Type) : Type := World -> outcome A * World.

#[global] Instance M_ret : MRet M := fun A (a : A) w => (Ok a, w).

#[global] Instance M_bind : MBind M := fun A B (k : A -> M B) (m : M A) w =>
  match m w with
  | (Ok a, w') => k a w'
  | (Raise e, w') => (Raise e, w')
  end.

Definition raise {A} (e : exn) : M A := fun w => (Raise e, w).

(** [datetime.now()] *)
Definition datetime_now : M datetime :=
  fun w => (Ok (clock w (ticks w)), set_ticks (S (ticks w)) w).

(** Reading an object through a reference. *)
Definition deref {A} (heap : World -> list A) (r : nat) : M A :=
  fun w => match heap w !! r with
           | Some x => (Ok x, w)
           | None => (Raise DanglingRef, w)
           end.

Definition get_transaction : tx_ref -> M Transaction.t := deref transaction_heap.
Definition get_account : account_ref -> M Account.t := deref account_heap.
Definition get_investment : investment_ref -> M Investment.t := deref investment_heap.
Definition get_client : client_ref -> M Client.t := deref client_heap.

(** Storing an object at an existing location. *)
Definition put_transaction (r : tx_ref) (x : Transaction.t) : M unit :=
  fun w => (Ok tt, set_transaction_heap (<[r := x]> (transaction_heap w)) w).

Definition put_account (r : account_ref) (x : Account.t) : M unit :=
  fun w => (Ok tt, set_account_heap (<[r := x]> (account_heap w)) w).

Definition put_client (r : client_ref) (x : Client.t) : M unit :=
  fun w => (Ok tt, set_client_heap (<[r := x]> (client_heap w)) w).

(** Allocating a new object: it gets the next free location. *)
Definition new_transaction (x : Transaction.t) : M tx_ref :=
  fun w => (Ok (length (transaction_heap w)),
            set_transaction_heap (transaction_heap w ++ [x]) w).

Definition new_account (x : Account.t) : M account_ref :=
  fun w => (Ok (length (account_heap w)),
            set_account_heap (account_heap w ++ [x]) w).

Definition new_investment (x : Investment.t) : M investment_ref :=
  fun w => (Ok (length (investment_heap w)),
            set_investment_heap (investment_heap w ++ [x]) w).

Definition new_client (x : Client.t) : M client_ref :=
  fun w => (Ok (length (client_heap w)),
            set_client_heap (client_heap w ++ [x]) w).

(** A [for] loop over a list, and a list comprehension with a condition. *)
Fixpoint for_each {A} (l : list A) (body : A -> M unit) : M unit :=
  match l with
  | [] => mret tt
  | x :: l' => body x;; for_each l' body
  end.

Fixpoint map_m {A B} (f : A -> M B) (l : list A) : M (list B) :=
  match l with
  | [] => mret []
  | x :: l' => y ← f x; ys ← map_m f l'; mret (y :: ys)
  end.

Fixpoint filter_m {A} (p : A -> M bool) (l : list A) : M (list A) :=
  match l with
  | [] => mret []
  | x :: l' =>
      p x ≫= λ b : bool, r ← filter_m p l'; mret (if b then x :: r else r)
  end.

(** Lifting a pure result that may be an exception. *)
Definition lift {A} (o : outcome A) : M A := fun w => (o, w).

(** ** The interpreter *)

(** What the interpreter decides and the source leaves open. *)
Record interpreter := mk_interpreter {
  (** the attribute names an instance has from [object] ([__repr__],
      [__eq__], [__hash__], ...) and those a version of the interpreter
      adds to every class *)
  object_attrs : list string;
  (** whether the builtin [sum] compensates for the low-order bits that
      float additions lose (it does from Python 3.12 on) *)
  compensated_sum : bool;
  (** [x ** y] on floats where CPython does not settle the result by
      itself (see [py_pow]): in the end the [pow] of the C library, with
      [OverflowError] when it reports a range error *)
  platform_pow : float -> float -> outcome float
}.

(** One turn of the loop of the compensated [sum] (Neumaier's): the
    running total and the running compensation, on the next item [x]. *)
Definition compensated_step (state : float * float) (x : float)
  : float * float :=
  let '(f_result, c) := state in
  let t := (f_result + x)%float in
  if (abs x <=? abs f_result)%float
  then (t, (c + ((f_result - t) + x))%float)
  else (t, (c + ((x - t) + f_result))%float).

(** The builtin [sum] over a list of floats.  It starts from the int 0,
    which is what it returns for no item; the first float is added to that
    0, and the others are added to the running float, from left to right,
    with or without compensation. *)
Definition py_sum (compensated : bool) (l : list float) : number :=
  match l with
  | [] => Int 0
  | x :: l' =>
      let first := (float_of_int 0 + x)%float in
      if compensated
      then
        let '(f_result, c) := fold_left compensated_step l' (first, 0%float) in
        Float (if negb (c =? 0)%float && is_finite c
               then (f_result + c)%float else f_result)
      else Float (fold_left PrimFloat.add l' first)
  end.

(** [base ** exponent] for a float [base] and an int [exponent].  The
    exponent is converted to a float; [x ** 0] is 1.0 for every [x];
    0.0 to a negative power raises [ZeroDivisionError]. *)
Definition py_pow (py : interpreter) (base : float) (exponent : Z)
  : outcome float :=
  if Z.eqb exponent 0 then Ok 1%float
  else if (base =? 0)%float && Z.ltb exponent 0 then Raise ZeroDivisionError
  else platform_pow py base (float_of_int exponent).

(** ** Python operators on values *)

(** Truth value of an object, as tested by [if x:]. *)
Definition py_bool (v : value) : bool :=
  match v with
  | VNone => false
  | VInt n => negb (Z.eqb n 0)
  | VFloat x => negb (x =? 0)%float
  | VStr s => negb (String.eqb s "")
  | VDate _ => true
  end.

(** [v >= d] and [v <= d] for a datetime [d]: only a datetime can be
    ordered against a datetime, anything else raises [TypeError]. *)
Definition py_ge_date (v : value) (d : datetime) : outcome bool :=
  match v with
  | VDate x => Ok (dt_geb x d)
  | _ => Raise TypeError
  end.

Definition py_le_date (v : value) (d : datetime) : outcome bool :=
  match v with
  | VDate x => Ok (dt_leb x d)
  | _ => Raise TypeError
  end.

(** [v == c] for an integer [c]: numbers compare by value, any other
    object is different from an integer. *)
Definition py_eq_int (v : value) (c : Z) : bool :=
  match v with
  | VInt n => Z.eqb n c
  | VFloat x => float_eq_int x c
  | _ => false
  end.

(** ** class Transaction *)

(** [Transaction.__init__] (the object is allocated, then initialised). *)
Definition Transaction_init (amount : float) (category : Z)
    (description : string) : M tx_ref :=
  now ← datetime_now;
  new_transaction
    {| Transaction.amount := VFloat amount;
       Transaction.date := VDate now;
       Transaction.category := VInt category;
       Transaction.description := VStr description;
       Transaction.extra := ∅ |}.

(** The attributes [__init__] sets on the instance. *)
Definition instance_fields : list string :=
  ["amount"; "date"; "category"; "description"].

(** The attributes the class statement defines: the name of the module,
    the docstring and the three methods. *)
Definition class_attrs : list string :=
  ["__module__"; "__doc__"; "__init__"; "__str__"; "update"].

(** Attributes of every instance whose assignment the interpreter checks:
    [__class__] accepts only a class and [__dict__] only a dictionary
    (no [value] is either), [__weakref__] is read-only. *)
Definition guarded_attr (key : string) : option exn :=
  if String.eqb key "__class__" then Some TypeError
  else if String.eqb key "__dict__" then Some TypeError
  else if String.eqb key "__weakref__" then Some AttributeError
  else None.

(** Reading an attribute stored on the instance. *)
Definition instance_attr (t : Transaction.t) (key : string) : option value :=
  if String.eqb key "amount" then Some (Transaction.amount t)
  else if String.eqb key "date" then Some (Transaction.date t)
  else if String.eqb key "category" then Some (Transaction.category t)
  else if String.eqb key "description" then Some (Transaction.description t)
  else Transaction.extra t !! key.

(** [setattr(self, key, value)] *)
Definition setattr (t : Transaction.t) (key : string) (v : value)
  : outcome Transaction.t :=
  let '(Transaction.mk a d c s x) := t in
  if String.eqb key "amount" then Ok (Transaction.mk v d c s x)
  else if String.eqb key "date" then Ok (Transaction.mk a v c s x)
  else if String.eqb key "category" then Ok (Transaction.mk a d v s x)
  else if String.eqb key "description" then Ok (Transaction.mk a d c v x)
  else match guarded_attr key with
       | Some e => Raise e
       | None => Ok (Transaction.mk a d c s (<[key := v]> x))
       end.

Section Methods.

Variable py : interpreter.

(** [hasattr(self, key)]: the instance, then the class, then [object]. *)
Definition hasattr (t : Transaction.t) (key : string) : bool :=
  bool_decide (is_Some (instance_attr t key))
  || bool_decide (key ∈ class_attrs)
  || bool_decide (is_Some (guarded_attr key))
  || bool_decide (key ∈ object_attrs py).

(** [Transaction.update(self, **attributes)], the body of the method.  The
    keyword mapping is the list of its items in the order given; a keyword
    named [self] collides with the positional parameter and the call itself
    raises. *)
Definition update (self : tx_ref) (attributes : list (string * value))
  : M unit :=
  if bool_decide ("self" ∈ attributes.*1) then raise TypeError
  else
    for_each attributes (λ '(key, value),
      t ← get_transaction self;
      if hasattr t key
      then t' ← lift (setattr t key value); put_transaction self t'
      else mret tt).

(** The call [t.update(...)] on a transaction [t].  The attribute [update] is looked
    up on the instance before the class: a value that an earlier [update]
    has stored under that name hides the method, and no [value] can be
    called. *)
Definition call_update (self : tx_ref) (attributes : list (string * value))
  : M unit :=
  t ← get_transaction self;
  match Transaction.extra t !! "update" with
  | Some _ => raise TypeError
  | None => update self attributes
  end.

(** ** class Account *)

(** [Account.__init__] *)
Definition Account_init (name : string) : M account_ref :=
  new_account
    {| Account.name := name; Account.balance := 0;
       Account.transactions := [] |}.

(** [Account.add_transaction] *)
Definition add_transaction (self : account_ref)
    (amount : float) (category : Z) (description : string) : M tx_ref :=
  transaction ← Transaction_init amount category description;
  a ← get_account self;
  put_account self
    (Account.mk (Account.name a) (Account.balance a)
                (Account.transactions a ++ [transaction]));;
  a ← get_account self;
  put_account self
    (Account.mk (Account.name a) (Account.balance a + amount)%float
                (Account.transactions a));;
  mret transaction.

(** One filtering step of [get_transactions]: [if arg: result = [...]].
    An omitted argument is [None], which is false. *)
Definition filter_if {A} (inj : A -> value) (arg : option A)
    (keep : A -> Transaction.t -> outcome bool) (result : list tx_ref)
  : M (list tx_ref) :=
  match arg with
  | Some a =>
      if py_bool (inj a)
      then filter_m (λ r, t ← get_transaction r; lift (keep a t)) result
      else mret result
  | None => mret result
  end.

(** [Account.get_transactions] *)
Definition get_transactions (self : account_ref)
    (start_date end_date : option datetime) (category : option Z)
  : M (list tx_ref) :=
  a ← get_account self;
  let result := Account.transactions a in
  result ← filter_if VDate start_date
             (λ d t, py_ge_date (Transaction.date t) d) result;
  result ← filter_if VDate end_date
             (λ d t, py_le_date (Transaction.date t) d) result;
  result ← filter_if VInt category
             (λ c t, Ok (py_eq_int (Transaction.category t) c)) result;
  mret result.

(** ** class Investment *)

(** [Investment.__init__] *)
Definition Investment_init (type : string) (amount rate_of_return : float)
    (client : client_ref) : M investment_ref :=
  now ← datetime_now;
  new_investment
    {| Investment.type := type;
       Investment.initial_amount := amount;
       Investment.date_purchased := now;
       Investment.rate_of_return := rate_of_return;
       Investment.client := client |}.

(** The number of months [calculate_value] counts between the purchase and
    the two readings of the clock it makes: the year is taken from the
    first, the month from the second. *)
Definition months_elapsed (purchased now_year now_month : datetime) : Z :=
  (year now_year - year purchased) * 12 + (month now_month - month purchased).

(** [Investment.calculate_value] *)
Definition calculate_value (self : investment_ref) : M float :=
  now1 ← datetime_now;
  i ← get_investment self;
  now2 ← datetime_now;
  let months := months_elapsed (Investment.date_purchased i) now1 now2 in
  growth ← lift (py_pow py (1 + Investment.rate_of_return i) months);
  mret (Investment.initial_amount i * growth)%float.

(** [Investment.sell] *)
Definition sell (self : investment_ref) (account : account_ref) : M unit :=
  current_value ← calculate_value self;
  i ← get_investment self;
  add_transaction account current_value 0 ("Venda de " +:+ Investment.type i);;
  mret tt.

(** ** class Client *)

(** [Client.__init__] *)
Definition Client_init (name : string) : M client_ref :=
  new_client
    {| Client.name := name; Client.accounts := []; Client.investments := [] |}.

(** [Client.add_account] *)
Definition add_account (self : client_ref) (account_name : string)
  : M account_ref :=
  account ← Account_init account_name;
  c ← get_client self;
  put_client self
    (Client.mk (Client.name c) (Client.accounts c ++ [account])
               (Client.investments c));;
  mret account.

(** [Client.add_investment] *)
Definition add_investment (self : client_ref) (investment : investment_ref)
  : M unit :=
  c ← get_client self;
  put_client self
    (Client.mk (Client.name c) (Client.accounts c)
               (Client.investments c ++ [investment])).

(** [Client.get_net_worth] *)
Definition get_net_worth (self : client_ref) : M number :=
  c ← get_client self;
  balances ← map_m (λ account, a ← get_account account;
                               mret (Account.balance a))
                   (Client.accounts c);
  let account_balance := py_sum (compensated_sum py) balances in
  c ← get_client self;
  values ← map_m calculate_value (Client.investments c);
  let investment_value := py_sum (compensated_sum py) values in
  mret (py_add account_balance investment_value).

End Methods.

(** * Vocabulary of the specification *)

(** ** Sums of floats *)

(** The floats [xs] added to [start] one at a time, in order; each
    addition gives the float nearest to the exact result. *)
Fixpoint added_in_turn (start : float) (xs : list float) : float :=
  match xs with
  | [] => start
  | x :: xs' => added_in_turn (start + x) xs'
  end.

(** The rational number a float stands for (none for an infinity or nan). *)
Definition exact (x : float) : option Q :=
  match Prim2SF x with
  | S754_zero _ => Some 0%Q
  | S754_finite s m e =>
      Some (Qred (inject_Z (cond_Zopp s (Z.pos m)) * 2 ^ e))
  | _ => None
  end.

(** The sum, as rational numbers, of what the floats of a list stand for. *)
Fixpoint arithmetic_sum (xs : list float) : option Q :=
  match xs with
  | [] => Some 0%Q
  | x :: xs' =>
      match exact x, arithmetic_sum xs' with
      | Some q, Some s => Some (Qred (q + s))
      | _, _ => None
      end
  end.

(** What an addition [t + x] of floats loses to rounding, as the
    compensated [sum] computes it. *)
Definition lost_in_adding (t x : float) : float :=
  if (abs x <=? abs t)%float then ((t - (t + x)) + x)%float
  else ((x - (t + x)) + t)%float.

(** The builtin [sum] of floats, told as the list grows by one item at its
    end.  After the items [l] the running total is [t] and the compensation
    is [c]: the first item is added to the 0 that [sum] starts from, each
    further item is added to the total, and the compensation gathers what
    these additions lose (it stays 0.0 when [sum] does not compensate). *)
Inductive running_sum (compensated : bool)
  : list float -> float -> float -> Prop :=
| running_sum_first (x : float) :
    running_sum compensated [x] (0 + x) 0
| running_sum_next (l : list float) (t c x : float) :
    running_sum compensated l t c ->
    running_sum compensated (l ++ [x]) (t + x)
      (if compensated then c + lost_in_adding t x else c).

(** [sum] of no item is the int 0; otherwise it is the running total, to
    which a compensation that is finite and not zero is added at the end. *)
Inductive sums_to (compensated : bool) : list float -> number -> Prop :=
| sums_to_nothing : sums_to compensated [] (Int 0)
| sums_to_total (l : list float) (t c : float) :
    running_sum compensated l t c ->
    sums_to compensated l
      (Float (if negb (c =? 0)%float && is_finite c then t + c else t)).

(** Zero as a number: the int 0, and the floats 0.0 and -0.0. *)
Definition is_zero_number (n : number) : bool :=
  match n with
  | Int z => Z.eqb z 0
  | Float x => (x =? 0)%float
  end.

(** Two results are the same number: they are identical, or both are
    zero. *)
Definition same_number (a b : number) : Prop :=
  a = b \/ (is_zero_number a = true /\ is_zero_number b = true).

(** ** Ledgers and repeated calls *)

(** The world [add_transaction] leaves behind. *)
Definition credited (self : account_ref) (a : Account.t)
    (amount : float) (category : Z) (description : string) (w : World)
  : World :=
  mk_World (clock w) (S (ticks w))
    (transaction_heap w ++
       [Transaction.mk (VFloat amount) (VDate (clock w (ticks w)))
                       (VInt category) (VStr description) ∅])
    (<[self := Account.mk (Account.name a) (Account.balance a + amount)%float
                 (Account.transactions a ++ [length (transaction_heap w)])]>
       (account_heap w))
    (investment_heap w) (client_heap w).



(** The [amount] attributes along the ledger of an account, in ledger
    order. *)
Definition ledger_amounts (w : World) (a : Account.t) : list (option value) :=
  map (λ r, Transaction.amount <$> transaction_heap w !! r)
      (Account.transactions a).

(** Every reference of the list is to a transaction of the store. *)
Definition all_live (w : World) (refs : list tx_ref) : Prop :=
  Forall (λ r, is_Some (transaction_heap w !! r)) refs.

(** Whether the transaction behind a reference has category [c], by
    Python's [==]. *)
Definition has_category (w : World) (c : Z) (r : tx_ref) : bool :=
  match transaction_heap w !! r with
  | Some t => py_eq_int (Transaction.category t) c
  | None => false
  end.

(** [sell] called [n] times in a row on the same investment and account. *)
Fixpoint sell_times (py : interpreter) (n : nat) (self : investment_ref)
    (account : account_ref) : M unit :=
  match n with
  | O => mret tt
  | S n' => sell py self account;; sell_times py n' self account
  end.

(** At each of the next [n] calls of [sell], [calculate_value] returns [V]. *)
Fixpoint value_stays (py : interpreter) (V : float) (self : investment_ref)
    (account : account_ref) (n : nat) (w : World) : Prop :=
  match n with
  | O => True
  | S n' =>
      (calculate_value py self w).1 = Ok V
      /\ value_stays py V self account n' (sell py self account w).2
  end.

(** ** Valuation by the clock *)

(** The months [calculate_value] counts for investment [i] when called in
    world [w]. *)
Definition months_at (w : World) (i : Investment.t) : Z :=
  months_elapsed (Investment.date_purchased i)
                 (clock w (ticks w)) (clock w (S (ticks w))).

(** What an investment is worth when the year is read at reading [k] of the
    clock and the month at reading [k + 1]: a float, or the exception of
    the power. *)
Definition value_at (py : interpreter) (clk : nat -> datetime) (k : nat)
    (i : Investment.t) : outcome float :=
  match py_pow py (1 + Investment.rate_of_return i)
               (months_elapsed (Investment.date_purchased i)
                               (clk k) (clk (S k))) with
  | Ok growth => Ok (Investment.initial_amount i * growth)%float
  | Raise e => Raise e
  end.

(** The worth of each investment of a list valued in turn from reading [k],
    up to the first that cannot be valued. *)
Fixpoint values_from (py : interpreter) (clk : nat -> datetime) (k : nat)
    (l : list Investment.t) : outcome (list float) :=
  match l with
  | [] => Ok []
  | i :: l' =>
      match value_at py clk k i with
      | Ok v =>
          match values_from py clk (S (S k)) l' with
          | Ok vs => Ok (v :: vs)
          | Raise e => Raise e
          end
      | Raise e => Raise e
      end
  end.

(** Two worlds in which an investment is valued alike: same clock, same
    readings consumed, same investments. *)
Definition same_market (w w1 : World) : Prop :=
  clock w1 = clock w
  /\ ticks w1 = ticks w
  /\ investment_heap w1 = investment_heap w.

(** ** Sessions and the order of timestamps *)

(** Successive readings of the clock do not go back in time. *)
Definition monotone_clock (w : World) : Prop :=
  forall i j : nat, (i <= j)%nat -> dt_le (clock w i) (clock w j).

(** The [date] attributes along the ledger of an account, in ledger order. *)
Definition ledger_dates (w : World) (a : Account.t) : list (option value) :=
  map (λ r, Transaction.date <$> transaction_heap w !! r)
      (Account.transactions a).

(** Every entry is a datetime, and an earlier entry is never after a later
    one. *)
Definition non_decreasing (dates : list (option value)) : Prop :=
  forall (i j : nat) (x y : option value),
    (i <= j)%nat -> dates !! i = Some x -> dates !! j = Some y ->
    exists dx dy : datetime,
      x = Some (VDate dx) /\ y = Some (VDate dy) /\ dt_le dx dy.

(** Every entry is a datetime that no reading of the clock still to come
    precedes. *)
Definition in_the_past (w : World) (dates : list (option value)) : Prop :=
  Forall (λ x, exists d : datetime,
               x = Some (VDate d)
               /\ forall k : nat, (ticks w <= k)%nat -> dt_le d (clock w k))
         dates.

(** The ledger of every account is in order and lies in the past. *)
Definition ledgers_ordered (w : World) : Prop :=
  forall (r : account_ref) (a : Account.t),
    account_heap w !! r = Some a ->
    non_decreasing (ledger_dates w a) /\ in_the_past w (ledger_dates w a).

(** The balance of every account is what the amounts of its ledger, which
    are the floats [xs], give when added to 0.0 in ledger order. *)
Definition ledgers_balanced (w : World) : Prop :=
  forall (r : account_ref) (a : Account.t),
    account_heap w !! r = Some a ->
    exists xs : list float,
      ledger_amounts w a = map (λ x, Some (VFloat x)) xs
      /\ Account.balance a = added_in_turn 0 xs.

(** [w'] comes after [w]: the clock is the same and has not been wound
    back, the transactions of [w] have kept their attribute [attr], and an
    account is what it was in [w] or is new, empty and at balance 0. *)
Definition advances (attr : Transaction.t -> value) (w w' : World) : Prop :=
  clock w' = clock w
  /\ (ticks w <= ticks w')%nat
  /\ (forall (r : tx_ref) (t : Transaction.t),
        transaction_heap w !! r = Some t ->
        exists t' : Transaction.t,
          transaction_heap w' !! r = Some t' /\ attr t' = attr t)
  /\ (forall (r : account_ref) (a : Account.t),
        account_heap w' !! r = Some a ->
        account_heap w !! r = Some a
        \/ (Account.transactions a = [] /\ Account.balance a = 0%float)).

(** A call of one of the methods of the four classes. *)
Inductive call :=
| Call_Client_init (name : string)
| Call_add_account (self : client_ref) (account_name : string)
| Call_add_investment (self : client_ref) (investment : investment_ref)
| Call_get_net_worth (self : client_ref)
| Call_Account_init (name : string)
| Call_add_transaction (self : account_ref)
    (amount : float) (category : Z) (description : string)
| Call_get_transactions (self : account_ref)
    (start_date end_date : option datetime) (category : option Z)
| Call_Investment_init (type : string) (amount rate_of_return : float)
    (client : client_ref)
| Call_calculate_value (self : investment_ref)
| Call_sell (self : investment_ref) (account : account_ref)
| Call_update (self : tx_ref) (attributes : list (string * value)).

Definition perform (py : interpreter) (c : call) : M unit :=
  match c with
  | Call_Client_init name => Client_init name;; mret tt
  | Call_add_account self account_name =>
      add_account self account_name;; mret tt
  | Call_add_investment self investment => add_investment self investment
  | Call_get_net_worth self => get_net_worth py self;; mret tt
  | Call_Account_init name => Account_init name;; mret tt
  | Call_add_transaction self amount category description =>
      add_transaction self amount category description;; mret tt
  | Call_get_transactions self start_date end_date category =>
      get_transactions self start_date end_date category;; mret tt
  | Call_Investment_init type amount rate_of_return client =>
      Investment_init type amount rate_of_return client;; mret tt
  | Call_calculate_value self => calculate_value py self;; mret tt
  | Call_sell self account => sell py self account
  | Call_update self attributes => call_update py self attributes
  end.

(** A session is any sequence of calls made one after the other.  What a
    call raises is caught by the caller, and the session goes on in the
    world the call has left. *)
Definition session (py : interpreter) (calls : list call) (w : World)
  : World :=
  fold_left (λ w c, (perform py c w).2) calls w.

(** The call does not overwrite the attribute [name] of a transaction. *)
Definition keeps_attribute (name : string) (c : call) : Prop :=
  match c with
  | Call_update _ attributes => name ∉ attributes.*1
  | _ => True
  end.

(** ** Retrieval by date and category *)

(** A test on a [date] attribute that only a datetime can pass. *)
Definition date_in (p : datetime -> bool) (v : value) : bool :=
  match v with
  | VDate d => p d
  | _ => false
  end.

(** The transaction behind [r] passes the filters of [get_transactions]:
    it is not before [start_date], not after [end_date] and of the given
    [category], where an omitted filter, and category 0, let everything
    pass. *)
Definition selected (w : World) (start_date end_date : option datetime)
    (category : option Z) (r : tx_ref) : bool :=
  match transaction_heap w !! r with
  | Some t =>
      match start_date with
      | Some s => date_in (λ d, dt_geb d s) (Transaction.date t)
      | None => true
      end
      && match end_date with
         | Some e => date_in (λ d, dt_leb d e) (Transaction.date t)
         | None => true
         end
      && match category with
         | Some c => Z.eqb c 0 || py_eq_int (Transaction.category t) c
         | None => true
         end
  | None => false
  end.

(** Every reference of the list is to a transaction whose [date] is a
    datetime. *)
Definition dated (w : World) (refs : list tx_ref) : Prop :=
  Forall (λ r, exists (t : Transaction.t) (d : datetime),
               transaction_heap w !! r = Some t
               /\ Transaction.date t = VDate d) refs.

(** A transaction of category [c] stamped [now] passes the filters of
    [get_transactions]. *)
Definition passes (now : datetime) (c : Z)
    (start_date end_date : option datetime) (category : option Z) : bool :=
  match start_date with Some s => dt_geb now s | None => true end
  && match end_date with Some e => dt_leb now e | None => true end
  && match category with Some k => Z.eqb k 0 || Z.eqb c k | None => true end.

(** ** What sessions keep *)

(** Nothing of [w] is lost or rewritten in [w']: an investment is what it
    was; an account has its name, and its ledger has only been extended; a
    client has its name, and its lists have only been extended; a
    transaction of [w] is still a transaction of [w']. *)
Definition store_grows (w w' : World) : Prop :=
  (forall (r : investment_ref) (i : Investment.t),
      investment_heap w !! r = Some i -> investment_heap w' !! r = Some i)
  /\ (forall (r : account_ref) (a : Account.t),
        account_heap w !! r = Some a ->
        exists a' : Account.t,
          account_heap w' !! r = Some a'
          /\ Account.name a' = Account.name a
          /\ Account.transactions a `prefix_of` Account.transactions a')
  /\ (forall (r : client_ref) (c : Client.t),
        client_heap w !! r = Some c ->
        exists c' : Client.t,
          client_heap w' !! r = Some c'
          /\ Client.name c' = Client.name c
          /\ Client.accounts c `prefix_of` Client.accounts c'
          /\ Client.investments c `prefix_of` Client.investments c')
  /\ (forall r : tx_ref,
        is_Some (transaction_heap w !! r) ->
        is_Some (transaction_heap w' !! r)).

(** Every ledger refers to transactions of the store, and a transaction is
    in one ledger only, once. *)
Definition ledgers_separate (w : World) : Prop :=
  (forall (r : account_ref) (a : Account.t),
      account_heap w !! r = Some a -> all_live w (Account.transactions a))
  /\ (forall (r1 r2 : account_ref) (a1 a2 : Account.t) (i j : nat)
             (x : tx_ref),
        account_heap w !! r1 = Some a1 ->
        account_heap w !! r2 = Some a2 ->
        Account.transactions a1 !! i = Some x ->
        Account.transactions a2 !! j = Some x ->
        r1 = r2 /\ i = j).

(** * Worlds of the examples *)

(** ** Two interpreters *)

(** The attributes every instance has from [object] in CPython 3.11. *)
Definition object_attrs_311 : list string :=
  ["__class__"; "__delattr__"; "__dir__"; "__doc__"; "__eq__"; "__format__";
   "__ge__"; "__getattribute__"; "__getstate__"; "__gt__"; "__hash__";
   "__init__"; "__init_subclass__"; "__le__"; "__lt__"; "__ne__"; "__new__";
   "__reduce__"; "__reduce_ex__"; "__repr__"; "__setattr__"; "__sizeof__";
   "__str__"; "__subclasshook__"].

(** The powers the examples need: 1.01 to the power 1, 2.0 to the power -11
    and 2.0 to the power 1200, which is beyond the largest float.  (No
    example raises to another power: elsewhere the table has nan.) *)
Definition demo_pow (x y : float) : outcome float :=
  if (x =? 1.01)%float && (y =? 1)%float then Ok 1.01%float
  else if (x =? 2)%float && (y =? -11)%float then Ok 0.00048828125%float
  else if (x =? 2)%float && (y =? 1200)%float then Raise OverflowError
  else Ok nan.

(** An interpreter whose [sum] adds from left to right, and one whose
    [sum] compensates. *)
Definition python311 : interpreter :=
  mk_interpreter object_attrs_311 false demo_pow.

Definition python312 : interpreter :=
  mk_interpreter object_attrs_311 true demo_pow.

(** ** The session of [exemplo.py] *)

(** The session of [exemplo.py], in a world whose clock advances by one
    microsecond at each reading. *)
Definition demo_clock (i : nat) : datetime :=
  mk_datetime 2024 1 1 0 0 0 (Z.of_nat i).

Definition initial_world : World := mk_World demo_clock 0 [] [] [] [].

Definition exemplo : M (client_ref * account_ref * investment_ref) :=
  cliente ← Client_init "Alice";
  conta ← add_account cliente "Conta Corrente";
  add_transaction conta 500 1 "Deposito";;
  add_transaction conta (-200) 2 "Compra";;
  investimento ← Investment_init "Fundo" 1000 0.01 cliente;
  add_investment cliente investimento;;
  mret (cliente, conta, investimento).

Definition demo_world : World := (exemplo initial_world).2.

(** The account, the investment and the client of the session, as the
    store holds them. *)
Definition demo_account : Account.t :=
  Account.mk "Conta Corrente" 300 [0; 1]%nat.

Definition demo_investment : Investment.t :=
  Investment.mk "Fundo" 1000 (demo_clock 2) 0.01 0%nat.

Definition demo_client : Client.t := Client.mk "Alice" [0%nat] [0%nat].

(** The same session after the investment has been sold into the account. *)
Definition sold_world : World := (sell python311 0%nat 0%nat demo_world).2.

(** The account of the session once the sale has been credited. *)
Definition sold_account : Account.t :=
  Account.mk "Conta Corrente" 1300 [0; 1; 2]%nat.

(** The calls of [exemplo.py] followed by the sale of the investment. *)
Definition exemplo_sale_calls : list call :=
  [ Call_Client_init "Alice";
    Call_add_account 0%nat "Conta Corrente";
    Call_add_transaction 0%nat 500 1 "Deposito";
    Call_add_transaction 0%nat (-200) 2 "Compra";
    Call_Investment_init "Fundo" 1000 0.01 0%nat;
    Call_add_investment 0%nat 0%nat;
    Call_sell 0%nat 0%nat ].

(** The same calls, followed by a correction of the first amount. *)
Definition exemplo_calls : list call :=
  (exemplo_sale_calls ++ [Call_update 0%nat [("amount", VFloat 450)]])%list.

(** The deposit of the session as it is stored, and a mapping that corrects
    its amount and names an attribute it does not have. *)
Definition demo_deposit : Transaction.t :=
  Transaction.mk (VFloat 500) (VDate (demo_clock 0)) (VInt 1)
                 (VStr "Deposito") ∅.

Definition demo_patch : list (string * value) :=
  [("amount", VFloat 750); ("note", VStr "x")].

(** The same store, read one calendar month later. *)
Definition a_month_later (w : World) : World :=
  mk_World
    (λ i, let d := clock w i in
          mk_datetime (year d) (month d + 1) (day d)
                      (hour d) (minute d) (second d) (microsecond d))
    (ticks w) (transaction_heap w) (account_heap w)
    (investment_heap w) (client_heap w).

(** The session with the date of the deposit overwritten by a text. *)
Definition misdated_world : World :=
  (update python311 0%nat [("date", VStr "ontem")] demo_world).2.

(** The session after [update(update=1)] on the deposit. *)
Definition shadowed_world : World :=
  (call_update python311 0%nat [("update", VInt 1)] demo_world).2.

(** ** Further stores *)

(** A store with an investment that loses everything each month, bought in
    May, and a clock that reads January. *)
Definition wound_back_world : World :=
  mk_World demo_clock 0 []
    [Account.mk "Conta" 0 []]
    [Investment.mk "Perda" 1000 (mk_datetime 2024 5 1 0 0 0 0) (-1) 0%nat]
    [].


(** A client with two accounts, at balances 1e16 and 1.0, and no
    investment. *)
Definition two_accounts_world : World :=
  mk_World demo_clock 0 []
    [Account.mk "A" 1e16 []; Account.mk "B" 1 []]
    []
    [Client.mk "Alice" [0; 1]%nat []].

(** An investment that doubles every month, bought in January 1924 and
    valued in January 2024, 1200 months later. *)
Definition century_world : World :=
  mk_World demo_clock 0 [] []
    [Investment.mk "Dobro" 1000 (mk_datetime 1924 1 1 0 0 0 0) 1 0%nat]
    [].

(** The same kind of investment bought on 1 December 2024 and valued at
    midnight of New Year's Eve: the clock reads the last microsecond of
    2024, then the first of 2025. *)
Definition new_year_clock (i : nat) : datetime :=
  match i with
  | O => mk_datetime 2024 12 31 23 59 59 999999
  | S _ => mk_datetime 2025 1 1 0 0 0 (Z.of_nat i)
  end.

Definition new_year_world : World :=
  mk_World new_year_clock 0 [] []
    [Investment.mk "Dobro" 1000 (mk_datetime 2024 12 1 0 0 0 0) 1 0%nat]
    [].

(** An investment of 0.1 that earns nothing, and an empty account. *)
Definition dime_world : World :=
  mk_World demo_clock 0 []
    [Account.mk "Conta" 0 []]
    [Investment.mk "Moeda" 0.1 (demo_clock 0) 0 0%nat]
    [].

(** A clock that is set back by an hour after its first reading (as when
    daylight saving time ends), and a store with one empty account. *)
Definition set_back_clock (i : nat) : datetime :=
  match i with
  | O => mk_datetime 2024 2 17 23 30 0 0
  | S _ => mk_datetime 2024 2 17 22 30 0 (Z.of_nat i)
  end.

Definition set_back_world : World :=
  mk_World set_back_clock 0 [] [Account.mk "Conta" 0 []] [] [].
(** * Properties *)

(** ** Running computations *)

Lemma bind_run {A B} (m : M A) (k : A -> M B) (w : World) :
  (m ≫= k) w =
  match m w with
  | (Ok a, w') => k a w'
  | (Raise e, w') => (Raise e, w')
  end.
Proof. reflexivity. Qed.

Lemma bind_ok {A B} (m : M A) (k : A -> M B) (w w' : World) (a : A) :
  m w = (Ok a, w') -> (m ≫= k) w = k a w'.
Proof. intros H. rewrite bind_run, H. reflexivity. Qed.

Lemma lookup_new {A} (l : list A) (x : A) :
  ((l ++ [x])%list : list A) !! length l = Some x.
Proof. rewrite lookup_app_r by lia. rewrite Nat.sub_diag. reflexivity. Qed.

Lemma deref_ok {A} (heap : World -> list A) (r : nat) (w : World) (x : A) :
  heap w !! r = Some x -> deref heap r w = (Ok x, w).
Proof. intros H. unfold deref. rewrite H. reflexivity. Qed.

(** Unfolds the plumbing of [M] so that a computation applied to a world
    reduces as far as the store lookups allow. *)
Ltac run_m :=
  cbv [mbind M_bind mret M_ret raise lift deref datetime_now
       get_transaction get_account get_investment get_client
       put_transaction put_account put_client
       new_transaction new_account new_investment new_client];
  cbn [fst snd clock ticks transaction_heap account_heap investment_heap
       client_heap set_ticks set_transaction_heap set_account_heap
       set_investment_heap set_client_heap
       Account.name Account.balance Account.transactions
       Client.name Client.accounts Client.investments
       Investment.type Investment.initial_amount Investment.date_purchased
       Investment.rate_of_return Investment.client
       Transaction.amount Transaction.date Transaction.category
       Transaction.description Transaction.extra].

(** Ledgers of concrete worlds: every entry is dated, every entry is live. *)
Ltac all_dated :=
  repeat (apply List.Forall_cons; [eexists _, _; split; reflexivity |]);
  apply List.Forall_nil.

Ltac all_is_Some :=
  repeat (apply List.Forall_cons; [eexists; reflexivity |]);
  apply List.Forall_nil.

Lemma add_transaction_run (self : account_ref) (a : Account.t)
    (amount : float) (category : Z) (description : string) (w : World) :
  account_heap w !! self = Some a ->
  add_transaction self amount category description w =
  (Ok (length (transaction_heap w)),
   credited self a amount category description w).
Proof.
  intros Ha.
  assert (Hlt : (self < length (account_heap w))%nat)
    by (eapply lookup_lt_Some; eassumption).
  unfold add_transaction, Transaction_init, credited. run_m.
  rewrite Ha. run_m.
  rewrite list_lookup_insert_eq by assumption. run_m.
  rewrite list_insert_insert_eq. reflexivity.
Qed.

(** ** The balance of an account *)

Lemma all_live_credited (w : World) (self : account_ref) (a : Account.t)
    (amount : float) (category : Z) (description : string) :
  all_live w (Account.transactions a) ->
  all_live (credited self a amount category description w)
           (Account.transactions a ++ [length (transaction_heap w)]).
Proof.
  intros Hlive. unfold all_live, credited. cbn [transaction_heap].
  apply Forall_app. split.
  - eapply Forall_impl; [exact Hlive |].
    intros r [t Ht]. exists t. apply lookup_app_l_Some. exact Ht.
  - constructor; [| constructor]. rewrite lookup_new. eauto.
Qed.

Lemma ledger_amounts_credited (w : World) (self : account_ref) (a : Account.t)
    (amount : float) (category : Z) (description : string) :
  all_live w (Account.transactions a) ->
  ledger_amounts (credited self a amount category description w)
    (Account.mk (Account.name a) (Account.balance a + amount)%float
       (Account.transactions a ++ [length (transaction_heap w)]))
  = (ledger_amounts w a ++ [Some (VFloat amount)])%list.
Proof.
  intros Hlive. unfold ledger_amounts, credited.
  cbn [transaction_heap Account.transactions].
  rewrite map_app. cbn [map]. rewrite lookup_new.
  cbn [fmap option_fmap option_map Transaction.amount].
  f_equal. apply map_ext_in. intros r Hr.
  unfold all_live in Hlive. rewrite Forall_forall in Hlive.
  destruct (Hlive r) as [t Ht]; [apply list_elem_of_In; exact Hr |].
  rewrite (lookup_app_l_Some _ _ _ _ Ht), Ht. reflexivity.
Qed.

Lemma Account_init_run (name : string) (w : World) :
  Account_init name w =
  (Ok (length (account_heap w)),
   set_account_heap (account_heap w ++ [Account.mk name 0 []]) w).
Proof. reflexivity. Qed.

Lemma add_account_run (self : client_ref) (c : Client.t) (name : string)
    (w : World) :
  client_heap w !! self = Some c ->
  add_account self name w =
  (Ok (length (account_heap w)),
   set_client_heap
     (<[self := Client.mk (Client.name c)
                  (Client.accounts c ++ [length (account_heap w)])
                  (Client.investments c)]> (client_heap w))
     (set_account_heap (account_heap w ++ [Account.mk name 0 []]) w)).
Proof.
  intros Hc. unfold add_account, Account_init. run_m. rewrite Hc. reflexivity.
Qed.


(** ** Retrieval *)

(** A comprehension whose condition neither raises nor changes the world
    is a plain filter. *)
Lemma filter_m_pure {A} (p : A -> M bool) (q : A -> bool) (w : World) :
  forall l : list A,
    Forall (λ x, p x w = (Ok (q x), w)) l ->
    filter_m p l w = (Ok (List.filter q l), w).
Proof.
  induction l as [| x l IH]; intros Hall.
  - reflexivity.
  - inversion Hall as [| ? ? Hx Hrest]; subst.
    cbn [filter_m List.filter]. rewrite bind_run, Hx.
    rewrite bind_run, (IH Hrest). reflexivity.
Qed.

Lemma category_test_run (w : World) (c : Z) (r : tx_ref) :
  is_Some (transaction_heap w !! r) ->
  (t ← get_transaction r; lift (Ok (py_eq_int (Transaction.category t) c))) w
  = (Ok (has_category w c r), w).
Proof.
  intros [t Ht]. unfold has_category. run_m. rewrite Ht. reflexivity.
Qed.

(** C8. Without filter arguments [get_transactions] returns the whole
    ledger in insertion order and leaves the world as it found it: balance,
    ledger and every stored transaction are what they were. *)
Theorem get_transactions_no_filter
    (w : World) (self : account_ref) (a : Account.t) :
  account_heap w !! self = Some a ->
  get_transactions self None None None w = (Ok (Account.transactions a), w).
Proof.
  intros Ha. unfold get_transactions, filter_if. run_m. rewrite Ha.
  reflexivity.
Qed.

(** A category other than 0 selects the transactions of that category, in
    ledger order, and changes nothing. *)
Lemma get_transactions_category_nonzero
    (w : World) (self : account_ref) (a : Account.t) (c : Z) :
  account_heap w !! self = Some a ->
  all_live w (Account.transactions a) ->
  c <> 0 ->
  get_transactions self None None (Some c) w =
  (Ok (List.filter (has_category w c) (Account.transactions a)), w).
Proof.
  intros Ha Hlive Hc. unfold get_transactions.
  rewrite (bind_ok _ _ _ _ _ (deref_ok account_heap self w a Ha)).
  cbn [filter_if py_bool].
  destruct (Z.eqb_spec c 0) as [? | _]; [contradiction |]. cbn [negb].
  rewrite bind_run. cbn [mret M_ret]. rewrite bind_run. cbn [mret M_ret].
  rewrite bind_run.
  rewrite (filter_m_pure _ (has_category w c)); [reflexivity |].
  eapply Forall_impl; [exact Hlive |].
  intros r Hr. apply category_test_run. exact Hr.
Qed.

(** Category 0 is false as a condition, so the category step is skipped and
    the whole ledger comes back. *)
Lemma get_transactions_category_zero
    (w : World) (self : account_ref) (a : Account.t) :
  account_heap w !! self = Some a ->
  get_transactions self None None (Some 0) w = (Ok (Account.transactions a), w).
Proof.
  intros Ha. unfold get_transactions, filter_if. run_m. rewrite Ha.
  reflexivity.
Qed.

(** C4, at category 0.  After the sale of [exemplo.py]'s investment the
    account holds a deposit (category 1), a purchase (category 2) and the
    sale (category 0); asking for category 0 returns all three, where the
    subsequence of category 0 is the sale alone. *)
Theorem get_transactions_category_zero_returns_all :
  Account.transactions <$> account_heap sold_world !! 0%nat = Some [0; 1; 2]%nat
  /\ Transaction.category <$> transaction_heap sold_world !! 0%nat = Some (VInt 1)
  /\ Transaction.category <$> transaction_heap sold_world !! 1%nat = Some (VInt 2)
  /\ Transaction.category <$> transaction_heap sold_world !! 2%nat = Some (VInt 0)
  /\ (get_transactions 0%nat None None (Some 0) sold_world).1 = Ok [0; 1; 2]%nat
  /\ List.filter (has_category sold_world 0) [0; 1; 2]%nat = [2]%nat.
Proof. vm_compute. repeat split. Qed.

(** ** Floats *)

(** A float is nan, a zero, an infinity, or a finite number with a
    mantissa and an exponent within the bounds of binary64. *)
Lemma float_cases (x : float) :
  Prim2SF x = S754_nan
  \/ (exists s : bool, Prim2SF x = S754_zero s)
  \/ (exists s : bool, Prim2SF x = S754_infinity s)
  \/ (exists (s : bool) (m : positive) (e : Z),
        Prim2SF x = S754_finite s m e /\ bounded prec emax m e = true).
Proof.
  pose proof (Prim2SF_valid x) as Hv.
  destruct (Prim2SF x) as [s | s | | s m e]; eauto 10.
Qed.

Lemma shifted_mantissa (m : positive) :
  (4503599627370496 * m)%positive = Pos.iter xO m 52.
Proof. reflexivity. Qed.

(** Multiplying by 1.0 changes no float. *)
Lemma float_mul_1_r (x : float) : (x * 1)%float = x.
Proof.
  apply Prim2SF_inj. rewrite mul_spec.
  change (Prim2SF 1) with (S754_finite false 4503599627370496 (-52)).
  destruct (float_cases x) as [-> | [[s ->] | [[s ->] | (s & m & e & -> & Hb)]]].
  - reflexivity.
  - destruct s; reflexivity.
  - destruct s; reflexivity.
  - unfold SF64mul, SFmul.
    replace (xorb s false) with s by (destruct s; reflexivity).
    rewrite Pos.mul_comm, shifted_mantissa.
    unfold bounded, canonical_mantissa in Hb.
    apply andb_prop in Hb as [Hc He]. apply Z.eqb_eq in Hc.
    unfold binary_round_aux, shr_fexp.
    cbn [Pos.iter Zdigits2 digits2_pos].
    match goal with |- context [fexp prec emax ?a] =>
      replace a with (Z.pos (digits2_pos m) + e) by lia
    end.
    rewrite Hc. replace (e - (e + -52)) with 52 by lia.
    cbn [shr shr_record_of_loc SpecFloat.iter_pos shr_1 shr_m shr_r shr_s
         orb loc_of_shr_record round_nearest_even Zdigits2].
    replace (e + -52 + 52) with e by lia.
    rewrite Hc, Z.sub_diag. cbn [shr shr_m]. rewrite He. reflexivity.
Qed.

Section WithInterpreter.

Variable py : interpreter.

(** ** Valuation *)

(** Any float to the power 0 is 1.0. *)
Lemma py_pow_zero (base : float) : py_pow py base 0 = Ok 1%float.
Proof. reflexivity. Qed.

(** 0.0 to a negative power raises [ZeroDivisionError]. *)
Lemma py_pow_zero_division (base : float) (exponent : Z) :
  (base =? 0)%float = true -> exponent < 0 ->
  py_pow py base exponent = Raise ZeroDivisionError.
Proof.
  intros Hb He. unfold py_pow.
  destruct (Z.eqb_spec exponent 0) as [-> | _]; [lia |].
  rewrite Hb. destruct (Z.ltb_spec exponent 0) as [_ | ?]; [reflexivity | lia].
Qed.

(** [calculate_value] reads the clock twice, then returns the product or
    raises what the power raises. *)
Lemma calculate_value_run (w : World) (self : investment_ref)
    (i : Investment.t) :
  investment_heap w !! self = Some i ->
  calculate_value py self w =
  (value_at py (clock w) (ticks w) i, set_ticks (S (S (ticks w))) w).
Proof.
  intros Hi. unfold calculate_value, value_at. run_m. rewrite Hi. run_m.
  destruct (py_pow py _ _); reflexivity.
Qed.

(** C3, as the code has it.  When the year does not change between the two
    readings of the clock that [calculate_value] makes, so that the second
    reading is one current date for the whole call, the method evaluates
    [initial_amount * (1 + rate_of_return) ** months] in float arithmetic,
    where [months] is (current year - purchase year) * 12 + (current month
    - purchase month): it returns that float, or raises what the power
    raises.  Only the year and the month of the two dates enter the count.
    The call consumes the two readings and changes nothing else in the
    world, the investment included. *)
Theorem calculate_value_formula
    (w : World) (self : investment_ref) (i : Investment.t) :
  let purchased := Investment.date_purchased i in
  let now := clock w (S (ticks w)) in
  let months := (year now - year purchased) * 12
                + (month now - month purchased) in
  investment_heap w !! self = Some i ->
  year (clock w (ticks w)) = year now ->
  calculate_value py self w =
  (match py_pow py (1 + Investment.rate_of_return i) months with
   | Ok growth => Ok (Investment.initial_amount i * growth)%float
   | Raise e => Raise e
   end,
   set_ticks (S (S (ticks w))) w).
Proof.
  intros purchased now months Hi Hyear.
  rewrite (calculate_value_run w self i Hi).
  unfold value_at, months_elapsed. rewrite Hyear. reflexivity.
Qed.

(** Within the calendar month of the purchase nothing has accrued: the
    value is the amount invested, to the last bit. *)
Lemma calculate_value_same_month
    (w : World) (self : investment_ref) (i : Investment.t) :
  investment_heap w !! self = Some i ->
  year (clock w (ticks w)) = year (Investment.date_purchased i) ->
  month (clock w (S (ticks w))) = month (Investment.date_purchased i) ->
  calculate_value py self w
  = (Ok (Investment.initial_amount i), set_ticks (S (S (ticks w))) w).
Proof.
  intros Hi Hy Hm. rewrite (calculate_value_run w self i Hi).
  unfold value_at, months_elapsed. rewrite Hy, Hm, !Z.sub_diag.
  cbn [Z.mul Z.add]. rewrite py_pow_zero, float_mul_1_r. reflexivity.
Qed.

Lemma calculate_value_inv (w w1 : World) (self : investment_ref) (V : float) :
  calculate_value py self w = (Ok V, w1) ->
  w1 = set_ticks (S (S (ticks w))) w
  /\ exists i : Investment.t,
       investment_heap w !! self = Some i
       /\ value_at py (clock w) (ticks w) i = Ok V.
Proof.
  intros H.
  destruct (investment_heap w !! self) as [i |] eqn:Hi.
  - rewrite (calculate_value_run w self i Hi) in H.
    injection H as Hv Hw. split; [symmetry; exact Hw |].
    exists i. split; [reflexivity | exact Hv].
  - unfold calculate_value in H. revert H. run_m. rewrite Hi. discriminate.
Qed.

(** ** Selling *)

Lemma sell_run (w w1 : World) (self : investment_ref) (account : account_ref)
    (i : Investment.t) (a : Account.t) (V : float) :
  investment_heap w !! self = Some i ->
  account_heap w !! account = Some a ->
  calculate_value py self w = (Ok V, w1) ->
  sell py self account w =
  (Ok tt, credited account a V 0 ("Venda de " +:+ Investment.type i) w1).
Proof.
  intros Hi Ha Hv.
  destruct (calculate_value_inv _ _ _ _ Hv) as [-> _].
  unfold sell. rewrite (bind_ok _ _ _ _ _ Hv).
  rewrite (bind_ok _ _ _ _ _
             (deref_ok investment_heap self (set_ticks _ w) i Hi)).
  rewrite (bind_ok _ _ _ _ _
             (add_transaction_run account a V 0 _ (set_ticks _ w) Ha)).
  reflexivity.
Qed.

(** C5. With [B] the balance of the target account before the call and
    [V] the value [calculate_value] returns at the call, [sell] leaves the
    balance at [B + V] and appends to the ledger one new transaction, of
    amount [V] and category 0 (the transactions already stored stay as
    they are). *)
Theorem sell_credits_value
    (w w1 : World) (self : investment_ref) (account : account_ref)
    (a : Account.t) (V : float) :
  account_heap w !! account = Some a ->
  calculate_value py self w = (Ok V, w1) ->
  exists (w' : World) (t : Transaction.t),
    sell py self account w = (Ok tt, w')
    /\ account_heap w' !! account =
       Some (Account.mk (Account.name a) (Account.balance a + V)%float
               (Account.transactions a ++ [length (transaction_heap w)]))
    /\ transaction_heap w' = (transaction_heap w ++ [t])%list
    /\ Transaction.amount t = VFloat V
    /\ Transaction.category t = VInt 0.
Proof.
  intros Ha Hv.
  destruct (calculate_value_inv _ _ _ _ Hv) as [Hw1 (i & Hi & _)].
  eexists _, _. split; [exact (sell_run _ _ _ _ _ _ _ Hi Ha Hv) |].
  subst w1. unfold credited. cbn.
  split; [| repeat split].
  apply list_lookup_insert_eq. eapply lookup_lt_Some. exact Ha.
Qed.

(** C6, as the code has it.  The transaction [sell] creates is described
    by the text "Venda de " followed by the type of the investment. *)
Theorem sell_description
    (w w1 : World) (self : investment_ref) (account : account_ref)
    (i : Investment.t) (a : Account.t) (V : float) :
  investment_heap w !! self = Some i ->
  account_heap w !! account = Some a ->
  calculate_value py self w = (Ok V, w1) ->
  exists w' : World,
    sell py self account w = (Ok tt, w')
    /\ Transaction.description <$>
         transaction_heap w' !! length (transaction_heap w)
       = Some (VStr ("Venda de " +:+ Investment.type i)).
Proof.
  intros Hi Ha Hv.
  destruct (calculate_value_inv _ _ _ _ Hv) as [Hw1 _].
  eexists. split; [exact (sell_run _ _ _ _ _ _ _ Hi Ha Hv) |].
  subst w1. unfold credited. cbn [transaction_heap set_ticks].
  rewrite lookup_new. reflexivity.
Qed.

(** C6, with the text of the specification, fails: selling the investment
    of type "Fundo" of [exemplo.py] does not produce the description
    "Sale of Fundo". *)
Lemma sell_description_is_not_sale_of :
  Investment.type <$> investment_heap demo_world !! 0%nat = Some "Fundo"
  /\ (sell python311 0%nat 0%nat demo_world).1 = Ok tt
  /\ Transaction.description <$>
       transaction_heap (sell python311 0%nat 0%nat demo_world).2
         !! length (transaction_heap demo_world)
     <> Some (VStr ("Sale of " +:+ "Fundo")).
Proof. vm_compute. repeat split. discriminate. Qed.

Lemma calculate_value_frame (self : investment_ref) (w : World) :
  let w' := (calculate_value py self w).2 in
  transaction_heap w' = transaction_heap w
  /\ account_heap w' = account_heap w
  /\ investment_heap w' = investment_heap w
  /\ client_heap w' = client_heap w.
Proof.
  unfold calculate_value. run_m.
  destruct (investment_heap w !! self) as [i |]; run_m;
    [destruct (py_pow py _ _) |]; cbn; repeat split.
Qed.

Lemma add_transaction_frame (self : account_ref)
    (amount : float) (category : Z) (description : string) (w : World) :
  let w' := (add_transaction self amount category description w).2 in
  investment_heap w' = investment_heap w /\ client_heap w' = client_heap w.
Proof.
  unfold add_transaction, Transaction_init. run_m.
  destruct (account_heap w !! self) as [a |]; run_m; [| split; reflexivity].
  destruct (_ !! self); cbn; split; reflexivity.
Qed.

Lemma sell_frame (self : investment_ref) (account : account_ref) (w : World) :
  let w' := (sell py self account w).2 in
  investment_heap w' = investment_heap w /\ client_heap w' = client_heap w.
Proof.
  cbn zeta. unfold sell. rewrite bind_run.
  pose proof (calculate_value_frame self w) as Hcv. cbn zeta in Hcv.
  destruct (calculate_value py self w) as [[V | e] w1]; cbn [snd] in *;
    [| tauto].
  destruct Hcv as (_ & _ & Hinv & Hcl).
  rewrite bind_run. unfold get_investment, deref.
  destruct (investment_heap w1 !! self) as [i |]; cbn [snd]; [| tauto].
  rewrite bind_run.
  pose proof (add_transaction_frame account V 0
                ("Venda de " +:+ Investment.type i) w1) as Hadd.
  cbn zeta in Hadd.
  destruct (add_transaction account V 0 _ w1) as [[r | e] w2]; cbn [snd] in *;
    rewrite <- Hinv, <- Hcl; exact Hadd.
Qed.

Lemma added_in_turn_snoc (xs : list float) :
  forall (start x : float),
    added_in_turn start (xs ++ [x]) = (added_in_turn start xs + x)%float.
Proof.
  induction xs as [| y xs IH]; intros start x; [reflexivity |].
  cbn [app added_in_turn]. apply IH.
Qed.

Lemma sell_times_run (V : float) (self : investment_ref)
    (account : account_ref) (n : nat) :
  forall (w : World) (a : Account.t),
    account_heap w !! account = Some a ->
    value_stays py V self account n w ->
    exists (w' : World) (a' : Account.t),
      sell_times py n self account w = (Ok tt, w')
      /\ account_heap w' !! account = Some a'
      /\ Account.balance a' = added_in_turn (Account.balance a) (repeat V n).
Proof.
  induction n as [| n IH]; intros w a Ha Hstay.
  - exists w, a. split; [reflexivity | split; [exact Ha | reflexivity]].
  - destruct Hstay as [HV Hstay].
    destruct (calculate_value py self w) as [o w1] eqn:Hcv. cbn [fst] in HV.
    subst o.
    destruct (calculate_value_inv _ _ _ _ Hcv) as [Hw1 (i & Hi & _)].
    pose proof (sell_run _ _ _ _ _ _ _ Hi Ha Hcv) as Hsell.
    rewrite Hsell in Hstay. cbn [snd] in Hstay.
    assert (Hget' :
      account_heap (credited account a V 0 ("Venda de " +:+ Investment.type i) w1)
        !! account
      = Some (Account.mk (Account.name a) (Account.balance a + V)%float
                (Account.transactions a ++ [length (transaction_heap w1)]))).
    { unfold credited. cbn [account_heap]. apply list_lookup_insert_eq.
      subst w1. eapply lookup_lt_Some. exact Ha. }
    destruct (IH _ _ Hget' Hstay)
      as (w' & a' & Hrun & Hget & Hbal).
    exists w', a'. split; [| split; [exact Hget |]].
    + cbn [sell_times]. rewrite (bind_ok _ _ _ _ _ Hsell). exact Hrun.
    + rewrite Hbal. reflexivity.
Qed.

(** C7, as the code has it.  [sell] leaves every investment and every
    client of the store as it was: the investment keeps its fields and
    stays in the list of its client.  So when [sell] is called [n] times and
    [calculate_value] returns [V] at each call, every call succeeds and
    credits the account again: the balance it leaves is the balance before
    with [V] added [n] times, one float addition for each call. *)
Theorem sell_keeps_investment
    (w : World) (self : investment_ref) (account : account_ref) :
  (investment_heap (sell py self account w).2 = investment_heap w
   /\ client_heap (sell py self account w).2 = client_heap w)
  /\ (forall (a : Account.t) (n : nat) (V : float),
        account_heap w !! account = Some a ->
        value_stays py V self account n w ->
        exists (w' : World) (a' : Account.t),
          sell_times py n self account w = (Ok tt, w')
          /\ investment_heap w' = investment_heap w
          /\ client_heap w' = client_heap w
          /\ account_heap w' !! account = Some a'
          /\ Account.balance a'
             = added_in_turn (Account.balance a) (repeat V n)).
Proof.
  split; [exact (sell_frame self account w) |].
  intros a n V Ha Hstay.
  destruct (sell_times_run V self account n w a Ha Hstay)
    as (w' & a' & Hrun & Hget & Hbal).
  exists w', a'. split; [exact Hrun |].
  split; [| split; [| split; [exact Hget | exact Hbal]]].
  - clear - Hrun. revert w w' Hrun. induction n as [| n IH]; intros w w' Hrun.
    + inversion Hrun. reflexivity.
    + cbn [sell_times] in Hrun. rewrite bind_run in Hrun.
      pose proof (sell_frame self account w) as [Hf _].
      destruct (sell py self account w) as [[[] | e] w1]; [| discriminate].
      cbn [snd] in Hf. rewrite <- Hf. apply IH. exact Hrun.
  - clear - Hrun. revert w w' Hrun. induction n as [| n IH]; intros w w' Hrun.
    + inversion Hrun. reflexivity.
    + cbn [sell_times] in Hrun. rewrite bind_run in Hrun.
      pose proof (sell_frame self account w) as [_ Hf].
      destruct (sell py self account w) as [[[] | e] w1]; [| discriminate].
      cbn [snd] in Hf. rewrite <- Hf. apply IH. exact Hrun.
Qed.

(** ** Net worth *)

(** The builtin [sum] is the sum told by [sums_to]. *)
Lemma compensated_step_eq (t c x : float) :
  compensated_step (t, c) x = ((t + x)%float, (c + lost_in_adding t x)%float).
Proof.
  unfold compensated_step, lost_in_adding.
  destruct (abs x <=? abs t)%float; reflexivity.
Qed.

Lemma running_sum_plain (x0 : float) (l : list float) :
  running_sum false (x0 :: l) (fold_left PrimFloat.add l (0 + x0)%float) 0.
Proof.
  induction l as [| x l IH] using rev_ind.
  - apply running_sum_first.
  - rewrite fold_left_app. cbn [fold_left]. rewrite app_comm_cons.
    exact (running_sum_next false _ _ _ x IH).
Qed.

Lemma running_sum_compensated (x0 : float) (l : list float) :
  running_sum true (x0 :: l)
    (fold_left compensated_step l ((0 + x0)%float, 0%float)).1
    (fold_left compensated_step l ((0 + x0)%float, 0%float)).2.
Proof.
  induction l as [| x l IH] using rev_ind.
  - apply running_sum_first.
  - rewrite fold_left_app. cbn [fold_left].
    destruct (fold_left compensated_step l _) as [t c].
    rewrite compensated_step_eq, app_comm_cons.
    exact (running_sum_next true _ _ _ x IH).
Qed.

Lemma py_sum_sums_to (compensated : bool) (l : list float) :
  sums_to compensated l (py_sum compensated l).
Proof.
  destruct l as [| x0 l]; [apply sums_to_nothing |].
  unfold py_sum. change (float_of_int 0) with 0%float.
  destruct compensated.
  - pose proof (running_sum_compensated x0 l) as H.
    destruct (fold_left compensated_step l _) as [t c].
    exact (sums_to_total true _ _ _ H).
  - exact (sums_to_total false _ _ _ (running_sum_plain x0 l)).
Qed.

(** Mapping a computation that only reads the world collects its results. *)
Lemma map_m_pure {A B} (f : A -> M B) (w : World) :
  forall (l : list A) (ys : list B),
    Forall2 (λ x y, f x w = (Ok y, w)) l ys ->
    map_m f l w = (Ok ys, w).
Proof.
  induction l as [| x l IH]; intros ys Hall; inversion Hall; subst.
  - reflexivity.
  - cbn [map_m]. rewrite bind_run.
    match goal with H : f x w = _ |- _ => rewrite H end.
    rewrite bind_run. erewrite IH by eassumption. reflexivity.
Qed.

(** What [calculate_value] does to the world: it reads the clock. *)
Lemma calculate_value_ticks (self : investment_ref) (w : World) :
  exists n : nat,
    (ticks w <= n)%nat /\ (calculate_value py self w).2 = set_ticks n w.
Proof.
  unfold calculate_value. run_m.
  destruct (investment_heap w !! self) as [i |]; run_m.
  - exists (S (S (ticks w))). split; [lia |].
    destruct (py_pow py _ _); reflexivity.
  - exists (S (ticks w)). split; [lia | reflexivity].
Qed.

Lemma map_m_calculate_value_ticks (l : list investment_ref) :
  forall w : World,
    exists n : nat,
      (ticks w <= n)%nat
      /\ (map_m (calculate_value py) l w).2 = set_ticks n w.
Proof.
  induction l as [| i l IH]; intros w.
  - exists (ticks w). split; [lia |]. destruct w. reflexivity.
  - cbn [map_m]. rewrite bind_run.
    destruct (calculate_value_ticks i w) as (n & Hn & Hw).
    destruct (calculate_value py i w) as [[v | e] w1]; cbn [snd] in Hw;
      subst w1.
    + rewrite bind_run. destruct (IH (set_ticks n w)) as (m & Hm & Hw').
      cbn [ticks set_ticks] in Hm.
      destruct (map_m (calculate_value py) l (set_ticks n w)) as [[vs | e] w2];
        cbn [snd] in Hw'; subst w2;
        exists m; (split; [lia | reflexivity]).
    + exists n. split; [exact Hn | reflexivity].
Qed.

(** Mapping a computation that leaves the world alone leaves the world
    alone. *)
Lemma map_m_readonly {A B} (f : A -> M B) :
  (forall x w, (f x w).2 = w) ->
  forall (l : list A) (w : World), (map_m f l w).2 = w.
Proof.
  intros Hf. induction l as [| x l IH]; intros w; [reflexivity |].
  cbn [map_m]. rewrite bind_run. specialize (Hf x w).
  destruct (f x w) as [[y | e] w1]; cbn [snd] in Hf; subst w1; [| reflexivity].
  rewrite bind_run. specialize (IH w).
  destruct (map_m f l w) as [[ys | e] w1]; cbn [snd] in IH; subst w1;
    reflexivity.
Qed.

(** What [get_net_worth] does to the world: it reads the clock, twice for
    each investment it values, and writes nothing. *)
Lemma get_net_worth_ticks (self : client_ref) (w : World) :
  exists n : nat,
    (ticks w <= n)%nat /\ (get_net_worth py self w).2 = set_ticks n w.
Proof.
  assert (Hid : set_ticks (ticks w) w = w) by (destruct w; reflexivity).
  unfold get_net_worth. rewrite bind_run. unfold get_client, deref.
  destruct (client_heap w !! self) as [c |] eqn:Hc;
    [| exists (ticks w); split; [lia | rewrite Hid; reflexivity]].
  rewrite bind_run.
  match goal with |- context [map_m ?f (Client.accounts c) w] =>
    pose proof (map_m_readonly f) as Hro;
    specialize (Hro ltac:(intros x w0; run_m;
                          destruct (account_heap w0 !! x); reflexivity)
                    (Client.accounts c) w);
    destruct (map_m f (Client.accounts c) w) as [[balances | e] w1]
  end; cbn [snd] in Hro; subst w1;
    [| exists (ticks w); split; [lia | rewrite Hid; reflexivity]].
  rewrite bind_run, Hc. rewrite bind_run.
  destruct (map_m_calculate_value_ticks (Client.investments c) w)
    as (n & Hn & Hw).
  exists n. split; [exact Hn |].
  destruct (map_m (calculate_value py) (Client.investments c) w)
    as [[values | e] w1];
    cbn [snd] in Hw; subst w1; reflexivity.
Qed.

Lemma get_net_worth_run
    (w : World) (self : client_ref) (c : Client.t) (balances : list float) :
  client_heap w !! self = Some c ->
  Forall2 (λ r b, Account.balance <$> account_heap w !! r = Some b)
          (Client.accounts c) balances ->
  get_net_worth py self w =
  match map_m (calculate_value py) (Client.investments c) w with
  | (Ok values, w') =>
      (Ok (py_add (py_sum (compensated_sum py) balances)
                  (py_sum (compensated_sum py) values)), w')
  | (Raise e, w') => (Raise e, w')
  end.
Proof.
  intros Hc Hbal. unfold get_net_worth.
  rewrite (bind_ok _ _ _ _ _ (deref_ok client_heap self w c Hc)).
  rewrite (bind_ok (map_m _ (Client.accounts c)) _ w w balances).
  2:{ apply map_m_pure. eapply Forall2_impl; [exact Hbal |].
      intros r b Hr. cbn beta in Hr. run_m.
      destruct (account_heap w !! r) as [a |]; [| discriminate].
      inversion Hr. reflexivity. }
  rewrite (bind_ok _ _ _ _ _ (deref_ok client_heap self w c Hc)).
  rewrite bind_run.
  destruct (map_m (calculate_value py) (Client.investments c) w)
    as [[values | e] w']; reflexivity.
Qed.

(** The investments valued in turn: each call reads the clock twice, and
    the first that cannot be valued ends the round. *)
Lemma map_m_calculate_value_run (refs : list investment_ref)
    (invs : list Investment.t) :
  forall w : World,
    Forall2 (λ r i, investment_heap w !! r = Some i) refs invs ->
    (map_m (calculate_value py) refs w).1
    = values_from py (clock w) (ticks w) invs
    /\ (forall vs : list float,
          values_from py (clock w) (ticks w) invs = Ok vs ->
          (map_m (calculate_value py) refs w).2
          = set_ticks (ticks w + 2 * length refs) w).
Proof.
  revert invs. induction refs as [| r refs IH]; intros invs w Hlive;
    inversion Hlive as [| ? i ? invs' Hr Hrest]; subst.
  - split; [reflexivity |]. intros vs _. cbn. rewrite Nat.add_0_r.
    destruct w. reflexivity.
  - cbn [map_m values_from]. rewrite bind_run.
    rewrite (calculate_value_run w r i Hr).
    destruct (value_at py (clock w) (ticks w) i) as [v | e];
      [| split; [reflexivity | discriminate]].
    rewrite bind_run.
    destruct (IH invs' (set_ticks (S (S (ticks w))) w) Hrest) as [Hv Hw].
    cbn [clock ticks set_ticks] in Hv, Hw.
    destruct (map_m (calculate_value py) refs (set_ticks (S (S (ticks w))) w))
      as [[vs | e] w2]; cbn [fst snd] in Hv, Hw; rewrite <- Hv.
    + split; [reflexivity |]. intros vs' _. cbn [mret M_ret snd].
      rewrite (Hw vs (eq_sym Hv)). cbn [length set_ticks clock ticks
        transaction_heap account_heap investment_heap client_heap].
      replace (ticks w + 2 * S (length refs))%nat
        with (S (S (ticks w)) + 2 * length refs)%nat by lia.
      reflexivity.
    + split; [reflexivity | discriminate].
Qed.

(** The net worth written out: balances as stored, investments valued by
    the months elapsed at the successive readings of the clock. *)
Lemma get_net_worth_explicit
    (w : World) (self : client_ref) (c : Client.t)
    (balances : list float) (invs : list Investment.t) :
  client_heap w !! self = Some c ->
  Forall2 (λ r b, Account.balance <$> account_heap w !! r = Some b)
          (Client.accounts c) balances ->
  Forall2 (λ r i, investment_heap w !! r = Some i) (Client.investments c) invs ->
  (get_net_worth py self w).1
  = match values_from py (clock w) (ticks w) invs with
    | Ok values =>
        Ok (py_add (py_sum (compensated_sum py) balances)
                   (py_sum (compensated_sum py) values))
    | Raise e => Raise e
    end.
Proof.
  intros Hc Hbal Hinv.
  rewrite (get_net_worth_run w self c balances Hc Hbal).
  destruct (map_m_calculate_value_run _ invs w Hinv) as [Hv _].
  rewrite <- Hv.
  destruct (map_m (calculate_value py) (Client.investments c) w)
    as [[values | e] w']; reflexivity.
Qed.

(** C2, as the code has it.  [get_net_worth] returns the builtin [sum] of
    the balances that the accounts of the client have in the store when it
    is called, plus the builtin [sum] of what [calculate_value] returns for
    each investment of the client, valued in turn at that moment; it raises
    what the first failing valuation raises.  The two sums and their
    addition are float arithmetic ([sums_to]): each addition is rounded.
    Nothing but the world of the call enters the result, and the call
    writes nothing to the store (it only reads the clock): there is no
    cached total to keep or to invalidate. *)
Theorem get_net_worth_is_sum
    (w : World) (self : client_ref) (c : Client.t)
    (balances : list float) (invs : list Investment.t) :
  client_heap w !! self = Some c ->
  Forall2 (λ r b, Account.balance <$> account_heap w !! r = Some b)
          (Client.accounts c) balances ->
  Forall2 (λ r i, investment_heap w !! r = Some i) (Client.investments c) invs ->
  (exists n : nat, (get_net_worth py self w).2 = set_ticks n w)
  /\ match values_from py (clock w) (ticks w) invs with
     | Ok values =>
         exists total_balance total_value : number,
           sums_to (compensated_sum py) balances total_balance
           /\ sums_to (compensated_sum py) values total_value
           /\ (get_net_worth py self w).1
              = Ok (py_add total_balance total_value)
     | Raise e => (get_net_worth py self w).1 = Raise e
     end.
Proof.
  intros Hc Hbal Hinv. split.
  - destruct (get_net_worth_ticks self w) as (n & _ & Hn). exists n. exact Hn.
  - rewrite (get_net_worth_explicit w self c balances invs Hc Hbal Hinv).
    destruct (values_from py (clock w) (ticks w) invs) as [values | e];
      [| reflexivity].
    eexists _, _. split; [apply py_sum_sums_to |].
    split; [apply py_sum_sums_to | reflexivity].
Qed.
(** ** Updating a transaction *)

Lemma hasattr_field (t : Transaction.t) (key : string) :
  key ∈ instance_fields -> hasattr py t key = true.
Proof.
  intros Hk. unfold hasattr.
  assert (Hsome : is_Some (instance_attr t key)).
  { unfold instance_fields in Hk. unfold instance_attr.
    repeat (apply elem_of_cons in Hk as [-> | Hk]; [cbn; eauto |]).
    inversion Hk. }
  rewrite (bool_decide_eq_true_2 _ Hsome). reflexivity.
Qed.

Lemma instance_attr_other (t : Transaction.t) (key : string) :
  key ∉ instance_fields ->
  instance_attr t key = Transaction.extra t !! key.
Proof.
  intros Hk. unfold instance_attr.
  repeat match goal with
  | |- context [String.eqb key ?s] =>
      destruct (String.eqb_spec key s) as [-> | _];
      [exfalso; apply Hk; unfold instance_fields; set_solver |]
  end.
  reflexivity.
Qed.

Lemma hasattr_same_extra (t t' : Transaction.t) (key : string) :
  Transaction.extra t' = Transaction.extra t ->
  hasattr py t' key = hasattr py t key.
Proof.
  intros Hx.
  destruct (decide (key ∈ instance_fields)) as [Hk | Hk].
  - rewrite !hasattr_field by assumption. reflexivity.
  - unfold hasattr. rewrite !instance_attr_other by assumption.
    rewrite Hx. reflexivity.
Qed.

Lemma setattr_field (t : Transaction.t) (key : string) (v : value) :
  key ∈ instance_fields ->
  exists t' : Transaction.t,
    setattr t key v = Ok t'
    /\ Transaction.extra t' = Transaction.extra t
    /\ instance_attr t' key = Some v
    /\ forall k, k <> key -> instance_attr t' k = instance_attr t k.
Proof.
  intros Hk. destruct t as [a d c s x]. unfold instance_fields in Hk.
  repeat (apply elem_of_cons in Hk as [-> | Hk];
          [eexists; split; [reflexivity |];
           split; [reflexivity |]; split; [reflexivity |];
           intros k Hne; unfold instance_attr;
           repeat match goal with
           | |- context [String.eqb k ?s] =>
               destruct (String.eqb_spec k s) as [-> | ?]
           end; cbn; congruence |]).
  inversion Hk.
Qed.

Lemma set_transaction_heap_id (w : World) (self : tx_ref) (t : Transaction.t) :
  transaction_heap w !! self = Some t ->
  set_transaction_heap (<[self := t]> (transaction_heap w)) w = w.
Proof.
  intros Ht. rewrite list_insert_id by exact Ht. destruct w. reflexivity.
Qed.

Lemma update_loop (self : tx_ref) :
  forall (attributes : list (string * value)) (t : Transaction.t) (w : World),
    transaction_heap w !! self = Some t ->
    NoDup attributes.*1 ->
    (forall k, k ∈ attributes.*1 ->
               k ∈ instance_fields \/ hasattr py t k = false) ->
    exists t' : Transaction.t,
      for_each attributes (λ '(key, value),
        t ← get_transaction self;
        if hasattr py t key
        then t' ← lift (setattr t key value); put_transaction self t'
        else mret tt) w
      = (Ok tt, set_transaction_heap (<[self := t']> (transaction_heap w)) w)
      /\ Transaction.extra t' = Transaction.extra t
      /\ (forall k v, (k, v) ∈ attributes -> k ∈ instance_fields ->
                      instance_attr t' k = Some v)
      /\ (forall k, k ∉ attributes.*1 -> instance_attr t' k = instance_attr t k).
Proof.
  induction attributes as [| [key v] rest IH]; intros t w Ht Hnd Hkeys.
  - exists t. split; [| split; [reflexivity | split]].
    + rewrite set_transaction_heap_id by exact Ht. reflexivity.
    + intros k v Hin. inversion Hin.
    + reflexivity.
  - cbn [fmap list_fmap fst] in Hnd, Hkeys.
    apply NoDup_cons in Hnd as [Hfresh Hnd].
    assert (Hlt : (self < length (transaction_heap w))%nat)
      by (eapply lookup_lt_Some; exact Ht).
    cbn [for_each].
    match goal with |- context [for_each rest ?b] => set (body := b) end.
    rewrite bind_run.
    rewrite (bind_ok _ _ _ _ _ (deref_ok transaction_heap self w t Ht)).
    destruct (Hkeys key ltac:(left)) as [Hfield | Hnone].
    + rewrite hasattr_field by exact Hfield.
      destruct (setattr_field t key v Hfield) as (t1 & Hset & Hx1 & Hk1 & Ho1).
      rewrite Hset. run_m.
      destruct (IH t1 (set_transaction_heap
                         (<[self := t1]> (transaction_heap w)) w))
        as (t' & Hrun & Hx & Hset' & Hkeep').
      { cbn. apply list_lookup_insert_eq. exact Hlt. }
      { exact Hnd. }
      { intros k Hk. destruct (Hkeys k ltac:(right; exact Hk)) as [? | Hno];
          [left; assumption | right].
        rewrite (hasattr_same_extra t t1 k Hx1). exact Hno. }
      exists t'. split; [| split; [congruence | split]].
      * subst body. rewrite Hrun. cbn [transaction_heap set_transaction_heap].
        rewrite list_insert_insert_eq. destruct w. reflexivity.
      * intros k v' Hin Hkf. apply elem_of_cons in Hin as [Heq | Hin].
        -- inversion Heq; subst. rewrite Hkeep' by exact Hfresh. exact Hk1.
        -- eapply Hset'; eassumption.
      * intros k Hk. apply not_elem_of_cons in Hk as [Hne Hk].
        rewrite Hkeep' by exact Hk. apply Ho1. exact Hne.
    + rewrite Hnone. run_m.
      destruct (IH t w Ht Hnd) as (t' & Hrun & Hx & Hset' & Hkeep').
      { intros k Hk. apply Hkeys. right. exact Hk. }
      exists t'. split; [exact Hrun | split; [exact Hx | split]].
      * intros k v' Hin Hkf. apply elem_of_cons in Hin as [Heq | Hin].
        -- inversion Heq; subst.
           rewrite hasattr_field in Hnone by exact Hkf. discriminate.
        -- eapply Hset'; eassumption.
      * intros k Hk. apply not_elem_of_cons in Hk as [_ Hk].
        apply Hkeep'. exact Hk.
Qed.

(** C9, as the code has it.  Take a transaction on which [update] still
    names the method (no value has been stored under that name), and a
    mapping in which every name is one of the fields [amount], [date],
    [category], [description], or a name the transaction does not expose as
    an attribute at all (and is not the keyword [self]).  Then the call
    [t.update(...)] signals no error, each entry naming a field overwrites
    that field with its value, and every other entry is dropped: whatever
    is not named as a field reads as before, and no other object of the
    store changes. *)
Theorem update_overwrites_fields
    (w : World) (self : tx_ref)
    (t : Transaction.t) (attributes : list (string * value)) :
  transaction_heap w !! self = Some t ->
  Transaction.extra t !! "update" = None ->
  NoDup attributes.*1 ->
  "self" ∉ attributes.*1 ->
  (forall k, k ∈ attributes.*1 ->
             k ∈ instance_fields \/ hasattr py t k = false) ->
  exists t' : Transaction.t,
    call_update py self attributes w
    = (Ok tt, set_transaction_heap (<[self := t']> (transaction_heap w)) w)
    /\ (forall k v, (k, v) ∈ attributes -> k ∈ instance_fields ->
                    instance_attr t' k = Some v)
    /\ (forall k, k ∉ attributes.*1 \/ k ∉ instance_fields ->
                  instance_attr t' k = instance_attr t k).
Proof.
  intros Ht Hmethod Hnd Hself Hkeys.
  destruct (update_loop self attributes t w Ht Hnd Hkeys)
    as (t' & Hrun & Hx & Hset & Hkeep).
  exists t'. split; [| split; [exact Hset |]].
  - unfold call_update.
    rewrite (bind_ok _ _ _ _ _ (deref_ok transaction_heap self w t Ht)).
    rewrite Hmethod. unfold update.
    rewrite (bool_decide_eq_false_2 _ Hself). exact Hrun.
  - intros k [Hk | Hk]; [apply Hkeep; exact Hk |].
    rewrite !instance_attr_other by exact Hk. rewrite Hx. reflexivity.
Qed.

(** C9, as the specification words it, fails.  [update] is not one of the
    four fields, but it is an attribute of every transaction (the method
    itself): an entry of that name passes the [hasattr] test and is stored
    on the instance, so the transaction is not left unchanged. *)
Lemma update_stores_method_name :
  ("update" ∉ instance_fields)
  /\ is_Some (transaction_heap demo_world !! 0%nat)
  /\ (call_update python311 0%nat [("update", VInt 1)] demo_world).1 = Ok tt
  /\ transaction_heap
       (call_update python311 0%nat [("update", VInt 1)] demo_world).2
       !! 0%nat
     <> transaction_heap demo_world !! 0%nat.
Proof.
  split; [| split; [| split]].
  - unfold instance_fields. intros H.
    repeat (apply elem_of_cons in H as [H | H]; [discriminate |]).
    inversion H.
  - vm_compute. eauto.
  - vm_compute. reflexivity.
  - intros H.
    apply (f_equal (λ o, o ≫= λ t, Transaction.extra t !! "update")) in H.
    vm_compute in H. discriminate.
Qed.

(** Calls of [update] that do signal an error: the keyword [self] collides
    with the receiver; [__class__] cannot be assigned a value that is not a
    class; and once [update(update=1)] has stored 1 under the name of the
    method, [t.update] is that 1, which cannot be called (the transaction
    stays as it is). *)
Example update_raises :
  (call_update python311 0%nat [("self", VInt 1)] demo_world).1
  = Raise TypeError
  /\ (call_update python311 0%nat [("__class__", VInt 1)] demo_world).1
     = Raise TypeError
  /\ call_update python311 0%nat [("amount", VFloat 5)] shadowed_world
     = (Raise TypeError, shadowed_world).
Proof. vm_compute. repeat split. Qed.
(** ** Sessions *)

Lemma then_ret_snd {A B} (m : M A) (b : B) (w : World) :
  ((m;; mret b) w).2 = (m w).2.
Proof. rewrite bind_run. destruct (m w) as [[a | e] w']; reflexivity. Qed.

(** Filtering with a computation that leaves the world alone leaves the
    world alone. *)
Lemma filter_m_readonly {A} (p : A -> M bool) :
  (forall x w, (p x w).2 = w) ->
  forall (l : list A) (w : World), (filter_m p l w).2 = w.
Proof.
  intros Hp. induction l as [| x l IH]; intros w; [reflexivity |].
  cbn [filter_m]. rewrite bind_run. specialize (Hp x w).
  destruct (p x w) as [[y | e] w1]; cbn [snd] in Hp; subst w1; [| reflexivity].
  rewrite bind_run. specialize (IH w).
  destruct (filter_m p l w) as [[ys | e] w1]; cbn [snd] in IH; subst w1;
    reflexivity.
Qed.

Lemma filter_if_readonly {A} (inj : A -> value) (arg : option A)
    (keep : A -> Transaction.t -> outcome bool) (result : list tx_ref)
    (w : World) :
  (filter_if inj arg keep result w).2 = w.
Proof.
  unfold filter_if. destruct arg as [a |]; [| reflexivity].
  destruct (py_bool (inj a)); [| reflexivity].
  apply filter_m_readonly. intros r w0. run_m.
  destruct (transaction_heap w0 !! r); reflexivity.
Qed.

(** [get_transactions] never changes the world, whatever its arguments and
    whether it returns or raises. *)
Lemma get_transactions_readonly (self : account_ref)
    (start_date end_date : option datetime) (category : option Z) (w : World) :
  (get_transactions self start_date end_date category w).2 = w.
Proof.
  unfold get_transactions. rewrite bind_run. unfold get_account, deref.
  destruct (account_heap w !! self) as [a |]; [| reflexivity].
  repeat (rewrite bind_run;
          match goal with
          | |- context [filter_if ?i ?o ?k ?l w] =>
              let H := fresh "H" in
              pose proof (filter_if_readonly i o k l w) as H;
              destruct (filter_if i o k l w) as [[? | ?] ?];
              cbn [snd] in H; subst; [| reflexivity]
          end).
  reflexivity.
Qed.

(** On an account that is not in the store [add_transaction] raises, after
    the transaction has been made. *)
Lemma add_transaction_dangling (self : account_ref)
    (amount : float) (category : Z) (description : string) (w : World) :
  account_heap w !! self = None ->
  (add_transaction self amount category description w).2 =
  set_transaction_heap
    (transaction_heap w ++
       [Transaction.mk (VFloat amount) (VDate (clock w (ticks w)))
                       (VInt category) (VStr description) ∅])
    (set_ticks (S (ticks w)) w).
Proof.
  intros Ha. unfold add_transaction, Transaction_init. run_m. rewrite Ha.
  reflexivity.
Qed.

Lemma setattr_keeps_date (t t' : Transaction.t) (key : string) (v : value) :
  key <> "date" ->
  setattr t key v = Ok t' ->
  Transaction.date t' = Transaction.date t.
Proof.
  intros Hkey. destruct t as [a d c s x]. unfold setattr.
  repeat match goal with
  | |- context [String.eqb key ?k] => destruct (String.eqb_spec key k)
  end; try congruence;
  try (intros H; inversion H; reflexivity).
  destruct (guarded_attr key); intros H; inversion H. reflexivity.
Qed.

Lemma setattr_keeps_amount (t t' : Transaction.t) (key : string) (v : value) :
  key <> "amount" ->
  setattr t key v = Ok t' ->
  Transaction.amount t' = Transaction.amount t.
Proof.
  intros Hkey. destruct t as [a d c s x]. unfold setattr.
  repeat match goal with
  | |- context [String.eqb key ?k] => destruct (String.eqb_spec key k)
  end; try congruence;
  try (intros H; inversion H; reflexivity).
  destruct (guarded_attr key); intros H; inversion H. reflexivity.
Qed.

(** What a call does to the store, as far as one attribute of the
    transactions is concerned. *)
Section Attribute.

Variable attr : Transaction.t -> value.
Variable attr_name : string.
Hypothesis setattr_keeps_attr :
  forall (t t' : Transaction.t) (key : string) (v : value),
    key <> attr_name -> setattr t key v = Ok t' -> attr t' = attr t.

Lemma advances_refl (w : World) : advances attr w w.
Proof. repeat split; [lia | | ]; eauto. Qed.

Lemma advances_trans (w1 w2 w3 : World) :
  advances attr w1 w2 -> advances attr w2 w3 -> advances attr w1 w3.
Proof.
  intros (Hc1 & Ht1 & Hd1 & Ha1) (Hc2 & Ht2 & Hd2 & Ha2).
  split; [congruence | split; [lia | split]].
  - intros r t Hr. destruct (Hd1 r t Hr) as (t' & Hr' & Hattr').
    destruct (Hd2 r t' Hr') as (t'' & Hr'' & Hattr'').
    exists t''. split; [exact Hr'' | congruence].
  - intros r a Hr. destruct (Ha2 r a Hr) as [Hr' | Hnew]; [| right; exact Hnew].
    apply Ha1. exact Hr'.
Qed.

Lemma advances_set_ticks (w : World) (n : nat) :
  (ticks w <= n)%nat -> advances attr w (set_ticks n w).
Proof. intros Hn. repeat split; cbn; eauto. Qed.

Lemma advances_set_client_heap (w : World) (h : list Client.t) :
  advances attr w (set_client_heap h w).
Proof. repeat split; cbn; eauto. Qed.

Lemma advances_set_investment_heap (w : World) (h : list Investment.t) :
  advances attr w (set_investment_heap h w).
Proof. repeat split; cbn; eauto. Qed.

Lemma advances_new_transaction (w : World) (t : Transaction.t) :
  advances attr w (set_transaction_heap (transaction_heap w ++ [t]) w).
Proof.
  repeat split; cbn; eauto.
  intros r t0 Hr. exists t0. split; [| reflexivity].
  apply lookup_app_l_Some. exact Hr.
Qed.

Lemma advances_new_account (w : World) (name : string) :
  advances attr w
    (set_account_heap (account_heap w ++ [Account.mk name 0 []]) w).
Proof.
  repeat split; cbn; eauto.
  intros r a Hr. apply lookup_app_Some in Hr as [Hr | [_ Hr]]; [left; exact Hr |].
  right. destruct (r - length (account_heap w))%nat; [| discriminate].
  inversion Hr. split; reflexivity.
Qed.

Lemma advances_put_transaction (w : World) (self : tx_ref)
    (t t' : Transaction.t) :
  transaction_heap w !! self = Some t ->
  attr t' = attr t ->
  advances attr w
    (set_transaction_heap (<[self := t']> (transaction_heap w)) w).
Proof.
  intros Ht Hattr. repeat split; cbn; eauto.
  intros r t0 Hr. destruct (decide (r = self)) as [-> | Hne].
  - exists t'. split; [| congruence].
    apply list_lookup_insert_eq. eapply lookup_lt_Some. exact Ht.
  - exists t0. split; [| reflexivity].
    rewrite list_lookup_insert_ne by congruence. exact Hr.
Qed.

Lemma update_advances (self : tx_ref)
    (attributes : list (string * value)) (w : World) :
  attr_name ∉ attributes.*1 ->
  advances attr w (update py self attributes w).2.
Proof.
  intros Hname. unfold update.
  destruct (bool_decide _); [apply advances_refl |].
  revert w Hname. induction attributes as [| [key v] rest IH]; intros w Hname.
  - apply advances_refl.
  - cbn [fmap list_fmap fst] in Hname.
    apply not_elem_of_cons in Hname as [Hkey Hrest].
    cbn [for_each].
    match goal with |- context [for_each rest ?b] => set (body := b) end.
    rewrite bind_run. rewrite bind_run. unfold get_transaction, deref.
    destruct (transaction_heap w !! self) as [t |] eqn:Ht;
      [| apply advances_refl].
    destruct (hasattr py t key).
    + rewrite bind_run. unfold lift.
      destruct (setattr t key v) as [t' | e] eqn:Hset; [| apply advances_refl].
      unfold put_transaction.
      eapply advances_trans; [| apply (IH _ Hrest)].
      eapply advances_put_transaction; [exact Ht |].
      eapply setattr_keeps_attr; [| exact Hset]. congruence.
    + cbn [mret M_ret]. apply (IH _ Hrest).
Qed.

(** Every call either only advances the world, or advances it and then
    credits an account as [add_transaction] does. *)
Lemma perform_shape (c : call) (w : World) :
  keeps_attribute attr_name c ->
  advances attr w (perform py c w).2
  \/ exists (w1 : World) (self : account_ref) (a : Account.t)
            (amount : float) (category : Z) (description : string),
       advances attr w w1
       /\ account_heap w1 !! self = Some a
       /\ (perform py c w).2
          = credited self a amount category description w1.
Proof.
  intros Hkeep.
  destruct c; cbn [perform keeps_attribute] in *; rewrite ?then_ret_snd.
  - (* Client_init *)
    left. apply advances_set_client_heap.
  - (* add_account *)
    left. unfold add_account. rewrite bind_run, Account_init_run.
    rewrite bind_run. unfold get_client, deref.
    cbn [client_heap set_account_heap].
    destruct (client_heap w !! self) as [cl |]; cbn [snd].
    + eapply advances_trans; [apply advances_new_account |].
      rewrite then_ret_snd. apply advances_set_client_heap.
    + apply advances_new_account.
  - (* add_investment *)
    left. unfold add_investment. rewrite bind_run. unfold get_client, deref.
    destruct (client_heap w !! self) as [cl |]; cbn [snd].
    + apply advances_set_client_heap.
    + apply advances_refl.
  - (* get_net_worth *)
    left. destruct (get_net_worth_ticks self w) as (n & Hn & ->).
    apply advances_set_ticks. exact Hn.
  - (* Account_init *)
    left. apply advances_new_account.
  - (* add_transaction *)
    destruct (account_heap w !! self) as [a |] eqn:Ha.
    + right. exists w, self, a, amount, category, description.
      split; [apply advances_refl | split; [exact Ha |]].
      rewrite (add_transaction_run self a amount category description w Ha).
      reflexivity.
    + left. rewrite add_transaction_dangling by exact Ha.
      eapply advances_trans;
        [apply (advances_set_ticks w (S (ticks w))); lia |].
      exact (advances_new_transaction (set_ticks (S (ticks w)) w) _).
  - (* get_transactions *)
    left. rewrite get_transactions_readonly. apply advances_refl.
  - (* Investment_init *)
    left. unfold Investment_init. run_m.
    eapply advances_trans; [apply (advances_set_ticks w (S (ticks w))); lia |].
    apply (advances_set_investment_heap (set_ticks (S (ticks w)) w)).
  - (* calculate_value *)
    left. destruct (calculate_value_ticks self w) as (n & Hn & ->).
    apply advances_set_ticks. exact Hn.
  - (* sell *)
    unfold sell. rewrite bind_run.
    destruct (calculate_value_ticks self w) as (n & Hn & Hw).
    pose proof (advances_set_ticks w n Hn) as Hadv.
    destruct (calculate_value py self w) as [[V | e] w1]; cbn [snd] in Hw;
      subst w1; [| left; exact Hadv].
    rewrite bind_run. unfold get_investment, deref.
    destruct (investment_heap (set_ticks n w) !! self) as [i |];
      [| left; exact Hadv].
    rewrite then_ret_snd.
    destruct (account_heap (set_ticks n w) !! account) as [a |] eqn:Ha.
    + right.
      exists (set_ticks n w), account, a, V, 0,
             ("Venda de " +:+ Investment.type i).
      split; [exact Hadv | split; [exact Ha |]].
      rewrite (add_transaction_run account a V 0 _ (set_ticks n w) Ha).
      reflexivity.
    + left. rewrite add_transaction_dangling by exact Ha.
      eapply advances_trans; [exact Hadv |].
      eapply advances_trans;
        [apply (advances_set_ticks (set_ticks n w) (S n)); cbn; lia |].
      exact (advances_new_transaction (set_ticks (S n) (set_ticks n w)) _).
  - (* update *)
    left. unfold call_update. rewrite bind_run. unfold get_transaction, deref.
    destruct (transaction_heap w !! self) as [t |]; [| apply advances_refl].
    destruct (Transaction.extra t !! "update"); [apply advances_refl |].
    apply update_advances. exact Hkeep.
Qed.

End Attribute.

(** ** Order of the timestamps *)

Lemma non_decreasing_snoc (w : World) (dates : list (option value)) :
  monotone_clock w ->
  non_decreasing dates ->
  in_the_past w dates ->
  non_decreasing (dates ++ [Some (VDate (clock w (ticks w)))]).
Proof.
  intros Hmono Hord Hpast i j x y Hij Hi Hj.
  destruct (decide (j < length dates)%nat) as [Hlt | Hge].
  - rewrite lookup_app_l in Hi by lia. rewrite lookup_app_l in Hj by lia.
    exact (Hord i j x y Hij Hi Hj).
  - assert (Hjlen : j = length dates).
    { apply lookup_lt_Some in Hj. rewrite length_app in Hj. cbn in Hj. lia. }
    subst j. rewrite lookup_new in Hj. inversion Hj; subst y.
    destruct (decide (i < length dates)%nat) as [Hlt | Hge'].
    + rewrite lookup_app_l in Hi by lia.
      unfold in_the_past in Hpast. rewrite Forall_lookup in Hpast.
      destruct (Hpast i x Hi) as (d & -> & Hd).
      exists d, (clock w (ticks w)). repeat split. apply Hd. lia.
    + assert (i = length dates) by lia. subst i.
      rewrite lookup_new in Hi. inversion Hi; subst x.
      exists (clock w (ticks w)), (clock w (ticks w)). repeat split.
      apply Hmono. lia.
Qed.

Lemma in_the_past_live (w : World) (a : Account.t) :
  in_the_past w (ledger_dates w a) -> all_live w (Account.transactions a).
Proof.
  intros Hpast. unfold all_live. rewrite Forall_forall. intros r Hr.
  unfold in_the_past, ledger_dates in Hpast. rewrite Forall_forall in Hpast.
  destruct (Hpast (Transaction.date <$> transaction_heap w !! r))
    as (d & Hd & _).
  { apply list_elem_of_In. apply in_map_iff. exists r.
    split; [reflexivity | apply list_elem_of_In; exact Hr]. }
  destruct (transaction_heap w !! r); [eauto | discriminate].
Qed.

Lemma ledger_dates_credited (w : World) (self : account_ref) (a : Account.t)
    (amount : float) (category : Z) (description : string) :
  all_live w (Account.transactions a) ->
  ledger_dates (credited self a amount category description w)
    (Account.mk (Account.name a) (Account.balance a + amount)%float
       (Account.transactions a ++ [length (transaction_heap w)]))
  = (ledger_dates w a ++ [Some (VDate (clock w (ticks w)))])%list.
Proof.
  intros Hlive. unfold ledger_dates, credited.
  cbn [transaction_heap Account.transactions].
  rewrite map_app. cbn [map]. rewrite lookup_new.
  cbn [fmap option_fmap option_map Transaction.date].
  f_equal. apply map_ext_in. intros r Hr.
  unfold all_live in Hlive. rewrite Forall_forall in Hlive.
  destruct (Hlive r) as [t Ht]; [apply list_elem_of_In; exact Hr |].
  rewrite (lookup_app_l_Some _ _ _ _ Ht), Ht. reflexivity.
Qed.

Lemma in_the_past_credited (w : World) (self : account_ref) (a : Account.t)
    (amount : float) (category : Z) (description : string) :
  monotone_clock w ->
  in_the_past w (ledger_dates w a) ->
  in_the_past (credited self a amount category description w)
    (ledger_dates w a ++ [Some (VDate (clock w (ticks w)))]).
Proof.
  intros Hmono Hpast. unfold in_the_past in *. apply Forall_app. split.
  - eapply Forall_impl; [exact Hpast |].
    intros x (d & Hx & Hd). exists d. split; [exact Hx |].
    intros k Hk. apply Hd. cbn in Hk. lia.
  - constructor; [| constructor].
    exists (clock w (ticks w)). split; [reflexivity |].
    intros k Hk. apply Hmono. cbn in Hk. lia.
Qed.

Lemma advances_ledger_dates (w w' : World) (a : Account.t) :
  advances Transaction.date w w' ->
  in_the_past w (ledger_dates w a) ->
  ledger_dates w' a = ledger_dates w a.
Proof.
  intros (_ & _ & Hd & _) Hpast. unfold ledger_dates.
  apply map_ext_in. intros r Hr.
  pose proof (in_the_past_live w a Hpast) as Hlive.
  unfold all_live in Hlive. rewrite Forall_forall in Hlive.
  destruct (Hlive r) as [t Ht]; [apply list_elem_of_In; exact Hr |].
  destruct (Hd r t Ht) as (t' & Ht' & Hdate).
  rewrite Ht, Ht'. cbn. congruence.
Qed.

Lemma advances_in_the_past (w w' : World) (dates : list (option value)) :
  advances Transaction.date w w' -> in_the_past w dates -> in_the_past w' dates.
Proof.
  intros (Hc & Ht & _ & _) Hpast. unfold in_the_past in *.
  eapply Forall_impl; [exact Hpast |].
  intros x (d & Hx & Hd). exists d. split; [exact Hx |].
  intros k Hk. rewrite Hc. apply Hd. lia.
Qed.

Lemma advances_keeps_order (w w' : World) :
  advances Transaction.date w w' ->
  monotone_clock w -> ledgers_ordered w ->
  monotone_clock w' /\ ledgers_ordered w'.
Proof.
  intros Hadv Hmono Hord. split.
  - destruct Hadv as (Hc & _). unfold monotone_clock. rewrite Hc. exact Hmono.
  - intros r a Hr. pose proof Hadv as (Hc & Ht & Hd & Ha).
    destruct (Ha r a Hr) as [Hold | [Hempty _]].
    + destruct (Hord r a Hold) as [Hnd Hpast].
      rewrite (advances_ledger_dates w w' a Hadv Hpast).
      split; [exact Hnd |].
      exact (advances_in_the_past w w' _ Hadv Hpast).
    + unfold ledger_dates. rewrite Hempty. cbn [map]. split.
      * intros i j x y _ Hi. inversion Hi.
      * constructor.
Qed.

(** Crediting an account keeps every ledger of the store in order: the one
    it extends, and the others. *)
Lemma credited_keeps_order (self : account_ref) (a : Account.t)
    (amount : float) (category : Z) (description : string) (w : World) :
  monotone_clock w -> ledgers_ordered w ->
  account_heap w !! self = Some a ->
  monotone_clock (credited self a amount category description w)
  /\ ledgers_ordered (credited self a amount category description w).
Proof.
  intros Hmono Hord Ha.
  set (t := Transaction.mk (VFloat amount) (VDate (clock w (ticks w)))
              (VInt category) (VStr description) ∅).
  set (w1 := set_transaction_heap (transaction_heap w ++ [t])
               (set_ticks (S (ticks w)) w)).
  assert (Hadv : advances Transaction.date w w1).
  { eapply advances_trans; [apply (advances_set_ticks _ w (S (ticks w))); lia |].
    exact (advances_new_transaction _ (set_ticks (S (ticks w)) w) t). }
  destruct (advances_keeps_order w w1 Hadv Hmono Hord) as [Hmono1 Hord1].
  split; [exact Hmono |].
  intros r b Hr. unfold credited in Hr. cbn [account_heap] in Hr.
  destruct (decide (r = self)) as [-> | Hne].
  - rewrite list_lookup_insert_eq in Hr by (eapply lookup_lt_Some; exact Ha).
    inversion Hr; subst b. destruct (Hord self a Ha) as [Hnd Hpast].
    rewrite ledger_dates_credited by (apply in_the_past_live; exact Hpast).
    split.
    + apply non_decreasing_snoc; assumption.
    + apply in_the_past_credited; assumption.
  - rewrite list_lookup_insert_ne in Hr by congruence.
    exact (Hord1 r b Hr).
Qed.

Lemma perform_keeps_order (c : call) (w : World) :
  keeps_attribute "date" c ->
  monotone_clock w -> ledgers_ordered w ->
  monotone_clock (perform py c w).2
  /\ ledgers_ordered (perform py c w).2.
Proof.
  intros Hkeep Hmono Hord.
  destruct (perform_shape Transaction.date "date" setattr_keeps_date
              c w Hkeep)
    as [Hadv | (w1 & self & a & amount & category & description
                & Hadv & Ha & ->)].
  - exact (advances_keeps_order _ _ Hadv Hmono Hord).
  - destruct (advances_keeps_order _ _ Hadv Hmono Hord) as [Hmono1 Hord1].
    apply credited_keeps_order; assumption.
Qed.

Lemma session_keeps_order (calls : list call) :
  forall w : World,
    Forall (keeps_attribute "date") calls ->
    monotone_clock w -> ledgers_ordered w ->
    monotone_clock (session py calls w)
    /\ ledgers_ordered (session py calls w).
Proof.
  induction calls as [| c calls IH]; intros w Hkeep Hmono Hord.
  - split; assumption.
  - inversion Hkeep as [| ? ? Hc Hrest]; subst.
    destruct (perform_keeps_order c w Hc Hmono Hord)
      as [Hmono1 Hord1].
    exact (IH _ Hrest Hmono1 Hord1).
Qed.

(** C10. Take a clock whose successive readings never go back, and any
    session of method calls that starts in a store without accounts and in
    which no [update] names [date].  Every account of the store the session
    leaves has a ledger whose dates are datetimes in non-decreasing order:
    each [add_transaction], also the one [sell] makes, stamps the
    transaction it appends with the reading of the clock at that moment. *)
Theorem timestamps_non_decreasing
    (calls : list call) (w : World) (r : account_ref) (a : Account.t) :
  monotone_clock w ->
  account_heap w = [] ->
  Forall (keeps_attribute "date") calls ->
  account_heap (session py calls w) !! r = Some a ->
  non_decreasing (ledger_dates (session py calls w) a).
Proof.
  intros Hmono Hempty Hkeep Hr.
  assert (Hord : ledgers_ordered w).
  { intros r0 a0 H0. rewrite Hempty in H0. inversion H0. }
  destruct (session_keeps_order calls w Hkeep Hmono Hord)
    as [_ Hfinal].
  exact (proj1 (Hfinal r a Hr)).
Qed.

(** ** Balance and ledger in step *)

Lemma balanced_live (w : World) (a : Account.t) (xs : list float) :
  ledger_amounts w a = map (λ x, Some (VFloat x)) xs ->
  all_live w (Account.transactions a).
Proof.
  intros Hl. unfold all_live. rewrite Forall_lookup. intros i r Hr.
  assert (Hi : ledger_amounts w a !! i
               = Some (Transaction.amount <$> transaction_heap w !! r)).
  { unfold ledger_amounts. rewrite list_lookup_fmap, Hr. reflexivity. }
  rewrite Hl, list_lookup_fmap in Hi.
  destruct (xs !! i); [| discriminate]. cbn in Hi.
  destruct (transaction_heap w !! r); [eauto | discriminate].
Qed.

Lemma advances_ledger_amounts (w w' : World) (a : Account.t) :
  advances Transaction.amount w w' ->
  all_live w (Account.transactions a) ->
  ledger_amounts w' a = ledger_amounts w a.
Proof.
  intros (_ & _ & Hd & _) Hlive. unfold ledger_amounts.
  apply map_ext_in. intros r Hr.
  unfold all_live in Hlive. rewrite Forall_forall in Hlive.
  destruct (Hlive r) as [t Ht]; [apply list_elem_of_In; exact Hr |].
  destruct (Hd r t Ht) as (t' & Ht' & Hamount).
  rewrite Ht, Ht'. cbn. congruence.
Qed.

Lemma advances_keeps_balanced (w w' : World) :
  advances Transaction.amount w w' ->
  ledgers_balanced w -> ledgers_balanced w'.
Proof.
  intros Hadv Hbal r a Hr. pose proof Hadv as (_ & _ & _ & Ha).
  destruct (Ha r a Hr) as [Hold | [Hempty Hzero]].
  - destruct (Hbal r a Hold) as (xs & Hl & Hsum).
    exists xs. split; [| exact Hsum].
    rewrite (advances_ledger_amounts w w' a Hadv (balanced_live w a xs Hl)).
    exact Hl.
  - exists []. unfold ledger_amounts. rewrite Hempty, Hzero.
    split; reflexivity.
Qed.

(** Crediting an account keeps every balance in step with its ledger. *)
Lemma credited_keeps_balanced (self : account_ref) (a : Account.t)
    (amount : float) (category : Z) (description : string) (w : World) :
  ledgers_balanced w ->
  account_heap w !! self = Some a ->
  ledgers_balanced (credited self a amount category description w).
Proof.
  intros Hbal Ha.
  set (t := Transaction.mk (VFloat amount) (VDate (clock w (ticks w)))
              (VInt category) (VStr description) ∅).
  set (w1 := set_transaction_heap (transaction_heap w ++ [t])
               (set_ticks (S (ticks w)) w)).
  assert (Hadv : advances Transaction.amount w w1).
  { eapply advances_trans; [apply (advances_set_ticks _ w (S (ticks w))); lia |].
    exact (advances_new_transaction _ (set_ticks (S (ticks w)) w) t). }
  pose proof (advances_keeps_balanced w w1 Hadv Hbal) as Hbal1.
  intros r b Hr. unfold credited in Hr. cbn [account_heap] in Hr.
  destruct (decide (r = self)) as [-> | Hne].
  - rewrite list_lookup_insert_eq in Hr by (eapply lookup_lt_Some; exact Ha).
    inversion Hr; subst b. destruct (Hbal self a Ha) as (xs & Hl & Hsum).
    exists (xs ++ [amount])%list.
    rewrite ledger_amounts_credited by (eapply balanced_live; exact Hl).
    rewrite Hl, map_app, added_in_turn_snoc. cbn [Account.balance map].
    split; [reflexivity | rewrite Hsum; reflexivity].
  - rewrite list_lookup_insert_ne in Hr by congruence.
    exact (Hbal1 r b Hr).
Qed.

Lemma perform_keeps_balanced (c : call) (w : World) :
  keeps_attribute "amount" c ->
  ledgers_balanced w ->
  ledgers_balanced (perform py c w).2.
Proof.
  intros Hkeep Hbal.
  destruct (perform_shape Transaction.amount "amount" setattr_keeps_amount
              c w Hkeep)
    as [Hadv | (w1 & self & a & amount & category & description
                & Hadv & Ha & ->)].
  - exact (advances_keeps_balanced _ _ Hadv Hbal).
  - apply credited_keeps_balanced; [| exact Ha].
    exact (advances_keeps_balanced _ _ Hadv Hbal).
Qed.

(** In any session in which no [update] names [amount], the balance of
    every account stays what the amounts of its ledger add up to, one after
    the other, whatever calls are made in between on this and on other
    objects. *)
Lemma balance_matches_ledger (calls : list call) :
  forall w : World,
    Forall (keeps_attribute "amount") calls ->
    ledgers_balanced w ->
    ledgers_balanced (session py calls w).
Proof.
  induction calls as [| c calls IH]; intros w Hkeep Hbal.
  - exact Hbal.
  - inversion Hkeep as [| ? ? Hc Hrest]; subst.
    exact (IH _ Hrest (perform_keeps_balanced c w Hc Hbal)).
Qed.

(** The hazard of [update]: correcting the amount of the deposit of
    [exemplo.py] from 500 to 450 leaves the balance at 300, while the ledger
    now adds up to 250. *)
Example update_amount_leaves_balance :
  let w := (update python311 0%nat [("amount", VFloat 450)] demo_world).2 in
  account_heap w !! 0%nat = Some (Account.mk "Conta Corrente" 300 [0; 1]%nat)
  /\ ledger_amounts w (Account.mk "Conta Corrente" 300 [0; 1]%nat)
     = [Some (VFloat 450); Some (VFloat (-200))].
Proof. vm_compute. split; reflexivity. Qed.
(** * Further properties *)

(** ** Retrieval by date and category *)

Lemma dated_filter (w : World) (q : tx_ref -> bool) (l : list tx_ref) :
  dated w l -> dated w (List.filter q l).
Proof.
  unfold dated. rewrite !Forall_forall. intros H r Hr.
  apply H. apply list_elem_of_In. apply list_elem_of_In in Hr.
  apply filter_In in Hr. tauto.
Qed.

Lemma filter_true {A} (l : list A) : List.filter (λ _, true) l = l.
Proof. induction l as [| x l IH]; [reflexivity |]. cbn. congruence. Qed.

Lemma filter_if_date (cmp : datetime -> datetime -> bool)
    (test : value -> datetime -> outcome bool) (o : option datetime)
    (l : list tx_ref) (w : World) :
  (forall d x, test (VDate d) x = Ok (cmp d x)) ->
  dated w l ->
  filter_if VDate o (λ x t, test (Transaction.date t) x) l w =
  (Ok (List.filter
         (λ r, match o with
               | Some x =>
                   match transaction_heap w !! r with
                   | Some t => date_in (λ d, cmp d x) (Transaction.date t)
                   | None => false
                   end
               | None => true
               end) l), w).
Proof.
  intros Htest Hd. destruct o as [x |]; cbn [filter_if py_bool].
  - apply filter_m_pure. eapply Forall_impl; [exact Hd |].
    intros r (t & d & Ht & Hdate). run_m. rewrite Ht, Hdate, Htest.
    reflexivity.
  - rewrite filter_true. reflexivity.
Qed.

Lemma filter_if_category (o : option Z) (l : list tx_ref) (w : World) :
  dated w l ->
  filter_if VInt o (λ c t, Ok (py_eq_int (Transaction.category t) c)) l w =
  (Ok (List.filter
         (λ r, match o with
               | Some c =>
                   Z.eqb c 0
                   || match transaction_heap w !! r with
                      | Some t => py_eq_int (Transaction.category t) c
                      | None => false
                      end
               | None => true
               end) l), w).
Proof.
  intros Hd. destruct o as [c |]; cbn [filter_if py_bool].
  - destruct (Z.eqb c 0); cbn [negb orb].
    + rewrite filter_true. reflexivity.
    + apply filter_m_pure. eapply Forall_impl; [exact Hd |].
      intros r (t & d & Ht & _). run_m. rewrite Ht. reflexivity.
  - rewrite filter_true. reflexivity.
Qed.

Lemma filter_filter {A} (p q : A -> bool) (l : list A) :
  List.filter q (List.filter p l) = List.filter (λ x, p x && q x) l.
Proof.
  induction l as [| x l IH]; [reflexivity |]. cbn [List.filter].
  destruct (p x); cbn [List.filter andb]; [destruct (q x) |]; congruence.
Qed.

Lemma get_transactions_filter_run
    (w : World) (self : account_ref) (a : Account.t)
    (start_date end_date : option datetime) (category : option Z) :
  account_heap w !! self = Some a ->
  dated w (Account.transactions a) ->
  get_transactions self start_date end_date category w =
  (Ok (List.filter (selected w start_date end_date category)
                   (Account.transactions a)), w).
Proof.
  intros Ha Hd. unfold get_transactions.
  rewrite (bind_ok _ _ _ _ _ (deref_ok account_heap self w a Ha)).
  cbn zeta.
  rewrite (bind_ok _ _ _ _ _
             (filter_if_date dt_geb py_ge_date start_date _ w
                (λ d x, eq_refl) Hd)).
  rewrite (bind_ok _ _ _ _ _
             (filter_if_date dt_leb py_le_date end_date _ w
                (λ d x, eq_refl) (dated_filter w _ _ Hd))).
  rewrite (bind_ok _ _ _ _ _
             (filter_if_category category _ w
                (dated_filter w _ _ (dated_filter w _ _ Hd)))).
  unfold mret, M_ret. f_equal. f_equal.
  rewrite !filter_filter. apply filter_ext_in. intros r Hr.
  unfold dated in Hd. rewrite Forall_forall in Hd.
  destruct (Hd r) as (t & d & Ht & Hdate); [apply list_elem_of_In; exact Hr |].
  unfold selected. rewrite Ht, <- andb_assoc. reflexivity.
Qed.

(** X1. On a ledger whose dates are datetimes, [get_transactions] returns,
    in ledger order, exactly the transactions that pass all the filters
    given: date not before [start_date], date not after [end_date] (both
    bounds included), category equal to [category]; an omitted filter, and
    category 0, constrain nothing.  The world is left as it was. *)
Theorem get_transactions_selects
    (w : World) (self : account_ref) (a : Account.t)
    (start_date end_date : option datetime) (category : option Z) :
  account_heap w !! self = Some a ->
  dated w (Account.transactions a) ->
  get_transactions self start_date end_date category w =
  (Ok (List.filter (selected w start_date end_date category)
                   (Account.transactions a)), w).
Proof. exact (get_transactions_filter_run w self a start_date end_date category). Qed.

Lemma filter_m_sublist {A} (p : A -> M bool) :
  forall (l r : list A) (w w' : World),
    filter_m p l w = (Ok r, w') -> sublist r l.
Proof.
  induction l as [| x l IH]; intros r w w' H.
  - inversion H. constructor.
  - cbn [filter_m] in H. rewrite bind_run in H.
    destruct (p x w) as [[b | e] w1]; [| discriminate].
    rewrite bind_run in H.
    destruct (filter_m p l w1) as [[r' | e] w2] eqn:Hrest; [| discriminate].
    inversion H; subst. specialize (IH _ _ _ Hrest).
    destruct b; [apply sublist_skip | apply sublist_cons]; exact IH.
Qed.

Lemma filter_if_sublist {A} (inj : A -> value) (arg : option A)
    (keep : A -> Transaction.t -> outcome bool) (l r : list tx_ref)
    (w w' : World) :
  filter_if inj arg keep l w = (Ok r, w') -> sublist r l.
Proof.
  unfold filter_if. destruct arg as [a |].
  - destruct (py_bool (inj a)).
    + apply filter_m_sublist.
    + intros H. inversion H. reflexivity.
  - intros H. inversion H. reflexivity.
Qed.

(** X2. Whatever its arguments and whether it returns or raises,
    [get_transactions] leaves the world as it found it; and what it returns
    is a sublist of the ledger of the account: transactions of that ledger,
    in ledger order, none of them twice over. *)
Theorem get_transactions_takes_from_ledger
    (w : World) (self : account_ref)
    (start_date end_date : option datetime) (category : option Z) :
  (get_transactions self start_date end_date category w).2 = w
  /\ forall result : list tx_ref,
       (get_transactions self start_date end_date category w).1 = Ok result ->
       exists a : Account.t,
         account_heap w !! self = Some a
         /\ sublist result (Account.transactions a).
Proof.
  split; [apply get_transactions_readonly |].
  intros result. unfold get_transactions. rewrite bind_run.
  unfold get_account, deref.
  destruct (account_heap w !! self) as [a |]; [| discriminate].
  cbn zeta. rewrite bind_run.
  destruct (filter_if VDate start_date _ _ w) as [[l1 | e] w1] eqn:H1;
    [| discriminate].
  rewrite bind_run.
  destruct (filter_if VDate end_date _ _ w1) as [[l2 | e] w2] eqn:H2;
    [| discriminate].
  rewrite bind_run.
  destruct (filter_if VInt category _ _ w2) as [[l3 | e] w3] eqn:H3;
    [| discriminate].
  cbn. intros H. inversion H; subst. exists a. split; [reflexivity |].
  apply filter_if_sublist in H1, H2, H3.
  etransitivity; [exact H3 |]. etransitivity; [exact H2 | exact H1].
Qed.

Lemma filter_m_raises {A} (p : A -> M bool) (e : exn) (w : World) :
  forall l : list A,
    Forall (λ x, (exists b, p x w = (Ok b, w)) \/ p x w = (Raise e, w)) l ->
    Exists (λ x, p x w = (Raise e, w)) l ->
    filter_m p l w = (Raise e, w).
Proof.
  induction l as [| x l IH]; intros Hall Hex.
  - inversion Hex.
  - inversion Hall as [| ? ? Hx Hrest]; subst.
    cbn [filter_m]. rewrite bind_run.
    destruct Hx as [[b Hb] | Hraise].
    + rewrite Hb. rewrite bind_run.
      inversion Hex as [? ? Hhead | ? ? Htail]; subst.
      * rewrite Hb in Hhead. discriminate.
      * rewrite (IH Hrest Htail). reflexivity.
    + rewrite Hraise. reflexivity.
Qed.

Lemma date_test_raises (test : value -> datetime -> outcome bool)
    (cmp : datetime -> datetime -> bool) (x : datetime)
    (l : list tx_ref) (w : World) :
  (forall v, test v x = match v with
                        | VDate d => Ok (cmp d x)
                        | _ => Raise TypeError
                        end) ->
  all_live w l ->
  Exists (λ r, exists t : Transaction.t,
               transaction_heap w !! r = Some t
               /\ forall d, Transaction.date t <> VDate d) l ->
  filter_m (λ r, t ← get_transaction r; lift (test (Transaction.date t) x)) l w
  = (Raise TypeError, w).
Proof.
  intros Htest Hlive Hbad. apply filter_m_raises.
  - eapply Forall_impl; [exact Hlive |].
    intros r [t Ht]. run_m. rewrite Ht, Htest.
    destruct (Transaction.date t); eauto.
  - eapply Exists_impl; [exact Hbad |].
    intros r (t & Ht & Hdate). run_m. rewrite Ht, Htest.
    destruct (Transaction.date t) as [| | | | d]; try reflexivity.
    destruct (Hdate d). reflexivity.
Qed.

(** X3. Once some transaction of the ledger has a [date] that is not a
    datetime (as [update] can make it), [get_transactions] with a
    [start_date] or an [end_date] raises [TypeError], and leaves the world
    as it was. *)
Theorem get_transactions_raises_on_bad_date
    (w : World) (self : account_ref) (a : Account.t)
    (start_date end_date : option datetime) (category : option Z) :
  account_heap w !! self = Some a ->
  all_live w (Account.transactions a) ->
  Exists (λ r, exists t : Transaction.t,
               transaction_heap w !! r = Some t
               /\ forall d, Transaction.date t <> VDate d)
         (Account.transactions a) ->
  is_Some start_date \/ is_Some end_date ->
  get_transactions self start_date end_date category w = (Raise TypeError, w).
Proof.
  intros Ha Hlive Hbad Hfilter. unfold get_transactions.
  rewrite (bind_ok _ _ _ _ _ (deref_ok account_heap self w a Ha)).
  cbn zeta. rewrite bind_run.
  destruct start_date as [s |]; cbn [filter_if py_bool].
  - rewrite (date_test_raises py_ge_date dt_geb s _ w); try assumption.
    + reflexivity.
    + intros v. destruct v; reflexivity.
  - destruct Hfilter as [[? Hs] | [e ->]]; [discriminate |].
    unfold mret at 1, M_ret at 1. rewrite bind_run.
    cbn [filter_if py_bool].
    rewrite (date_test_raises py_le_date dt_leb e _ w); try assumption.
    + reflexivity.
    + intros v. destruct v; reflexivity.
Qed.

(** The order of datetimes is transitive. *)
Lemma lex_compare_trans (a : list Z) :
  forall b c : list Z,
    lex_compare a b <> Gt -> lex_compare b c <> Gt -> lex_compare a c <> Gt.
Proof.
  induction a as [| x a IH]; intros b c Hab Hbc.
  - destruct c; discriminate.
  - destruct b as [| y b]; [cbn in Hab; congruence |].
    destruct c as [| z c]; [cbn in Hbc; congruence |].
    cbn [lex_compare] in *.
    destruct (Z.compare_spec x y) as [-> | Hxy | Hxy]; [| | congruence].
    + destruct (Z.compare_spec y z) as [-> | Hyz | Hyz]; [| | congruence].
      * apply IH with b; assumption.
      * discriminate.
    + destruct (Z.compare_spec y z) as [-> | Hyz | Hyz]; [| | congruence].
      * rewrite (proj2 (Z.compare_lt_iff x z) Hxy). discriminate.
      * rewrite (proj2 (Z.compare_lt_iff x z) ltac:(lia)). discriminate.
Qed.

Lemma dt_leb_trans (a b c : datetime) :
  dt_leb a b = true -> dt_leb b c = true -> dt_leb a c = true.
Proof.
  unfold dt_leb, dt_compare. intros Hab Hbc.
  pose proof (lex_compare_trans (dt_key a) (dt_key b) (dt_key c)) as H.
  destruct (lex_compare (dt_key a) (dt_key b)); try discriminate;
    destruct (lex_compare (dt_key b) (dt_key c)); try discriminate;
    destruct (lex_compare (dt_key a) (dt_key c)); try reflexivity;
    exfalso; apply H; congruence.
Qed.

(** X4. A range that ends before it starts selects nothing: when
    [end_date] is before [start_date], [get_transactions] returns the empty
    list. *)
Theorem get_transactions_empty_range
    (w : World) (self : account_ref) (a : Account.t)
    (start_date end_date : datetime) (category : option Z) :
  account_heap w !! self = Some a ->
  dated w (Account.transactions a) ->
  dt_leb start_date end_date = false ->
  get_transactions self (Some start_date) (Some end_date) category w
  = (Ok [], w).
Proof.
  intros Ha Hd Hrange.
  rewrite (get_transactions_filter_run w self a _ _ _ Ha Hd).
  f_equal. f_equal.
  induction (Account.transactions a) as [| r l IH]; [reflexivity |].
  inversion Hd as [| ? ? (t & d & Ht & Hdate) Hrest]; subst.
  cbn [List.filter]. rewrite (IH Hrest).
  unfold selected. rewrite Ht, Hdate. cbn [date_in].
  destruct (dt_geb d start_date) eqn:Hge; [| reflexivity].
  destruct (dt_leb d end_date) eqn:Hle; [| reflexivity].
  unfold dt_geb in Hge.
  rewrite (dt_leb_trans _ _ _ Hge Hle) in Hrange. discriminate.
Qed.


(** ** Valuation *)

(** X5. An investment valued right after it was made, while the clock is
    still in the calendar month of the purchase, is worth the amount
    invested. *)
Theorem new_investment_is_worth_its_amount
    (w : World) (type : string) (amount rate_of_return : float)
    (client : client_ref) :
  year (clock w (S (ticks w))) = year (clock w (ticks w)) ->
  month (clock w (S (S (ticks w)))) = month (clock w (ticks w)) ->
  exists (i : investment_ref) (v : float) (w' : World),
    (i ← Investment_init type amount rate_of_return client;
     v ← calculate_value py i; mret (i, v)) w = (Ok (i, v), w')
    /\ v = amount.
Proof.
  intros Hy Hm.
  set (inv := Investment.mk type amount (clock w (ticks w))
                            rate_of_return client).
  set (w1 := set_investment_heap (investment_heap w ++ [inv])
               (set_ticks (S (ticks w)) w)).
  assert (Hinit : Investment_init type amount rate_of_return client w
                  = (Ok (length (investment_heap w)), w1)) by reflexivity.
  pose proof (calculate_value_same_month w1 (length (investment_heap w)) inv
                (lookup_new _ _) Hy Hm) as Hv.
  exists (length (investment_heap w)), amount,
         (set_ticks (S (S (ticks w1))) w1).
  split; [| reflexivity].
  rewrite (bind_ok _ _ _ _ _ Hinit). rewrite (bind_ok _ _ _ _ _ Hv).
  reflexivity.
Qed.

(** X7. An investment whose rate of return is -1 cannot be valued when the
    months counted are negative (the clock reads a month before the
    purchase): [calculate_value] raises [ZeroDivisionError], having read the
    clock twice and changed nothing else. *)
Theorem calculate_value_zero_division
    (w : World) (self : investment_ref) (i : Investment.t) :
  investment_heap w !! self = Some i ->
  (1 + Investment.rate_of_return i =? 0)%float = true ->
  months_at w i < 0 ->
  calculate_value py self w
  = (Raise ZeroDivisionError, set_ticks (S (S (ticks w))) w).
Proof.
  intros Hi Hrate Hneg. rewrite (calculate_value_run w self i Hi).
  unfold value_at. fold (months_at w i).
  rewrite (py_pow_zero_division _ _ Hrate Hneg). reflexivity.
Qed.

(** X8. When the valuation fails, [sell] credits nothing: it raises what
    [calculate_value] raises, and no account and no transaction of the store
    is touched. *)
Theorem sell_fails_without_credit
    (w : World) (self : investment_ref) (account : account_ref) (e : exn) :
  (calculate_value py self w).1 = Raise e ->
  (sell py self account w).1 = Raise e
  /\ account_heap (sell py self account w).2 = account_heap w
  /\ transaction_heap (sell py self account w).2 = transaction_heap w.
Proof.
  intros Hv. unfold sell. rewrite bind_run.
  destruct (calculate_value_ticks self w) as (n & _ & Hw).
  destruct (calculate_value py self w) as [[V | e'] w1]; cbn [fst snd] in *;
    [discriminate |].
  subst w1. inversion Hv; subst. repeat split.
Qed.

(** ** Zeros, infinities and nan in sums *)

Lemma float_is_zero (x : float) :
  (x =? 0)%float = true <-> exists s : bool, Prim2SF x = S754_zero s.
Proof.
  rewrite FloatAxioms.eqb_spec. change (Prim2SF 0) with (S754_zero false).
  destruct (Prim2SF x) as [s | s | | s m e]; cbn; split;
    try discriminate; try (intros [s' H]; discriminate H); eauto;
    destruct s; discriminate.
Qed.

(** Adding 0.0 changes a float in no way, but for -0.0, which it turns
    into 0.0. *)
Lemma float_add_0_r (t : float) :
  (t + 0)%float = t
  \/ ((t =? 0)%float = true /\ (t + 0 =? 0)%float = true).
Proof.
  destruct (float_cases t) as [H | [[s H] | [[s H] | (s & m & e & H & _)]]].
  - left. apply Prim2SF_inj. rewrite add_spec, H. reflexivity.
  - right. split; [apply float_is_zero; eauto |].
    apply float_is_zero. rewrite add_spec, H.
    change (Prim2SF 0) with (S754_zero false). destruct s; cbn; eauto.
  - left. apply Prim2SF_inj. rewrite add_spec, H. reflexivity.
  - left. apply Prim2SF_inj. rewrite add_spec, H. reflexivity.
Qed.

(** A zero added to a float that is not zero gives that float. *)
Lemma float_zero_add (z y : float) :
  (z =? 0)%float = true -> (y =? 0)%float = false -> (z + y)%float = y.
Proof.
  intros Hz Hy. apply float_is_zero in Hz as [s Hz].
  apply Prim2SF_inj. rewrite add_spec, Hz.
  destruct (Prim2SF y) as [s' | s' | | s' m e] eqn:E; try reflexivity.
  assert (Hyes : (y =? 0)%float = true) by (apply float_is_zero; eauto).
  congruence.
Qed.

(** Two zeros add up to a zero. *)
Lemma float_zero_add_zero (z y : float) :
  (z =? 0)%float = true -> (y =? 0)%float = true ->
  (z + y =? 0)%float = true.
Proof.
  intros Hz Hy. apply float_is_zero in Hz as [s Hz].
  apply float_is_zero in Hy as [s' Hy]. apply float_is_zero.
  rewrite add_spec, Hz, Hy. destruct s, s'; cbn; eauto.
Qed.

Lemma float_is_finite (c : float) :
  is_finite c
  = match Prim2SF c with
    | S754_zero _ | S754_finite _ _ _ => true
    | _ => false
    end.
Proof.
  unfold is_finite, is_nan, is_infinity.
  rewrite !FloatAxioms.eqb_spec, abs_spec.
  change (Prim2SF infinity) with (S754_infinity false).
  destruct (Prim2SF c) as [s | s | | s m e]; try (destruct s; reflexivity);
    try reflexivity.
  unfold SFeqb, SFcompare, SFabs.
  rewrite Z.compare_refl, Pos.compare_cont_refl. destruct s; reflexivity.
Qed.

(** nan absorbs what is added to it, and an infinity a finite float. *)
Lemma float_add_nan_r (x y : float) :
  Prim2SF y = S754_nan -> (x + y)%float = y.
Proof.
  intros H. apply Prim2SF_inj. rewrite add_spec, H.
  destruct (Prim2SF x); reflexivity.
Qed.

Lemma float_add_nan_l (x y : float) :
  Prim2SF x = S754_nan -> (x + y)%float = x.
Proof. intros H. apply Prim2SF_inj. rewrite add_spec, H. reflexivity. Qed.

Lemma float_infinity_add (t c : float) (s : bool) :
  Prim2SF t = S754_infinity s -> is_finite c = true -> (t + c)%float = t.
Proof.
  intros Ht Hc. rewrite float_is_finite in Hc.
  apply Prim2SF_inj. rewrite add_spec, Ht.
  destruct (Prim2SF c); try discriminate; reflexivity.
Qed.

(** What the compensated [sum] takes an addition of 0.0 to have lost: nan
    when the total is nan or an infinity, and nothing otherwise. *)
Lemma lost_in_adding_zero (t : float) :
  match Prim2SF t with
  | S754_nan | S754_infinity _ => Prim2SF (lost_in_adding t 0) = S754_nan
  | _ => lost_in_adding t 0 = 0%float
  end.
Proof.
  unfold lost_in_adding. rewrite leb_spec, !abs_spec.
  change (Prim2SF 0) with (S754_zero false).
  destruct (float_cases t) as [H | [[s H] | [[s H] | (s & m & e & H & Hb)]]];
    rewrite H.
  - cbn. rewrite !add_spec, !sub_spec, !add_spec, H. reflexivity.
  - cbn. apply Prim2SF_inj. rewrite !add_spec, !sub_spec, !add_spec, H.
    change (Prim2SF 0) with (S754_zero false). destruct s; reflexivity.
  - cbn. rewrite !add_spec, !sub_spec, !add_spec, H.
    change (Prim2SF 0) with (S754_zero false). destruct s; reflexivity.
  - cbn. apply Prim2SF_inj. rewrite !add_spec, !sub_spec, !add_spec, H.
    change (Prim2SF 0) with (S754_zero false).
    cbn [SF64add SFadd]. unfold SF64sub, SFsub.
    rewrite Z.min_id. unfold shl_align. rewrite Z.sub_diag. cbn [fst].
    reflexivity.
Qed.

(** One more item 0.0 leaves the compensated total the same number. *)
Lemma compensated_zero_step (t c : float) :
  same_number
    (Float (if negb (c + lost_in_adding t 0 =? 0)%float
               && is_finite (c + lost_in_adding t 0)
            then ((t + 0) + (c + lost_in_adding t 0))%float
            else (t + 0)%float))
    (Float (if negb (c =? 0)%float && is_finite c
            then (t + c)%float else t)).
Proof.
  pose proof (lost_in_adding_zero t) as Hlost.
  destruct (float_cases t) as [H | [[s H] | [[s H] | (s & m & e & H & Hb)]]];
    rewrite H in Hlost.
  - (* the total is nan *)
    rewrite (float_add_nan_r c _ Hlost).
    rewrite (float_is_finite (lost_in_adding t 0)), Hlost, andb_false_r.
    left. f_equal. rewrite (float_add_nan_l t 0 H).
    destruct (negb (c =? 0)%float && is_finite c); [| reflexivity].
    symmetry. exact (float_add_nan_l t c H).
  - (* the total is a zero *)
    rewrite Hlost.
    assert (Ht : (t =? 0)%float = true) by (apply float_is_zero; eauto).
    assert (Ht0 : (t + 0 =? 0)%float = true)
      by (apply float_zero_add_zero; [exact Ht | reflexivity]).
    destruct (float_add_0_r c) as [-> | [Hc Hc0]].
    + destruct ((c =? 0)%float) eqn:Hc; cbn [negb andb].
      * right. split; assumption.
      * destruct (is_finite c); [| right; split; assumption].
        left. f_equal.
        rewrite (float_zero_add t c Ht Hc), (float_zero_add _ c Ht0 Hc).
        reflexivity.
    + rewrite Hc, Hc0. cbn [negb andb]. right. split; assumption.
  - (* the total is an infinity *)
    rewrite (float_add_nan_r c _ Hlost).
    rewrite (float_is_finite (lost_in_adding t 0)), Hlost, andb_false_r.
    assert (Ht0 : (t + 0)%float = t)
      by (apply (float_infinity_add t 0 s H); reflexivity).
    rewrite Ht0. left. f_equal.
    destruct (negb (c =? 0)%float); cbn [andb]; [| reflexivity].
    destruct (is_finite c) eqn:Hc; [| reflexivity].
    symmetry. exact (float_infinity_add t c s H Hc).
  - (* the total is finite and not zero *)
    rewrite Hlost.
    assert (Ht0 : (t + 0)%float = t).
    { apply Prim2SF_inj. rewrite add_spec, H. reflexivity. }
    rewrite Ht0.
    destruct (float_add_0_r c) as [-> | [Hc Hc0]]; [left; reflexivity |].
    rewrite Hc, Hc0. left. reflexivity.
Qed.

(** An account at balance 0.0 more leaves the sum of the balances the same
    number. *)
Lemma py_sum_with_zero (compensated : bool) (bs : list float) :
  same_number (py_sum compensated (bs ++ [0%float])) (py_sum compensated bs).
Proof.
  destruct bs as [| x0 l].
  - right. destruct compensated; split; reflexivity.
  - cbn [app py_sum]. rewrite !fold_left_app. cbn [fold_left].
    destruct compensated.
    + destruct (fold_left compensated_step l _) as [t c].
      rewrite compensated_step_eq. apply compensated_zero_step.
    + destruct (float_add_0_r
                  (fold_left PrimFloat.add l (float_of_int 0 + x0)%float))
        as [-> | [Hz Hz0]]; [left; reflexivity |].
      right. split; assumption.
Qed.

(** The same number of balances gives the same net worth. *)
Lemma py_add_same (compensated : bool) (a b : number) (values : list float) :
  same_number a b ->
  same_number (py_add a (py_sum compensated values))
              (py_add b (py_sum compensated values)).
Proof.
  intros [-> | [Ha Hb]]; [left; reflexivity |].
  assert (Hzero : forall n : number,
            is_zero_number n = true ->
            exists z : float,
              (z =? 0)%float = true
              /\ forall y : float, py_add n (Float y) = Float (z + y)
              /\ (n = Int 0 \/ n = Float z)).
  { intros [n | x] Hn; cbn in Hn.
    - apply Z.eqb_eq in Hn. subst n. exists 0%float.
      split; [reflexivity |]. intros y. split; [reflexivity | left; reflexivity].
    - exists x. split; [exact Hn |]. intros y.
      split; [reflexivity | right; reflexivity]. }
  destruct (Hzero a Ha) as (za & Hza & Hadd_a).
  destruct (Hzero b Hb) as (zb & Hzb & Hadd_b).
  destruct (py_sum compensated values) as [n | y] eqn:Hsum.
  - (* no investment: the int 0 *)
    assert (n = 0) as ->.
    { destruct values as [| v values]; [inversion Hsum; reflexivity |].
      unfold py_sum in Hsum. destruct compensated;
        [destruct (fold_left _ _ _) |]; discriminate. }
    right. split.
    + destruct (proj2 (Hadd_a 0%float)) as [-> | ->]; [reflexivity |].
      cbn. apply float_zero_add_zero; [exact Hza | reflexivity].
    + destruct (proj2 (Hadd_b 0%float)) as [-> | ->]; [reflexivity |].
      cbn. apply float_zero_add_zero; [exact Hzb | reflexivity].
  - rewrite (proj1 (Hadd_a y)), (proj1 (Hadd_b y)).
    destruct ((y =? 0)%float) eqn:Hy.
    + right. cbn. split; apply float_zero_add_zero; assumption.
    + left. rewrite (float_zero_add za y Hza Hy), (float_zero_add zb y Hzb Hy).
      reflexivity.
Qed.

(** ** Clients *)

Lemma calculate_value_same_market (self : investment_ref) (w w1 : World) :
  same_market w w1 ->
  (calculate_value py self w1).1 = (calculate_value py self w).1
  /\ same_market (calculate_value py self w).2 (calculate_value py self w1).2.
Proof.
  intros (Hc & Ht & Hi). unfold calculate_value. run_m.
  rewrite Hc, Ht, Hi.
  destruct (investment_heap w !! self) as [i |]; run_m.
  - rewrite Hc.
    destruct (py_pow py _ _); cbn; repeat split; cbn; congruence.
  - cbn. repeat split; cbn; congruence.
Qed.

Lemma map_m_calculate_value_same_market (l : list investment_ref) :
  forall w w1 : World,
    same_market w w1 ->
    (map_m (calculate_value py) l w1).1 = (map_m (calculate_value py) l w).1.
Proof.
  induction l as [| i l IH]; intros w w1 Hsame; [reflexivity |].
  cbn [map_m]. rewrite !bind_run.
  destruct (calculate_value_same_market i w w1 Hsame) as [Hout Hnext].
  destruct (calculate_value py i w) as [o w'],
           (calculate_value py i w1) as [o1 w1'].
  cbn [fst snd] in *. subst o1. destruct o as [v | e]; [| reflexivity].
  rewrite !bind_run. specialize (IH w' w1' Hnext).
  destruct (map_m (calculate_value py) l w') as [o2 w2],
           (map_m (calculate_value py) l w1') as [o3 w3].
  cbn [fst] in IH. subst o3. destruct o2; reflexivity.
Qed.

(** X9. [add_account] makes a new account (at a location no account had,
    whatever the names of the accounts there are), with balance 0 and an
    empty ledger, and puts it last in the list of the client.  The net worth
    of the client is what it was. *)
Theorem add_account_keeps_net_worth
    (w : World) (self : client_ref) (c : Client.t) (account_name : string)
    (balances : list float) :
  client_heap w !! self = Some c ->
  Forall2 (λ r b, Account.balance <$> account_heap w !! r = Some b)
          (Client.accounts c) balances ->
  exists w1 : World,
    add_account self account_name w = (Ok (length (account_heap w)), w1)
    /\ account_heap w !! length (account_heap w) = None
    /\ account_heap w1 !! length (account_heap w)
       = Some (Account.mk account_name 0 [])
    /\ client_heap w1 !! self
       = Some (Client.mk (Client.name c)
                 (Client.accounts c ++ [length (account_heap w)])
                 (Client.investments c))
    /\ forall N : number,
         (get_net_worth py self w).1 = Ok N ->
         exists N' : number,
           (get_net_worth py self w1).1 = Ok N' /\ same_number N' N.
Proof.
  intros Hc Hbal. eexists.
  split; [exact (add_account_run self c account_name w Hc) |].
  split; [apply lookup_ge_None; lia |].
  split; [cbn; apply lookup_new |].
  split.
  { cbn. apply list_lookup_insert_eq. eapply lookup_lt_Some. exact Hc. }
  intros N HN.
  rewrite (get_net_worth_run w self c balances Hc Hbal) in HN.
  match goal with |- context [get_net_worth py self ?w1] =>
    pose proof (get_net_worth_run w1 self
                  (Client.mk (Client.name c)
                     (Client.accounts c ++ [length (account_heap w)])
                     (Client.investments c))
                  (balances ++ [0%float])) as Hrun;
    pose proof (map_m_calculate_value_same_market (Client.investments c)
                  w w1 ltac:(repeat split)) as Hsame
  end.
  rewrite Hrun; clear Hrun.
  - cbn [Client.investments].
    destruct (map_m (calculate_value py) (Client.investments c) w)
      as [[values | e] w'];
      destruct (map_m (calculate_value py) (Client.investments c) _)
        as [[values1 | e1] w1']; cbn [fst] in *; try discriminate.
    inversion Hsame; subst values1. inversion HN; subst N.
    eexists. split; [reflexivity |].
    apply py_add_same, py_sum_with_zero.
  - cbn. apply list_lookup_insert_eq. eapply lookup_lt_Some. exact Hc.
  - cbn. apply Forall2_app.
    + eapply Forall2_impl; [exact Hbal |]. intros r b Hr. cbn beta in *.
      destruct (account_heap w !! r) as [a |] eqn:Ha; [| discriminate].
      rewrite (lookup_app_l_Some _ _ _ _ Ha). exact Hr.
    + constructor; [| constructor]. rewrite lookup_new. reflexivity.
Qed.

(** X10. [add_investment] makes the investment count in the net worth of the
    client it is added to, whatever client the investment was made for and
    whether or not it is in the list already (an investment added twice is
    counted twice): the next [get_net_worth] values the investments listed
    before and then the one added, and returns the sum of the balances plus
    the sum of these values (or raises what the first failing valuation
    raises). *)
Theorem add_investment_counts
    (w : World) (self : client_ref) (c : Client.t)
    (investment : investment_ref) (inv : Investment.t)
    (balances : list float) (invs : list Investment.t) :
  client_heap w !! self = Some c ->
  Forall2 (λ r b, Account.balance <$> account_heap w !! r = Some b)
          (Client.accounts c) balances ->
  Forall2 (λ r i, investment_heap w !! r = Some i) (Client.investments c) invs ->
  investment_heap w !! investment = Some inv ->
  match values_from py (clock w) (ticks w) (invs ++ [inv]) with
  | Ok values =>
      exists total_balance total_value : number,
        sums_to (compensated_sum py) balances total_balance
        /\ sums_to (compensated_sum py) values total_value
        /\ ((add_investment self investment;; get_net_worth py self) w).1
           = Ok (py_add total_balance total_value)
  | Raise e =>
      ((add_investment self investment;; get_net_worth py self) w).1 = Raise e
  end.
Proof.
  intros Hc Hbal Hinvs Hinv.
  assert (Hadd : add_investment self investment w =
                 (Ok tt,
                  set_client_heap
                    (<[self := Client.mk (Client.name c) (Client.accounts c)
                                 (Client.investments c ++ [investment])]>
                       (client_heap w)) w)).
  { unfold add_investment. run_m. rewrite Hc. reflexivity. }
  rewrite (bind_ok _ _ _ _ _ Hadd).
  rewrite (get_net_worth_explicit _ self
             (Client.mk (Client.name c) (Client.accounts c)
                        (Client.investments c ++ [investment]))
             balances (invs ++ [inv])).
  - cbn [clock ticks set_client_heap].
    destruct (values_from py (clock w) (ticks w) (invs ++ [inv]))
      as [values | e]; [| reflexivity].
    eexists _, _. split; [apply py_sum_sums_to |].
    split; [apply py_sum_sums_to | reflexivity].
  - cbn. apply list_lookup_insert_eq. eapply lookup_lt_Some. exact Hc.
  - exact Hbal.
  - cbn. apply Forall2_app; [exact Hinvs |].
    constructor; [exact Hinv | constructor].
Qed.

Lemma balances_frame (h : list Account.t) (account : account_ref)
    (x : Account.t) (l : list account_ref) (bs : list float) :
  account ∉ l ->
  Forall2 (λ r b, Account.balance <$> h !! r = Some b) l bs ->
  Forall2 (λ r b, Account.balance <$> <[account := x]> h !! r = Some b) l bs.
Proof.
  intros Hnot Hall. induction Hall as [| r b l bs Hr Hrest IH].
  - constructor.
  - apply not_elem_of_cons in Hnot as [Hne Hnot].
    constructor; [| exact (IH Hnot)].
    rewrite list_lookup_insert_ne by congruence. exact Hr.
Qed.

(** X11. A sale takes nothing out of the list of investments.  Right after
    [sell] has credited one of the accounts of a client with the proceeds
    [V], [get_net_worth] adds up the balances, the one of that account now
    being its balance before plus [V], and values every investment of the
    client as listed before the sale: the investment sold, if it was
    listed, is still listed and still valued, on top of its proceeds. *)
Theorem sell_keeps_investment_in_net_worth
    (w : World) (self : client_ref) (c : Client.t)
    (investment : investment_ref) (account : account_ref) (a : Account.t)
    (V : float) (pre post : list account_ref) (bpre bpost : list float)
    (invs : list Investment.t) :
  client_heap w !! self = Some c ->
  Client.accounts c = (pre ++ account :: post)%list ->
  account ∉ pre -> account ∉ post ->
  Forall2 (λ r b, Account.balance <$> account_heap w !! r = Some b) pre bpre ->
  account_heap w !! account = Some a ->
  Forall2 (λ r b, Account.balance <$> account_heap w !! r = Some b) post bpost ->
  Forall2 (λ r i, investment_heap w !! r = Some i) (Client.investments c) invs ->
  (calculate_value py investment w).1 = Ok V ->
  match values_from py (clock w) (3 + ticks w) invs with
  | Ok values =>
      exists total_balance total_value : number,
        sums_to (compensated_sum py)
                (bpre ++ (Account.balance a + V)%float :: bpost) total_balance
        /\ sums_to (compensated_sum py) values total_value
        /\ ((sell py investment account;; get_net_worth py self) w).1
           = Ok (py_add total_balance total_value)
  | Raise e =>
      ((sell py investment account;; get_net_worth py self) w).1 = Raise e
  end.
Proof.
  intros Hc Haccs Hpre Hpost Hbpre Ha Hbpost Hinvs HV.
  destruct (calculate_value py investment w) as [o w1] eqn:Hcv.
  cbn [fst] in HV. subst o.
  destruct (calculate_value_inv _ _ _ _ Hcv) as [Hw1 (i & Hi & _)].
  pose proof (sell_run _ _ _ _ _ _ _ Hi Ha Hcv) as Hsell.
  rewrite (bind_ok _ _ _ _ _ Hsell).
  assert (Hlt : (account < length (account_heap w))%nat)
    by (eapply lookup_lt_Some; exact Ha).
  rewrite (get_net_worth_explicit _ self c
             (bpre ++ (Account.balance a + V)%float :: bpost) invs).
  - subst w1. cbn [clock ticks credited set_ticks].
    change (3 + ticks w)%nat with (S (S (S (ticks w)))).
    destruct (values_from py (clock w) (S (S (S (ticks w)))) invs)
      as [values | e]; [| reflexivity].
    eexists _, _. split; [apply py_sum_sums_to |].
    split; [apply py_sum_sums_to | reflexivity].
  - subst w1. exact Hc.
  - subst w1. unfold credited. cbn [account_heap set_ticks]. rewrite Haccs.
    apply Forall2_app; [apply balances_frame; assumption |].
    constructor; [| apply balances_frame; assumption].
    rewrite list_lookup_insert_eq by exact Hlt. reflexivity.
  - subst w1. exact Hinvs.
Qed.
(** ** What [update] leaves alone *)

Lemma update_frame (self : tx_ref)
    (attributes : list (string * value)) :
  forall w : World,
    let w' := (update py self attributes w).2 in
    clock w' = clock w
    /\ ticks w' = ticks w
    /\ account_heap w' = account_heap w
    /\ investment_heap w' = investment_heap w
    /\ client_heap w' = client_heap w
    /\ length (transaction_heap w') = length (transaction_heap w)
    /\ forall r : tx_ref,
         r <> self -> transaction_heap w' !! r = transaction_heap w !! r.
Proof.
  intros w. cbn zeta. unfold update.
  destruct (bool_decide _); [cbn; repeat split |].
  revert w. induction attributes as [| [key v] rest IH]; intros w.
  - cbn. repeat split.
  - cbn [for_each].
    match goal with |- context [for_each rest ?b] => set (body := b) end.
    rewrite bind_run. rewrite bind_run. unfold get_transaction, deref.
    destruct (transaction_heap w !! self) as [t |] eqn:Ht;
      [| cbn; repeat split].
    destruct (hasattr py t key).
    + rewrite bind_run. unfold lift.
      destruct (setattr t key v) as [t' | e]; [| cbn; repeat split].
      unfold put_transaction.
      destruct (IH (set_transaction_heap
                      (<[self := t']> (transaction_heap w)) w))
        as (Hc & Hk & Ha & Hi & Hcl & Hlen & Hother).
      cbn [clock ticks account_heap investment_heap client_heap
           transaction_heap set_transaction_heap] in *.
      rewrite length_insert in Hlen. subst body.
      repeat split; try assumption.
      intros r Hr. rewrite (Hother r Hr).
      apply list_lookup_insert_ne. congruence.
    + unfold mret at 1, M_ret at 1. apply IH.
Qed.

(** X12. [update] changes nothing but the transaction it is called on:
    whatever the mapping, and whether it returns or raises, the accounts
    (so every balance), the investments, the clients, the clock and all the
    other transactions are what they were, and no transaction is made or
    lost.  In particular, rewriting an amount does not adjust the balance of
    the account that holds the transaction. *)
Theorem update_changes_only_its_transaction
    (self : tx_ref) (attributes : list (string * value)) (w : World) :
  clock (update py self attributes w).2 = clock w
  /\ ticks (update py self attributes w).2 = ticks w
  /\ account_heap (update py self attributes w).2 = account_heap w
  /\ investment_heap (update py self attributes w).2
     = investment_heap w
  /\ client_heap (update py self attributes w).2 = client_heap w
  /\ length (transaction_heap (update py self attributes w).2)
     = length (transaction_heap w)
  /\ forall r : tx_ref,
       r <> self ->
       transaction_heap (update py self attributes w).2 !! r
       = transaction_heap w !! r.
Proof. exact (update_frame self attributes w). Qed.

(** ** Invariants of sessions *)

(** X13. In every session that starts in a store without accounts and in
    which no [update] names [amount], whatever calls are made and in
    whatever order (also through [sell], and when calls raise), the balance
    of every account is what the amounts of the transactions of its ledger
    give when they are added to 0.0 in ledger order, one float addition
    each. *)
Theorem balances_follow_ledgers
    (calls : list call) (w : World) (r : account_ref) (a : Account.t) :
  account_heap w = [] ->
  Forall (keeps_attribute "amount") calls ->
  account_heap (session py calls w) !! r = Some a ->
  exists xs : list float,
    ledger_amounts (session py calls w) a
    = map (λ x, Some (VFloat x)) xs
    /\ Account.balance a = added_in_turn 0 xs.
Proof.
  intros Hempty Hkeep Hr.
  assert (Hbal : ledgers_balanced w).
  { intros r0 a0 H0. rewrite Hempty in H0. inversion H0. }
  exact (balance_matches_ledger calls w Hkeep Hbal r a Hr).
Qed.

Lemma store_grows_refl (w : World) : store_grows w w.
Proof.
  split; [intros r i Hr; exact Hr | split; [| split; [| intros r Hr; exact Hr]]].
  - intros r a Ha. exists a. repeat split; [exact Ha | reflexivity].
  - intros r c Hc. exists c. repeat split; [exact Hc | reflexivity ..].
Qed.

Lemma store_grows_trans (w1 w2 w3 : World) :
  store_grows w1 w2 -> store_grows w2 w3 -> store_grows w1 w3.
Proof.
  intros (Hi1 & Ha1 & Hc1 & Ht1) (Hi2 & Ha2 & Hc2 & Ht2).
  split; [| split; [| split]].
  - intros r i Hr. apply Hi2, Hi1, Hr.
  - intros r a Hr. destruct (Ha1 r a Hr) as (a' & Hr' & Hn' & Hp').
    destruct (Ha2 r a' Hr') as (a'' & Hr'' & Hn'' & Hp'').
    exists a''. repeat split; [exact Hr'' | congruence |].
    etransitivity; eassumption.
  - intros r c Hr. destruct (Hc1 r c Hr) as (c' & Hr' & Hn' & Hp' & Hq').
    destruct (Hc2 r c' Hr') as (c'' & Hr'' & Hn'' & Hp'' & Hq'').
    exists c''. repeat split; [exact Hr'' | congruence | |];
      etransitivity; eassumption.
  - intros r Hr. apply Ht2, Ht1, Hr.
Qed.

Lemma store_grows_set_ticks (w : World) (n : nat) :
  store_grows w (set_ticks n w).
Proof. unfold store_grows. cbn. exact (store_grows_refl w). Qed.

Lemma store_grows_new_client (w : World) (c : Client.t) :
  store_grows w (set_client_heap (client_heap w ++ [c]) w).
Proof.
  destruct (store_grows_refl w) as (Hi & Ha & _ & Ht).
  split; [exact Hi | split; [exact Ha | split; [| exact Ht]]].
  intros r c0 Hr. exists c0. cbn.
  repeat split; [apply lookup_app_l_Some; exact Hr | reflexivity ..].
Qed.

Lemma store_grows_new_account (w : World) (a : Account.t) :
  store_grows w (set_account_heap (account_heap w ++ [a]) w).
Proof.
  destruct (store_grows_refl w) as (Hi & _ & Hc & Ht).
  split; [exact Hi | split; [| split; [exact Hc | exact Ht]]].
  intros r a0 Hr. exists a0. cbn.
  repeat split; [apply lookup_app_l_Some; exact Hr | reflexivity].
Qed.

Lemma store_grows_new_investment (w : World) (i : Investment.t) :
  store_grows w (set_investment_heap (investment_heap w ++ [i]) w).
Proof.
  destruct (store_grows_refl w) as (_ & Ha & Hc & Ht).
  split; [| split; [exact Ha | split; [exact Hc | exact Ht]]].
  intros r i0 Hr. cbn. apply lookup_app_l_Some. exact Hr.
Qed.

Lemma store_grows_new_transaction (w : World) (t : Transaction.t) :
  store_grows w (set_transaction_heap (transaction_heap w ++ [t]) w).
Proof.
  destruct (store_grows_refl w) as (Hi & Ha & Hc & _).
  split; [exact Hi | split; [exact Ha | split; [exact Hc |]]].
  intros r [t0 Hr]. exists t0. cbn. apply lookup_app_l_Some. exact Hr.
Qed.

Lemma store_grows_put_client (w : World) (self : client_ref)
    (c c' : Client.t) :
  client_heap w !! self = Some c ->
  Client.name c' = Client.name c ->
  Client.accounts c `prefix_of` Client.accounts c' ->
  Client.investments c `prefix_of` Client.investments c' ->
  store_grows w (set_client_heap (<[self := c']> (client_heap w)) w).
Proof.
  intros Hself Hn Hp Hq.
  destruct (store_grows_refl w) as (Hi & Ha & Hc & Ht).
  split; [exact Hi | split; [exact Ha | split; [| exact Ht]]].
  intros r c0 Hr. cbn. destruct (decide (r = self)) as [-> | Hne].
  - exists c'. rewrite Hself in Hr. inversion Hr; subst c0.
    repeat split; try assumption.
    apply list_lookup_insert_eq. eapply lookup_lt_Some. exact Hself.
  - exists c0. rewrite list_lookup_insert_ne by congruence.
    repeat split; [exact Hr | reflexivity ..].
Qed.

Lemma store_grows_credited (w : World) (self : account_ref) (a : Account.t)
    (amount : float) (category : Z) (description : string) :
  account_heap w !! self = Some a ->
  store_grows w (credited self a amount category description w).
Proof.
  intros Hself.
  destruct (store_grows_refl w) as (Hi & Ha & Hc & Ht).
  split; [exact Hi | split; [| split; [exact Hc |]]].
  - intros r a0 Hr. unfold credited. cbn [account_heap].
    destruct (decide (r = self)) as [-> | Hne].
    + eexists. rewrite Hself in Hr. inversion Hr; subst a0.
      split; [apply list_lookup_insert_eq; eapply lookup_lt_Some; exact Hself |].
      split; [reflexivity |]. cbn. apply prefix_app_r. reflexivity.
    + exists a0. rewrite list_lookup_insert_ne by congruence.
      repeat split; [exact Hr | reflexivity].
  - intros r [t0 Hr]. exists t0. unfold credited. cbn [transaction_heap].
    apply lookup_app_l_Some. exact Hr.
Qed.

Lemma store_grows_add_transaction (self : account_ref)
    (amount : float) (category : Z) (description : string) (w : World) :
  store_grows w (add_transaction self amount category description w).2.
Proof.
  destruct (account_heap w !! self) as [a |] eqn:Ha.
  - rewrite (add_transaction_run self a amount category description w Ha).
    apply store_grows_credited. exact Ha.
  - rewrite add_transaction_dangling by exact Ha.
    eapply store_grows_trans; [apply (store_grows_set_ticks w (S (ticks w))) |].
    exact (store_grows_new_transaction (set_ticks (S (ticks w)) w) _).
Qed.

(** No call removes or rewrites what the store holds. *)
Lemma perform_grows (c : call) (w : World) :
  store_grows w (perform py c w).2.
Proof.
  destruct c; cbn [perform]; rewrite ?then_ret_snd.
  - (* Client_init *)
    apply store_grows_new_client.
  - (* add_account *)
    unfold add_account. rewrite bind_run, Account_init_run.
    rewrite bind_run. unfold get_client, deref.
    cbn [client_heap set_account_heap].
    destruct (client_heap w !! self) as [cl |] eqn:Hcl; cbn [snd].
    + eapply store_grows_trans; [apply store_grows_new_account |].
      rewrite then_ret_snd.
      apply (store_grows_put_client
               (set_account_heap (account_heap w ++ [Account.mk account_name 0 []]) w)
               self cl); [exact Hcl | reflexivity | | reflexivity].
      cbn. apply prefix_app_r. reflexivity.
    + apply store_grows_new_account.
  - (* add_investment *)
    unfold add_investment. rewrite bind_run. unfold get_client, deref.
    destruct (client_heap w !! self) as [cl |] eqn:Hcl; cbn [snd].
    + apply (store_grows_put_client w self cl);
        [exact Hcl | reflexivity | reflexivity |].
      cbn. apply prefix_app_r. reflexivity.
    + apply store_grows_refl.
  - (* get_net_worth *)
    destruct (get_net_worth_ticks self w) as (n & _ & ->).
    apply store_grows_set_ticks.
  - (* Account_init *)
    apply store_grows_new_account.
  - (* add_transaction *)
    apply store_grows_add_transaction.
  - (* get_transactions *)
    rewrite get_transactions_readonly. apply store_grows_refl.
  - (* Investment_init *)
    unfold Investment_init. run_m.
    eapply store_grows_trans; [apply (store_grows_set_ticks w (S (ticks w))) |].
    apply (store_grows_new_investment (set_ticks (S (ticks w)) w)).
  - (* calculate_value *)
    destruct (calculate_value_ticks self w) as (n & _ & ->).
    apply store_grows_set_ticks.
  - (* sell *)
    unfold sell. rewrite bind_run.
    destruct (calculate_value_ticks self w) as (n & _ & Hw).
    destruct (calculate_value py self w) as [[V | e] w1]; cbn [snd] in Hw; subst w1;
      [| apply store_grows_set_ticks].
    rewrite bind_run. unfold get_investment, deref.
    destruct (investment_heap (set_ticks n w) !! self) as [i |];
      [| apply store_grows_set_ticks].
    rewrite then_ret_snd.
    eapply store_grows_trans; [apply (store_grows_set_ticks w n) |].
    apply store_grows_add_transaction.
  - (* update *)
    unfold call_update. rewrite bind_run. unfold get_transaction, deref.
    destruct (transaction_heap w !! self) as [t |]; [| apply store_grows_refl].
    destruct (Transaction.extra t !! "update"); [apply store_grows_refl |].
    destruct (update_frame self attributes w)
      as (_ & _ & Ha & Hi & Hc & Hlen & _).
    destruct (store_grows_refl w) as (Hi0 & Ha0 & Hc0 & _).
    split; [rewrite Hi; exact Hi0 |].
    split; [rewrite Ha; exact Ha0 |].
    split; [rewrite Hc; exact Hc0 |].
    intros r Hr. apply lookup_lt_is_Some. rewrite Hlen.
    apply lookup_lt_is_Some. exact Hr.
Qed.

Lemma session_grows (calls : list call) :
  forall w : World, store_grows w (session py calls w).
Proof.
  induction calls as [| c calls IH]; intros w.
  - apply store_grows_refl.
  - cbn. eapply store_grows_trans; [apply (perform_grows c w) |].
    apply IH.
Qed.

(** X14. No method rewrites an investment: through any session of calls,
    in any order and also when calls raise, every investment of the store
    keeps its type, amount, date of purchase, rate of return and client. *)
Theorem investments_never_change
    (calls : list call) (w : World) (r : investment_ref) (i : Investment.t) :
  investment_heap w !! r = Some i ->
  investment_heap (session py calls w) !! r = Some i.
Proof.
  intros Hr.
  destruct (session_grows calls w) as (Hi & _).
  exact (Hi r i Hr).
Qed.

(** X15. No method removes anything: through any session of calls, an
    account keeps its name and its ledger is only extended at the end, a
    client keeps its name and its lists of accounts and of investments are
    only extended at the end, and every transaction stays in the store. *)
Theorem nothing_is_ever_removed (calls : list call) (w : World) :
  (forall (r : account_ref) (a : Account.t),
      account_heap w !! r = Some a ->
      exists a' : Account.t,
        account_heap (session py calls w) !! r = Some a'
        /\ Account.name a' = Account.name a
        /\ Account.transactions a `prefix_of` Account.transactions a')
  /\ (forall (r : client_ref) (c : Client.t),
        client_heap w !! r = Some c ->
        exists c' : Client.t,
          client_heap (session py calls w) !! r = Some c'
          /\ Client.name c' = Client.name c
          /\ Client.accounts c `prefix_of` Client.accounts c'
          /\ Client.investments c `prefix_of` Client.investments c')
  /\ (forall r : tx_ref,
        is_Some (transaction_heap w !! r) ->
        is_Some (transaction_heap (session py calls w) !! r)).
Proof.
  destruct (session_grows calls w) as (_ & Ha & Hc & Ht).
  split; [exact Ha | split; [exact Hc | exact Ht]].
Qed.

(** The shape of a call, with nothing asked of its arguments. *)
Lemma perform_shape_any (c : call) (w : World) :
  advances (λ _, VNone) w (perform py c w).2
  \/ exists (w1 : World) (self : account_ref) (a : Account.t)
            (amount : float) (category : Z) (description : string),
       advances (λ _, VNone) w w1
       /\ account_heap w1 !! self = Some a
       /\ (perform py c w).2
          = credited self a amount category description w1.
Proof.
  apply (perform_shape (λ _, VNone)
           (fresh match c with
                  | Call_update _ attributes => attributes.*1
                  | _ => []
                  end)).
  - reflexivity.
  - destruct c; cbn [keeps_attribute]; try exact I.
    apply infinite_is_fresh.
Qed.

Lemma advances_keeps_separate (attr : Transaction.t -> value) (w w' : World) :
  advances attr w w' -> ledgers_separate w -> ledgers_separate w'.
Proof.
  intros (_ & _ & Ht & Ha) [Hlive Hsep]. split.
  - intros r a Hr. destruct (Ha r a Hr) as [Hold | [Hempty _]].
    + eapply Forall_impl; [exact (Hlive r a Hold) |].
      intros x [t Hx]. destruct (Ht x t Hx) as (t' & Hx' & _). eauto.
    + rewrite Hempty. constructor.
  - intros r1 r2 a1 a2 i j x H1 H2 Hi Hj.
    destruct (Ha r1 a1 H1) as [Hold1 | [Hempty _]];
      [| rewrite Hempty in Hi; inversion Hi].
    destruct (Ha r2 a2 H2) as [Hold2 | [Hempty _]];
      [| rewrite Hempty in Hj; inversion Hj].
    exact (Hsep r1 r2 a1 a2 i j x Hold1 Hold2 Hi Hj).
Qed.

Lemma credited_keeps_separate (self : account_ref) (a : Account.t)
    (amount : float) (category : Z) (description : string) (w : World) :
  ledgers_separate w ->
  account_heap w !! self = Some a ->
  ledgers_separate (credited self a amount category description w).
Proof.
  intros [Hlive Hsep] Ha.
  assert (Hlt : (self < length (account_heap w))%nat)
    by (eapply lookup_lt_Some; exact Ha).
  assert (Hfresh : forall (r : account_ref) (b : Account.t) (k : nat),
             account_heap w !! r = Some b ->
             Account.transactions b !! k = Some (length (transaction_heap w)) ->
             False).
  { intros r b k Hr Hk. pose proof (Hlive r b Hr) as Hb.
    unfold all_live in Hb. rewrite Forall_lookup in Hb.
    destruct (Hb k _ Hk) as [t Ht]. apply lookup_lt_Some in Ht. lia. }
  assert (Hacc : forall (r : account_ref) (b : Account.t),
             account_heap (credited self a amount category description w) !! r
             = Some b ->
             (r = self
              /\ Account.transactions b
                 = (Account.transactions a ++ [length (transaction_heap w)])%list)
             \/ (r <> self /\ account_heap w !! r = Some b)).
  { intros r b Hr. unfold credited in Hr. cbn [account_heap] in Hr.
    destruct (decide (r = self)) as [-> | Hne].
    - rewrite list_lookup_insert_eq in Hr by exact Hlt.
      inversion Hr. left. split; reflexivity.
    - rewrite list_lookup_insert_ne in Hr by congruence. right. tauto. }
  split.
  - intros r b Hr. destruct (Hacc r b Hr) as [[-> Hb] | [Hne Hold]].
    + rewrite Hb. apply all_live_credited. exact (Hlive self a Ha).
    + eapply Forall_impl; [exact (Hlive r b Hold) |].
      intros x [t Hx]. exists t. unfold credited. cbn [transaction_heap].
      apply lookup_app_l_Some. exact Hx.
  - intros r1 r2 a1 a2 i j x H1 H2 Hi Hj.
    destruct (Hacc r1 a1 H1) as [[-> Hb1] | [Hne1 Hold1]];
      destruct (Hacc r2 a2 H2) as [[-> Hb2] | [Hne2 Hold2]].
    + split; [reflexivity |]. rewrite Hb1 in Hi. rewrite Hb2 in Hj.
      apply lookup_snoc_Some in Hi as [[_ Hi] | [-> <-]];
        apply lookup_snoc_Some in Hj as [[_ Hj] | [-> Hx]].
      * exact (proj2 (Hsep self self a a i j x Ha Ha Hi Hj)).
      * subst x. destruct (Hfresh self a i Ha Hi).
      * destruct (Hfresh self a j Ha Hj).
      * reflexivity.
    + rewrite Hb1 in Hi.
      apply lookup_snoc_Some in Hi as [[_ Hi] | [-> <-]].
      * destruct (Hsep self r2 a a2 i j x Ha Hold2 Hi Hj) as [E _].
        congruence.
      * destruct (Hfresh r2 a2 j Hold2 Hj).
    + rewrite Hb2 in Hj.
      apply lookup_snoc_Some in Hj as [[_ Hj] | [-> <-]].
      * destruct (Hsep r1 self a1 a i j x Hold1 Ha Hi Hj) as [E _].
        congruence.
      * destruct (Hfresh r1 a1 i Hold1 Hi).
    + exact (Hsep r1 r2 a1 a2 i j x Hold1 Hold2 Hi Hj).
Qed.

Lemma session_keeps_separate (calls : list call) :
  forall w : World,
    ledgers_separate w -> ledgers_separate (session py calls w).
Proof.
  induction calls as [| c calls IH]; intros w Hsep; [exact Hsep |].
  cbn. apply IH.
  destruct (perform_shape_any c w)
    as [Hadv | (w1 & self & a & amount & category & description
                & Hadv & Ha & ->)].
  - exact (advances_keeps_separate _ _ _ Hadv Hsep).
  - apply credited_keeps_separate; [| exact Ha].
    exact (advances_keeps_separate _ _ _ Hadv Hsep).
Qed.

(** X16. Ledgers never share a transaction.  In every session that starts
    in a store without accounts, whatever the calls, every reference of a
    ledger is to a transaction of the store, and a transaction that is at
    position [i] of the ledger of one account and at position [j] of the
    ledger of another is the same entry of the same account. *)
Theorem ledgers_never_share (calls : list call) (w : World) :
  account_heap w = [] ->
  ledgers_separate (session py calls w).
Proof.
  intros Hempty. apply session_keeps_separate. split.
  - intros r a Hr. rewrite Hempty in Hr. inversion Hr.
  - intros r1 r2 a1 a2 i j x H1. rewrite Hempty in H1. inversion H1.
Qed.

Lemma dated_credited (w : World) (self : account_ref) (a : Account.t)
    (amount : float) (category : Z) (description : string) :
  dated w (Account.transactions a) ->
  dated (credited self a amount category description w)
        (Account.transactions a ++ [length (transaction_heap w)]).
Proof.
  intros Hd. unfold dated, credited. cbn [transaction_heap].
  apply Forall_app. split.
  - eapply Forall_impl; [exact Hd |].
    intros r (t & d & Ht & Hdate). exists t, d.
    split; [apply lookup_app_l_Some; exact Ht | exact Hdate].
  - constructor; [| constructor]. eexists _, _.
    split; [apply lookup_new | reflexivity].
Qed.

(** X17. What is added is found.  After [add_transaction], a query of the
    same account returns what it returned before, followed by the new
    transaction if that one passes the filters of the query (its date, the
    reading of the clock at the call, within the bounds; its category the
    one asked for, or category 0 or no category asked for), and by nothing
    if it does not. *)
Theorem add_transaction_then_get_transactions
    (w : World) (self : account_ref) (a : Account.t)
    (amount : float) (category : Z) (description : string)
    (start_date end_date : option datetime) (wanted : option Z) :
  account_heap w !! self = Some a ->
  dated w (Account.transactions a) ->
  (add_transaction self amount category description;;
   get_transactions self start_date end_date wanted) w
  = (Ok (List.filter (selected w start_date end_date wanted)
                     (Account.transactions a)
         ++ (if passes (clock w (ticks w)) category
                       start_date end_date wanted
             then [length (transaction_heap w)] else []))%list,
     credited self a amount category description w).
Proof.
  intros Ha Hd.
  rewrite (bind_ok _ _ _ _ _
             (add_transaction_run self a amount category description w Ha)).
  erewrite get_transactions_filter_run;
    [| unfold credited; cbn [account_heap]; apply list_lookup_insert_eq;
       eapply lookup_lt_Some; exact Ha
     | cbn [Account.transactions]; apply dated_credited; exact Hd].
  f_equal. f_equal. cbn [Account.transactions].
  rewrite List.filter_app. f_equal.
  - apply filter_ext_in. intros r Hr.
    unfold dated in Hd. rewrite Forall_forall in Hd.
    destruct (Hd r) as (t & d & Ht & _); [apply list_elem_of_In; exact Hr |].
    unfold selected, credited. cbn [transaction_heap].
    rewrite (lookup_app_l_Some _ _ _ _ Ht), Ht. reflexivity.
  - cbn [List.filter]. unfold selected, credited. cbn [transaction_heap].
    rewrite lookup_new. unfold passes.
    cbn [Transaction.date Transaction.category date_in py_eq_int].
    match goal with |- (if ?b then _ else _) = (if ?b' then _ else _) =>
      replace b' with b; [reflexivity |]
    end.
    destruct start_date, end_date, wanted; reflexivity.
Qed.

(** ** Composing calls *)

(** X18. A client that has just been made is worth nothing: with no
    account and no investment listed, [get_net_worth] returns 0, and does
    not read the clock. *)
Theorem new_client_is_worth_nothing (w : World) (name : string) :
  exists (c : client_ref) (N : number) (w' : World),
    (c ← Client_init name; N ← get_net_worth py c; mret (c, N)) w
    = (Ok (c, N), w')
    /\ N = Int 0
    /\ ticks w' = ticks w
    /\ client_heap w' !! c = Some (Client.mk name [] []).
Proof.
  set (w1 := set_client_heap (client_heap w ++ [Client.mk name [] []]) w).
  assert (Hinit : Client_init name w = (Ok (length (client_heap w)), w1))
    by reflexivity.
  assert (Hc : client_heap w1 !! length (client_heap w)
               = Some (Client.mk name [] [])) by (cbn; apply lookup_new).
  pose proof (get_net_worth_run w1 (length (client_heap w))
                (Client.mk name [] []) [] Hc ltac:(constructor)) as Hworth.
  cbn in Hworth.
  eexists _, _, _. split; [| split; [| split]].
  - rewrite (bind_ok _ _ _ _ _ Hinit). rewrite (bind_ok _ _ _ _ _ Hworth).
    reflexivity.
  - reflexivity.
  - reflexivity.
  - exact Hc.
Qed.

(** X19. What is recategorised is found under its new category.  After
    [update(category=k)] on a transaction on which [update] still names the
    method, with [k] not 0, a query of an
    account for category [k] returns, in ledger order, the transactions of
    the ledger that had category [k] already, and the updated one if it is
    in that ledger. *)
Theorem recategorised_transaction_is_found
    (w : World) (self : tx_ref)
    (t : Transaction.t) (account : account_ref) (a : Account.t) (k : Z) :
  transaction_heap w !! self = Some t ->
  Transaction.extra t !! "update" = None ->
  account_heap w !! account = Some a ->
  dated w (Account.transactions a) ->
  k <> 0 ->
  (call_update py self [("category", VInt k)];;
   get_transactions account None None (Some k)) w
  = (Ok (List.filter (λ r, Nat.eqb r self || has_category w k r)
                     (Account.transactions a)),
     set_transaction_heap
       (<[self := Transaction.mk (Transaction.amount t) (Transaction.date t)
                    (VInt k) (Transaction.description t)
                    (Transaction.extra t)]> (transaction_heap w)) w).
Proof.
  intros Ht Hmethod Ha Hd Hk.
  assert (Hlt : (self < length (transaction_heap w))%nat)
    by (eapply lookup_lt_Some; exact Ht).
  set (t' := Transaction.mk (Transaction.amount t) (Transaction.date t)
               (VInt k) (Transaction.description t) (Transaction.extra t)).
  assert (Hupd : call_update py self [("category", VInt k)] w
                 = (Ok tt, set_transaction_heap
                             (<[self := t']> (transaction_heap w)) w)).
  { unfold call_update.
    rewrite (bind_ok _ _ _ _ _ (deref_ok transaction_heap self w t Ht)).
    rewrite Hmethod. unfold update. cbn [fmap list_fmap fst].
    rewrite bool_decide_eq_false_2.
    2:{ intros H. apply elem_of_cons in H as [H | H]; [discriminate |].
        inversion H. }
    cbn [for_each]. rewrite bind_run.
    rewrite (bind_ok _ _ _ _ _ (deref_ok transaction_heap self w t Ht)).
    rewrite (hasattr_field t "category").
    2:{ unfold instance_fields. do 2 right. left. }
    destruct t as [am da ca de ex]. reflexivity. }
  rewrite (bind_ok _ _ _ _ _ Hupd).
  erewrite get_transactions_filter_run; [| exact Ha |].
  - f_equal. f_equal. apply filter_ext_in. intros r Hr.
    unfold dated in Hd. rewrite Forall_forall in Hd.
    destruct (Hd r) as (tr & d & Htr & _); [apply list_elem_of_In; exact Hr |].
    unfold selected, has_category. cbn [transaction_heap set_transaction_heap].
    destruct (Nat.eqb_spec r self) as [-> | Hne].
    + rewrite list_lookup_insert_eq by exact Hlt. subst t'.
      cbn [Transaction.category py_eq_int andb orb].
      rewrite Z.eqb_refl. apply orb_true_r.
    + rewrite list_lookup_insert_ne by congruence. rewrite Htr.
      destruct (Z.eqb_spec k 0) as [? | _]; [contradiction |]. reflexivity.
  - unfold dated in *. eapply Forall_impl; [exact Hd |].
    intros r (tr & d & Htr & Hdate). cbn [transaction_heap set_transaction_heap].
    destruct (decide (r = self)) as [-> | Hne].
    + rewrite list_lookup_insert_eq by exact Hlt.
      rewrite Ht in Htr. inversion Htr; subst tr.
      exists t', d. split; [reflexivity | exact Hdate].
    + rewrite list_lookup_insert_ne by congruence. eauto.
Qed.


End WithInterpreter.

(** * Examples and instances *)

(** The scenarios of the specification: after a deposit of 500 and a
    purchase of 200 the balance is 300 and the ledger has two entries, of
    which category 1 selects the deposit; with the investment of 1000 valued
    in the month of its purchase the net worth is 1300. *)
Example exemplo_scenario :
  account_heap demo_world !! 0%nat = Some demo_account
  /\ (get_transactions 0%nat None None (Some 1) demo_world).1 = Ok [0%nat]
  /\ (calculate_value python311 0%nat demo_world).1 = Ok 1000%float
  /\ (get_net_worth python311 0%nat demo_world).1 = Ok (Float 1300)
  /\ (get_net_worth python312 0%nat demo_world).1 = Ok (Float 1300).
Proof. vm_compute. repeat split. Qed.

(** The net worth follows the store and the clock: 1300 at first, 1350 once
    50 more have been deposited, and 1310 a calendar month later, when the
    investment has accrued one month at 1%. *)
Example net_worth_is_recomputed :
  (get_net_worth python311 0%nat demo_world).1 = Ok (Float 1300)
  /\ ((add_transaction 0%nat 50 3 "Juros";; get_net_worth python311 0%nat)
        demo_world).1 = Ok (Float 1350)
  /\ (get_net_worth python311 0%nat (a_month_later demo_world)).1
     = Ok (Float 1310).
Proof. vm_compute. repeat split. Qed.

(** The two readings of the clock of one call of [calculate_value] can
    fall in different years.  An investment that doubles every month,
    bought on 1 December 2024 and valued as 2024 turns into 2025, is
    counted -11 months (the year of the last instant of 2024, the month of
    the first of 2025), and valued at 1000 / 2048; by the date of either
    reading it has accrued 0 months, or 1. *)
Example calculate_value_across_new_year :
  months_at new_year_world
    (Investment.mk "Dobro" 1000 (mk_datetime 2024 12 1 0 0 0 0) 1 0%nat)
  = -11
  /\ (calculate_value python311 0%nat new_year_world).1
     = Ok 0.48828125%float
  /\ months_elapsed (mk_datetime 2024 12 1 0 0 0 0)
       (new_year_clock 0) (new_year_clock 0) = 0
  /\ months_elapsed (mk_datetime 2024 12 1 0 0 0 0)
       (new_year_clock 1) (new_year_clock 1) = 1.
Proof. vm_compute. repeat split. Qed.

Lemma demo_clock_monotone : monotone_clock initial_world.
Proof.
  intros i j Hij. unfold dt_le, dt_leb, dt_compare. cbn.
  destruct (Z.compare_spec (Z.of_nat i) (Z.of_nat j)); [reflexivity .. | lia].
Qed.

(** ** Where the wording of the specification fails *)


(** C2, as the specification words it, fails.  A client with two accounts,
    at balances 1e16 and 1.0, and no investment has net worth 1e16, with
    either algorithm of [sum]; the sum of the two balances is
    10000000000000001, which is no float. *)
Lemma net_worth_is_not_the_arithmetic_sum :
  client_heap two_accounts_world !! 0%nat = Some (Client.mk "Alice" [0; 1]%nat [])
  /\ Forall2 (λ r b, Account.balance <$> account_heap two_accounts_world !! r
                     = Some b) [0; 1]%nat [1e16%float; 1%float]
  /\ (get_net_worth python311 0%nat two_accounts_world).1 = Ok (Float 1e16)
  /\ (get_net_worth python312 0%nat two_accounts_world).1 = Ok (Float 1e16)
  /\ exact 1e16 = Some 10000000000000000%Q
  /\ arithmetic_sum [1e16%float; 1%float] = Some 10000000000000001%Q.
Proof.
  split; [reflexivity |]. split; [repeat constructor |].
  vm_compute. repeat split.
Qed.

(** C3, as the specification words it, fails.  An investment that doubles
    every month, valued 1200 months after its purchase, has no value:
    2.0 to the power 1200 is beyond the floats, and [calculate_value]
    raises [OverflowError]. *)
Lemma calculate_value_overflows :
  investment_heap century_world !! 0%nat
  = Some (Investment.mk "Dobro" 1000 (mk_datetime 1924 1 1 0 0 0 0) 1 0%nat)
  /\ months_at century_world
       (Investment.mk "Dobro" 1000 (mk_datetime 1924 1 1 0 0 0 0) 1 0%nat)
     = 1200
  /\ (calculate_value python311 0%nat century_world).1 = Raise OverflowError.
Proof. vm_compute. repeat split. Qed.

(** C7, as the specification words it, fails.  An investment worth 0.1 at
    every call, sold ten times into an account at balance 0.0, leaves the
    balance at 0.9999999999999999, where 0.0 + 10 * 0.1 is 1.0; and the
    balance is not ten times what the float 0.1 stands for either. *)
Lemma ten_sales_do_not_add_up :
  account_heap dime_world !! 0%nat = Some (Account.mk "Conta" 0 [])
  /\ value_stays python311 0.1 0%nat 0%nat 10 dime_world
  /\ exists (w' : World) (a' : Account.t),
       sell_times python311 10 0%nat 0%nat dime_world = (Ok tt, w')
       /\ account_heap w' !! 0%nat = Some a'
       /\ Account.balance a' = 0.9999999999999999%float
       /\ (0 + 10 * 0.1)%float = 1%float
       /\ exact (Account.balance a') <> arithmetic_sum (repeat 0.1%float 10).
Proof.
  split; [reflexivity |]. split; [vm_compute; repeat split |].
  eexists _, _. split; [vm_compute; reflexivity |].
  split; [reflexivity |]. split; [reflexivity |]. split; [reflexivity |].
  vm_compute. discriminate.
Qed.

(** C10, as the specification words it, fails.  When the clock is set back
    by an hour between two calls of [add_transaction], the second
    transaction of the ledger is dated before the first. *)
Lemma timestamps_follow_a_clock_set_back :
  exists (w' : World) (a : Account.t),
    (add_transaction 0%nat 10 1 "a";; add_transaction 0%nat 20 1 "b")
      set_back_world = (Ok 1%nat, w')
    /\ account_heap w' !! 0%nat = Some a
    /\ ledger_dates w' a
       = [Some (VDate (mk_datetime 2024 2 17 23 30 0 0));
          Some (VDate (mk_datetime 2024 2 17 22 30 0 1))]
    /\ ~ non_decreasing (ledger_dates w' a).
Proof.
  eexists _, _. split; [vm_compute; reflexivity |].
  split; [reflexivity |]. split; [reflexivity |].
  intros H.
  destruct (H 0%nat 1%nat _ _ ltac:(lia) eq_refl eq_refl)
    as (dx & dy & Hx & Hy & Hle).
  inversion Hx; subst dx. inversion Hy; subst dy.
  vm_compute in Hle. discriminate.
Qed.

(** ** Instances of the properties *)


Lemma get_net_worth_is_sum_witness :
  client_heap (a_month_later demo_world) !! 0%nat = Some demo_client
  /\ Forall2 (λ r b, Account.balance <$>
                       account_heap (a_month_later demo_world) !! r = Some b)
             (Client.accounts demo_client) [300%float]
  /\ Forall2 (λ r i, investment_heap (a_month_later demo_world) !! r = Some i)
             (Client.investments demo_client) [demo_investment]
  /\ values_from python311 (clock (a_month_later demo_world))
       (ticks (a_month_later demo_world)) [demo_investment]
     = Ok [1010%float]
  /\ (exists n : nat,
        (get_net_worth python311 0%nat (a_month_later demo_world)).2
        = set_ticks n (a_month_later demo_world))
  /\ match values_from python311 (clock (a_month_later demo_world))
             (ticks (a_month_later demo_world)) [demo_investment] with
     | Ok values =>
         exists total_balance total_value : number,
           sums_to (compensated_sum python311) [300%float] total_balance
           /\ sums_to (compensated_sum python311) values total_value
           /\ (get_net_worth python311 0%nat (a_month_later demo_world)).1
              = Ok (py_add total_balance total_value)
     | Raise e =>
         (get_net_worth python311 0%nat (a_month_later demo_world)).1 = Raise e
     end.
Proof.
  assert (Hc : client_heap (a_month_later demo_world) !! 0%nat
               = Some demo_client) by reflexivity.
  assert (Hb : Forall2
                 (λ r b, Account.balance <$>
                           account_heap (a_month_later demo_world) !! r
                         = Some b)
                 (Client.accounts demo_client) [300%float])
    by (repeat constructor).
  assert (Hi : Forall2
                 (λ r i, investment_heap (a_month_later demo_world) !! r
                         = Some i)
                 (Client.investments demo_client) [demo_investment])
    by (repeat constructor).
  split; [exact Hc | split; [exact Hb | split; [exact Hi |]]].
  split; [vm_compute; reflexivity |].
  exact (get_net_worth_is_sum python311 (a_month_later demo_world) 0%nat
           demo_client [300%float] [demo_investment] Hc Hb Hi).
Defined.

Lemma calculate_value_formula_witness :
  investment_heap (a_month_later demo_world) !! 0%nat = Some demo_investment
  /\ year (clock (a_month_later demo_world) (ticks (a_month_later demo_world)))
     = year (clock (a_month_later demo_world)
                   (S (ticks (a_month_later demo_world))))
  /\ py_pow python311 (1 + 0.01) ((2024 - 2024) * 12 + (2 - 1)) = Ok 1.01%float
  /\ calculate_value python311 0%nat (a_month_later demo_world) =
     (match py_pow python311 (1 + 0.01) ((2024 - 2024) * 12 + (2 - 1)) with
      | Ok growth => Ok (1000 * growth)%float
      | Raise e => Raise e
      end,
      set_ticks 5 (a_month_later demo_world)).
Proof.
  split; [reflexivity | split; [reflexivity | split; [reflexivity |]]].
  exact (calculate_value_formula python311 (a_month_later demo_world) 0%nat
           demo_investment eq_refl eq_refl).
Defined.

Lemma sell_credits_value_witness :
  account_heap (a_month_later demo_world) !! 0%nat = Some demo_account
  /\ calculate_value python311 0%nat (a_month_later demo_world)
     = (Ok 1010%float, set_ticks 5 (a_month_later demo_world))
  /\ exists (w' : World) (t : Transaction.t),
       sell python311 0%nat 0%nat (a_month_later demo_world) = (Ok tt, w')
       /\ account_heap w' !! 0%nat =
          Some (Account.mk "Conta Corrente" (300 + 1010)%float [0; 1; 2]%nat)
       /\ transaction_heap w'
          = (transaction_heap (a_month_later demo_world) ++ [t])%list
       /\ Transaction.amount t = VFloat 1010
       /\ Transaction.category t = VInt 0.
Proof.
  assert (Ha : account_heap (a_month_later demo_world) !! 0%nat
               = Some demo_account) by reflexivity.
  assert (Hv : calculate_value python311 0%nat (a_month_later demo_world)
               = (Ok 1010%float, set_ticks 5 (a_month_later demo_world)))
    by (vm_compute; reflexivity).
  split; [exact Ha | split; [exact Hv |]].
  exact (sell_credits_value python311 (a_month_later demo_world) _ 0%nat 0%nat
           _ _ Ha Hv).
Defined.

Lemma sell_description_witness :
  investment_heap demo_world !! 0%nat = Some demo_investment
  /\ account_heap demo_world !! 0%nat = Some demo_account
  /\ calculate_value python311 0%nat demo_world
     = (Ok 1000%float, set_ticks 5 demo_world)
  /\ exists w' : World,
       sell python311 0%nat 0%nat demo_world = (Ok tt, w')
       /\ Transaction.description <$>
            transaction_heap w' !! length (transaction_heap demo_world)
          = Some (VStr ("Venda de " +:+ "Fundo")).
Proof.
  assert (Hi : investment_heap demo_world !! 0%nat = Some demo_investment)
    by reflexivity.
  assert (Ha : account_heap demo_world !! 0%nat = Some demo_account)
    by reflexivity.
  assert (Hv : calculate_value python311 0%nat demo_world
               = (Ok 1000%float, set_ticks 5 demo_world))
    by (vm_compute; reflexivity).
  split; [exact Hi | split; [exact Ha | split; [exact Hv |]]].
  exact (sell_description python311 demo_world _ 0%nat 0%nat _ _ _ Hi Ha Hv).
Defined.

Lemma sell_keeps_investment_witness :
  account_heap (a_month_later demo_world) !! 0%nat = Some demo_account
  /\ value_stays python311 1010 0%nat 0%nat 2 (a_month_later demo_world)
  /\ exists (w' : World) (a' : Account.t),
       sell_times python311 2 0%nat 0%nat (a_month_later demo_world)
       = (Ok tt, w')
       /\ investment_heap w' = investment_heap (a_month_later demo_world)
       /\ client_heap w' = client_heap (a_month_later demo_world)
       /\ account_heap w' !! 0%nat = Some a'
       /\ Account.balance a' = added_in_turn 300 (repeat 1010%float 2).
Proof.
  assert (Ha : account_heap (a_month_later demo_world) !! 0%nat
               = Some demo_account) by reflexivity.
  assert (Hv : value_stays python311 1010 0%nat 0%nat 2
                 (a_month_later demo_world))
    by (vm_compute; repeat split).
  split; [exact Ha | split; [exact Hv |]].
  exact (proj2 (sell_keeps_investment python311 (a_month_later demo_world)
                  0%nat 0%nat) _ 2%nat _ Ha Hv).
Defined.

Lemma get_transactions_no_filter_witness :
  account_heap demo_world !! 0%nat = Some demo_account
  /\ get_transactions 0%nat None None None demo_world
     = (Ok [0; 1]%nat, demo_world).
Proof.
  split; [reflexivity |].
  apply (get_transactions_no_filter demo_world 0%nat demo_account).
  reflexivity.
Defined.

Lemma update_overwrites_fields_witness :
  transaction_heap demo_world !! 0%nat = Some demo_deposit
  /\ Transaction.extra demo_deposit !! "update" = None
  /\ NoDup demo_patch.*1
  /\ ("self" ∉ demo_patch.*1)
  /\ (forall k, k ∈ demo_patch.*1 ->
                k ∈ instance_fields \/ hasattr python311 demo_deposit k = false)
  /\ exists t' : Transaction.t,
       call_update python311 0%nat demo_patch demo_world
       = (Ok tt, set_transaction_heap
                   (<[0%nat := t']> (transaction_heap demo_world)) demo_world)
       /\ (forall k v, (k, v) ∈ demo_patch -> k ∈ instance_fields ->
                       instance_attr t' k = Some v)
       /\ (forall k, k ∉ demo_patch.*1 \/ k ∉ instance_fields ->
                     instance_attr t' k = instance_attr demo_deposit k).
Proof.
  assert (Ht : transaction_heap demo_world !! 0%nat = Some demo_deposit)
    by reflexivity.
  assert (Hm : Transaction.extra demo_deposit !! "update" = None)
    by reflexivity.
  assert (Hnd : NoDup demo_patch.*1)
    by (apply (bool_decide_unpack _); vm_compute; exact I).
  assert (Hself : "self" ∉ demo_patch.*1)
    by (apply (bool_decide_unpack _); vm_compute; exact I).
  assert (Hkeys : forall k, k ∈ demo_patch.*1 ->
                            k ∈ instance_fields
                            \/ hasattr python311 demo_deposit k = false).
  { intros k Hk. cbn in Hk.
    apply elem_of_cons in Hk as [-> | Hk];
      [left; apply (bool_decide_unpack _); vm_compute; exact I |].
    apply elem_of_cons in Hk as [-> | Hk]; [right; vm_compute; reflexivity |].
    inversion Hk. }
  split; [exact Ht | split; [exact Hm | split; [exact Hnd |]]].
  split; [exact Hself | split; [exact Hkeys |]].
  exact (update_overwrites_fields python311 demo_world 0%nat demo_deposit
           demo_patch Ht Hm Hnd Hself Hkeys).
Defined.

Lemma timestamps_non_decreasing_witness :
  monotone_clock initial_world
  /\ account_heap initial_world = []
  /\ Forall (keeps_attribute "date") exemplo_calls
  /\ account_heap (session python311 exemplo_calls initial_world) !! 0%nat
     = Some sold_account
  /\ non_decreasing
       (ledger_dates (session python311 exemplo_calls initial_world)
                     sold_account).
Proof.
  assert (Hkeep : Forall (keeps_attribute "date") exemplo_calls).
  { repeat constructor. cbn.
    apply (bool_decide_unpack _). vm_compute. exact I. }
  assert (Hr : account_heap (session python311 exemplo_calls initial_world)
                 !! 0%nat = Some sold_account) by (vm_compute; reflexivity).
  split; [exact demo_clock_monotone | split; [reflexivity |]].
  split; [exact Hkeep | split; [exact Hr |]].
  exact (timestamps_non_decreasing python311 exemplo_calls initial_world 0%nat
           sold_account demo_clock_monotone eq_refl Hkeep Hr).
Defined.

(** ** Instances of the further properties *)

Lemma get_transactions_selects_witness :
  account_heap demo_world !! 0%nat = Some demo_account
  /\ dated demo_world (Account.transactions demo_account)
  /\ get_transactions 0%nat (Some (demo_clock 1)) (Some (demo_clock 5))
       (Some 2) demo_world
     = (Ok (List.filter
              (selected demo_world (Some (demo_clock 1)) (Some (demo_clock 5))
                        (Some 2))
              (Account.transactions demo_account)), demo_world).
Proof.
  assert (Ha : account_heap demo_world !! 0%nat = Some demo_account)
    by reflexivity.
  assert (Hd : dated demo_world (Account.transactions demo_account))
    by (unfold dated, demo_account; cbn [Account.transactions]; all_dated).
  split; [exact Ha | split; [exact Hd |]].
  exact (get_transactions_selects demo_world 0%nat demo_account _ _ _ Ha Hd).
Defined.

Lemma get_transactions_takes_from_ledger_witness :
  (get_transactions 0%nat None None (Some 1) demo_world).1 = Ok [0%nat]
  /\ exists a : Account.t,
       account_heap demo_world !! 0%nat = Some a
       /\ sublist [0%nat] (Account.transactions a).
Proof.
  assert (H : (get_transactions 0%nat None None (Some 1) demo_world).1
              = Ok [0%nat]) by (vm_compute; reflexivity).
  split; [exact H |].
  exact (proj2 (get_transactions_takes_from_ledger demo_world 0%nat
                  None None (Some 1)) [0%nat] H).
Defined.

Lemma get_transactions_raises_on_bad_date_witness :
  account_heap misdated_world !! 0%nat = Some demo_account
  /\ all_live misdated_world (Account.transactions demo_account)
  /\ Exists (λ r, exists t : Transaction.t,
                  transaction_heap misdated_world !! r = Some t
                  /\ forall d, Transaction.date t <> VDate d)
            (Account.transactions demo_account)
  /\ (is_Some (Some (demo_clock 0)) \/ is_Some (@None datetime))
  /\ get_transactions 0%nat (Some (demo_clock 0)) None None misdated_world
     = (Raise TypeError, misdated_world).
Proof.
  assert (Ha : account_heap misdated_world !! 0%nat = Some demo_account)
    by reflexivity.
  assert (Hlive : all_live misdated_world (Account.transactions demo_account))
    by (unfold all_live, demo_account; cbn [Account.transactions];
        all_is_Some).
  assert (Hbad : Exists (λ r, exists t : Transaction.t,
                     transaction_heap misdated_world !! r = Some t
                     /\ forall d, Transaction.date t <> VDate d)
                   (Account.transactions demo_account)).
  { apply Exists_cons_hd. eexists. split; [reflexivity |].
    intros d H. vm_compute in H. discriminate. }
  assert (Hf : is_Some (Some (demo_clock 0)) \/ is_Some (@None datetime))
    by (left; eexists; reflexivity).
  split; [exact Ha | split; [exact Hlive | split; [exact Hbad |]]].
  split; [exact Hf |].
  exact (get_transactions_raises_on_bad_date misdated_world 0%nat demo_account
           _ _ None Ha Hlive Hbad Hf).
Defined.

Lemma get_transactions_empty_range_witness :
  account_heap demo_world !! 0%nat = Some demo_account
  /\ dated demo_world (Account.transactions demo_account)
  /\ dt_leb (demo_clock 5) (demo_clock 1) = false
  /\ get_transactions 0%nat (Some (demo_clock 5)) (Some (demo_clock 1)) None
       demo_world
     = (Ok [], demo_world).
Proof.
  assert (Ha : account_heap demo_world !! 0%nat = Some demo_account)
    by reflexivity.
  assert (Hd : dated demo_world (Account.transactions demo_account))
    by (unfold dated, demo_account; cbn [Account.transactions]; all_dated).
  split; [exact Ha | split; [exact Hd | split; [reflexivity |]]].
  exact (get_transactions_empty_range demo_world 0%nat demo_account
           (demo_clock 5) (demo_clock 1) None Ha Hd eq_refl).
Defined.

Lemma new_investment_is_worth_its_amount_witness :
  year (clock initial_world (S (ticks initial_world)))
  = year (clock initial_world (ticks initial_world))
  /\ month (clock initial_world (S (S (ticks initial_world))))
     = month (clock initial_world (ticks initial_world))
  /\ exists (i : investment_ref) (v : float) (w' : World),
       (i ← Investment_init "Fundo" 1000 0.01 0%nat;
        v ← calculate_value python311 i; mret (i, v)) initial_world
       = (Ok (i, v), w')
       /\ v = 1000%float.
Proof.
  split; [reflexivity | split; [reflexivity |]].
  exact (new_investment_is_worth_its_amount python311 initial_world "Fundo"
           1000 0.01 0%nat eq_refl eq_refl).
Defined.

Lemma calculate_value_zero_division_witness :
  investment_heap wound_back_world !! 0%nat
  = Some (Investment.mk "Perda" 1000 (mk_datetime 2024 5 1 0 0 0 0) (-1) 0%nat)
  /\ (1 + -1 =? 0)%float = true
  /\ months_at wound_back_world
       (Investment.mk "Perda" 1000 (mk_datetime 2024 5 1 0 0 0 0) (-1) 0%nat)
     < 0
  /\ calculate_value python311 0%nat wound_back_world
     = (Raise ZeroDivisionError,
        set_ticks (S (S (ticks wound_back_world))) wound_back_world).
Proof.
  split; [reflexivity | split; [reflexivity | split; [reflexivity |]]].
  exact (calculate_value_zero_division python311 wound_back_world 0%nat
           (Investment.mk "Perda" 1000 (mk_datetime 2024 5 1 0 0 0 0) (-1) 0%nat)
           eq_refl eq_refl eq_refl).
Defined.

Lemma sell_fails_without_credit_witness :
  (calculate_value python311 0%nat century_world).1 = Raise OverflowError
  /\ (sell python311 0%nat 0%nat century_world).1 = Raise OverflowError
  /\ account_heap (sell python311 0%nat 0%nat century_world).2
     = account_heap century_world
  /\ transaction_heap (sell python311 0%nat 0%nat century_world).2
     = transaction_heap century_world.
Proof.
  assert (H : (calculate_value python311 0%nat century_world).1
              = Raise OverflowError) by reflexivity.
  split; [exact H |].
  exact (sell_fails_without_credit python311 century_world 0%nat 0%nat
           OverflowError H).
Defined.

Lemma add_account_keeps_net_worth_witness :
  client_heap demo_world !! 0%nat = Some demo_client
  /\ Forall2 (λ r b, Account.balance <$> account_heap demo_world !! r = Some b)
            (Client.accounts demo_client) [300%float]
  /\ exists w1 : World,
       add_account 0%nat "Poupanca" demo_world
       = (Ok (length (account_heap demo_world)), w1)
       /\ account_heap demo_world !! length (account_heap demo_world) = None
       /\ account_heap w1 !! length (account_heap demo_world)
          = Some (Account.mk "Poupanca" 0 [])
       /\ client_heap w1 !! 0%nat
          = Some (Client.mk (Client.name demo_client)
                    (Client.accounts demo_client
                       ++ [length (account_heap demo_world)])
                    (Client.investments demo_client))
       /\ forall N : number,
            (get_net_worth python312 0%nat demo_world).1 = Ok N ->
            exists N' : number,
              (get_net_worth python312 0%nat w1).1 = Ok N'
              /\ same_number N' N.
Proof.
  assert (Hc : client_heap demo_world !! 0%nat = Some demo_client)
    by reflexivity.
  assert (Hb : Forall2
                 (λ r b, Account.balance <$> account_heap demo_world !! r
                         = Some b)
                 (Client.accounts demo_client) [300%float])
    by (repeat constructor).
  split; [exact Hc | split; [exact Hb |]].
  exact (add_account_keeps_net_worth python312 demo_world 0%nat demo_client
           "Poupanca" [300%float] Hc Hb).
Defined.

Lemma add_investment_counts_witness :
  client_heap demo_world !! 0%nat = Some demo_client
  /\ Forall2 (λ r b, Account.balance <$> account_heap demo_world !! r = Some b)
            (Client.accounts demo_client) [300%float]
  /\ Forall2 (λ r i, investment_heap demo_world !! r = Some i)
            (Client.investments demo_client) [demo_investment]
  /\ investment_heap demo_world !! 0%nat = Some demo_investment
  /\ values_from python311 (clock demo_world) (ticks demo_world)
       ([demo_investment] ++ [demo_investment])
     = Ok [1000%float; 1000%float]
  /\ ((add_investment 0%nat 0%nat;; get_net_worth python311 0%nat)
        demo_world).1 = Ok (Float 2300)
  /\ match values_from python311 (clock demo_world) (ticks demo_world)
             ([demo_investment] ++ [demo_investment]) with
     | Ok values =>
         exists total_balance total_value : number,
           sums_to (compensated_sum python311) [300%float] total_balance
           /\ sums_to (compensated_sum python311) values total_value
           /\ ((add_investment 0%nat 0%nat;; get_net_worth python311 0%nat)
                 demo_world).1
              = Ok (py_add total_balance total_value)
     | Raise e =>
         ((add_investment 0%nat 0%nat;; get_net_worth python311 0%nat)
            demo_world).1 = Raise e
     end.
Proof.
  assert (Hc : client_heap demo_world !! 0%nat = Some demo_client)
    by reflexivity.
  assert (Hb : Forall2
                 (λ r b, Account.balance <$> account_heap demo_world !! r
                         = Some b)
                 (Client.accounts demo_client) [300%float])
    by (repeat constructor).
  assert (Hi : Forall2 (λ r i, investment_heap demo_world !! r = Some i)
                 (Client.investments demo_client) [demo_investment])
    by (repeat constructor).
  assert (Hinv : investment_heap demo_world !! 0%nat = Some demo_investment)
    by reflexivity.
  split; [exact Hc | split; [exact Hb | split; [exact Hi |]]].
  split; [exact Hinv | split; [reflexivity | split; [reflexivity |]]].
  exact (add_investment_counts python311 demo_world 0%nat demo_client 0%nat
           demo_investment [300%float] [demo_investment] Hc Hb Hi Hinv).
Defined.

Lemma sell_keeps_investment_in_net_worth_witness :
  client_heap demo_world !! 0%nat = Some demo_client
  /\ Client.accounts demo_client = ([] ++ 0%nat :: [])%list
  /\ (0%nat ∉ @nil account_ref)
  /\ Forall2 (λ r b, Account.balance <$> account_heap demo_world !! r = Some b)
            [] (@nil float)
  /\ account_heap demo_world !! 0%nat = Some demo_account
  /\ Forall2 (λ r i, investment_heap demo_world !! r = Some i)
            (Client.investments demo_client) [demo_investment]
  /\ (calculate_value python311 0%nat demo_world).1 = Ok 1000%float
  /\ ((sell python311 0%nat 0%nat;; get_net_worth python311 0%nat)
        demo_world).1 = Ok (Float 2300)
  /\ match values_from python311 (clock demo_world) (3 + ticks demo_world)
             [demo_investment] with
     | Ok values =>
         exists total_balance total_value : number,
           sums_to (compensated_sum python311)
                   ([] ++ (Account.balance demo_account + 1000)%float :: [])
                   total_balance
           /\ sums_to (compensated_sum python311) values total_value
           /\ ((sell python311 0%nat 0%nat;; get_net_worth python311 0%nat)
                 demo_world).1
              = Ok (py_add total_balance total_value)
     | Raise e =>
         ((sell python311 0%nat 0%nat;; get_net_worth python311 0%nat)
            demo_world).1 = Raise e
     end.
Proof.
  assert (Hc : client_heap demo_world !! 0%nat = Some demo_client)
    by reflexivity.
  assert (Haccs : Client.accounts demo_client = ([] ++ 0%nat :: [])%list)
    by reflexivity.
  assert (Hnot : 0%nat ∉ (@nil account_ref)) by apply not_elem_of_nil.
  assert (Hnil : Forall2
                   (λ r b, Account.balance <$> account_heap demo_world !! r
                           = Some b) [] (@nil float))
    by constructor.
  assert (Ha : account_heap demo_world !! 0%nat = Some demo_account)
    by reflexivity.
  assert (Hi : Forall2 (λ r i, investment_heap demo_world !! r = Some i)
                 (Client.investments demo_client) [demo_investment])
    by (repeat constructor).
  assert (HV : (calculate_value python311 0%nat demo_world).1 = Ok 1000%float)
    by (vm_compute; reflexivity).
  split; [exact Hc | split; [exact Haccs | split; [exact Hnot |]]].
  split; [exact Hnil | split; [exact Ha | split; [exact Hi |]]].
  split; [exact HV | split; [vm_compute; reflexivity |]].
  exact (sell_keeps_investment_in_net_worth python311 demo_world 0%nat
           demo_client 0%nat 0%nat demo_account 1000 [] [] [] []
           [demo_investment] Hc Haccs Hnot Hnot Hnil Ha Hnil Hi HV).
Defined.

Lemma update_changes_only_its_transaction_witness :
  account_heap (update python311 0%nat demo_patch demo_world).2
  = account_heap demo_world
  /\ 1%nat <> 0%nat
  /\ transaction_heap (update python311 0%nat demo_patch demo_world).2 !! 1%nat
     = transaction_heap demo_world !! 1%nat.
Proof.
  assert (Hne : 1%nat <> 0%nat) by discriminate.
  split;
    [exact (proj1 (proj2 (proj2
              (update_changes_only_its_transaction python311 0%nat demo_patch
                 demo_world)))) |].
  split; [exact Hne |].
  exact (proj2 (proj2 (proj2 (proj2 (proj2 (proj2
           (update_changes_only_its_transaction python311 0%nat demo_patch
              demo_world)))))) 1%nat Hne).
Defined.

Lemma balances_follow_ledgers_witness :
  account_heap initial_world = []
  /\ Forall (keeps_attribute "amount") exemplo_sale_calls
  /\ account_heap (session python311 exemplo_sale_calls initial_world) !! 0%nat
     = Some sold_account
  /\ exists xs : list float,
       ledger_amounts (session python311 exemplo_sale_calls initial_world)
                      sold_account
       = map (λ x, Some (VFloat x)) xs
       /\ Account.balance sold_account = added_in_turn 0 xs.
Proof.
  assert (He : account_heap initial_world = []) by reflexivity.
  assert (Hk : Forall (keeps_attribute "amount") exemplo_sale_calls)
    by (repeat constructor).
  assert (Ha : account_heap (session python311 exemplo_sale_calls initial_world)
                 !! 0%nat = Some sold_account)
    by (vm_compute; reflexivity).
  split; [exact He | split; [exact Hk | split; [exact Ha |]]].
  exact (balances_follow_ledgers python311 exemplo_sale_calls initial_world
           0%nat sold_account He Hk Ha).
Defined.

Lemma investments_never_change_witness :
  investment_heap demo_world !! 0%nat = Some demo_investment
  /\ investment_heap
       (session python311
          [Call_sell 0%nat 0%nat; Call_update 0%nat demo_patch;
           Call_add_investment 0%nat 0%nat] demo_world) !! 0%nat
     = Some demo_investment.
Proof.
  assert (Hi : investment_heap demo_world !! 0%nat = Some demo_investment)
    by reflexivity.
  split; [exact Hi |].
  exact (investments_never_change python311
           [Call_sell 0%nat 0%nat; Call_update 0%nat demo_patch;
            Call_add_investment 0%nat 0%nat] demo_world 0%nat
           demo_investment Hi).
Defined.

Lemma nothing_is_ever_removed_witness :
  account_heap demo_world !! 0%nat = Some demo_account
  /\ exists a' : Account.t,
       account_heap
         (session python311
            [Call_sell 0%nat 0%nat; Call_update 0%nat demo_patch]
            demo_world) !! 0%nat = Some a'
       /\ Account.name a' = Account.name demo_account
       /\ Account.transactions demo_account `prefix_of` Account.transactions a'.
Proof.
  assert (Ha : account_heap demo_world !! 0%nat = Some demo_account)
    by reflexivity.
  split; [exact Ha |].
  exact (proj1 (nothing_is_ever_removed python311
                  [Call_sell 0%nat 0%nat; Call_update 0%nat demo_patch]
                  demo_world) 0%nat demo_account Ha).
Defined.

Lemma ledgers_never_share_witness :
  account_heap initial_world = []
  /\ ledgers_separate (session python311 exemplo_calls initial_world).
Proof.
  split; [reflexivity |].
  exact (ledgers_never_share python311 exemplo_calls initial_world eq_refl).
Defined.

Lemma add_transaction_then_get_transactions_witness :
  account_heap demo_world !! 0%nat = Some demo_account
  /\ dated demo_world (Account.transactions demo_account)
  /\ (add_transaction 0%nat 75 2 "Mercado";;
      get_transactions 0%nat (Some (demo_clock 1)) None (Some 2)) demo_world
     = (Ok (List.filter (selected demo_world (Some (demo_clock 1)) None (Some 2))
                        (Account.transactions demo_account)
            ++ (if passes (clock demo_world (ticks demo_world)) 2
                          (Some (demo_clock 1)) None (Some 2)
                then [length (transaction_heap demo_world)] else []))%list,
        credited 0%nat demo_account 75 2 "Mercado" demo_world).
Proof.
  assert (Ha : account_heap demo_world !! 0%nat = Some demo_account)
    by reflexivity.
  assert (Hd : dated demo_world (Account.transactions demo_account))
    by (unfold dated, demo_account; cbn [Account.transactions]; all_dated).
  split; [exact Ha | split; [exact Hd |]].
  exact (add_transaction_then_get_transactions demo_world 0%nat demo_account
           75 2 "Mercado" (Some (demo_clock 1)) None (Some 2) Ha Hd).
Defined.

Lemma recategorised_transaction_is_found_witness :
  transaction_heap demo_world !! 1%nat
  = Some (Transaction.mk (VFloat (-200)) (VDate (demo_clock 1)) (VInt 2)
            (VStr "Compra") ∅)
  /\ (∅ : gmap string value) !! "update" = None
  /\ account_heap demo_world !! 0%nat = Some demo_account
  /\ dated demo_world (Account.transactions demo_account)
  /\ 1 <> 0
  /\ (call_update python311 1%nat [("category", VInt 1)];;
      get_transactions 0%nat None None (Some 1)) demo_world
     = (Ok (List.filter (λ r, Nat.eqb r 1 || has_category demo_world 1 r)
                        (Account.transactions demo_account)),
        set_transaction_heap
          (<[1%nat := Transaction.mk (VFloat (-200)) (VDate (demo_clock 1))
                        (VInt 1) (VStr "Compra") ∅]>
             (transaction_heap demo_world)) demo_world).
Proof.
  assert (Ht : transaction_heap demo_world !! 1%nat
               = Some (Transaction.mk (VFloat (-200)) (VDate (demo_clock 1))
                         (VInt 2) (VStr "Compra") ∅))
    by reflexivity.
  assert (Hm : (∅ : gmap string value) !! "update" = None) by reflexivity.
  assert (Ha : account_heap demo_world !! 0%nat = Some demo_account)
    by reflexivity.
  assert (Hd : dated demo_world (Account.transactions demo_account))
    by (unfold dated, demo_account; cbn [Account.transactions]; all_dated).
  assert (Hk : 1 <> 0) by discriminate.
  split; [exact Ht | split; [exact Hm | split; [exact Ha |]]].
  split; [exact Hd | split; [exact Hk |]].
  exact (recategorised_transaction_is_found python311 demo_world 1%nat _ 0%nat
           demo_account 1 Ht Hm Ha Hd Hk).
Defined.
